(** * Universal Tool Framework: menu navigation and tool execution

    A shallow embedding of the JavaScript sources
    [systemUtils.js], [toolExecutor.js], [uiHandler.js],
    [menuController.js], [arrowMenuEngine.js] and
    [applicationController.js], followed by the properties of the
    navigation stack, the selection strategies and the tool executor.

    Conventions.
    - JavaScript strings are byte strings in UTF-8.
    - [undefined] and [null] of a string-valued expression are [None].
    - Objects read from JSON are typed records; an object used as an
      ordered dictionary is an association list in own-property order,
      an object used as a plain dictionary is a [gmap].
    - Property lookup by a menu id finds the menus of the tree and then
      the names inherited from [Object.prototype]; lookup by an
      architecture reads the entries of the mapping, and what is proved
      of it is stated for architectures that are no inherited names.
    - Numbers are Number values: an integer is rounded to the nearest
      double, and Infinity is written 2^1024.
    - Terminal, file system and child processes form the [World]; every
      asynchronous method is a computation in the monad [M]. *)

From stdpp Require Import base strings list gmap pretty.
From Stdlib Require Import Ascii ZArith Lia.

Local Open Scope string_scope.
Local Open Scope Z_scope.

(** ** JavaScript strings *)

Module Js.

Definition fromBytes (l : list nat) : string :=
  foldr (λ n s, String (Ascii.ascii_of_nat n) s) EmptyString l.

Definition esc : string := fromBytes [27%nat].

(** ANSI colours as the sources write them: [\x1b[31m ... \x1b[0m]. *)
Definition red (s : string) : string := esc +:+ "[31m" +:+ s +:+ esc +:+ "[0m".
Definition green (s : string) : string := esc +:+ "[32m" +:+ s +:+ esc +:+ "[0m".
Definition yellow (s : string) : string := esc +:+ "[33m" +:+ s +:+ esc +:+ "[0m".

Fixpoint revString (s acc : string) : string :=
  match s with
  | EmptyString => acc
  | String c r => revString r (String c acc)
  end.

Fixpoint stripPrefix (p s : string) : option string :=
  match p, s with
  | EmptyString, _ => Some s
  | String a p', String b s' => if Ascii.eqb a b then stripPrefix p' s' else None
  | String _ _, EmptyString => None
  end.

(** WhiteSpace and LineTerminator code points of ECMAScript, in UTF-8:
    TAB, LF, VT, FF, CR, SP, U+00A0, U+1680, U+2000..U+200A, U+2028,
    U+2029, U+202F, U+205F, U+3000, U+FEFF. *)
Definition whiteSpace : list string :=
  map fromBytes
    [ [9]; [10]; [11]; [12]; [13]; [32]; [194; 160]; [225; 154; 128];
      [226; 128; 128]; [226; 128; 129]; [226; 128; 130]; [226; 128; 131];
      [226; 128; 132]; [226; 128; 133]; [226; 128; 134]; [226; 128; 135];
      [226; 128; 136]; [226; 128; 137]; [226; 128; 138]; [226; 128; 168];
      [226; 128; 169]; [226; 128; 175]; [226; 129; 159]; [227; 128; 128];
      [239; 187; 191] ]%nat.

Fixpoint dropOne (ws : list string) (s : string) : option string :=
  match ws with
  | [] => None
  | w :: ws' =>
      match stripPrefix w s with
      | Some r => Some r
      | None => dropOne ws' s
      end
  end.

Fixpoint dropWhile (ws : list string) (fuel : nat) (s : string) : string :=
  match fuel with
  | O => s
  | S fuel' =>
      match dropOne ws s with
      | Some r => dropWhile ws fuel' r
      | None => s
      end
  end.

Definition trimStart (s : string) : string :=
  dropWhile whiteSpace (String.length s) s.

Definition trimEnd (s : string) : string :=
  let r := revString s "" in
  revString
    (dropWhile (map (λ w, revString w "") whiteSpace) (String.length r) r) "".

(** [String.prototype.trim]. *)
Definition trim (s : string) : string := trimEnd (trimStart s).

Definition lowerAscii (c : ascii) : ascii :=
  let n := Ascii.nat_of_ascii c in
  if (65 <=? n)%nat && (n <=? 90)%nat then Ascii.ascii_of_nat (n + 32) else c.

(** [String.prototype.toLowerCase] on the ASCII letters.  The sources
    only compare its result with one of the letters b, m, p and t, and
    no other character lowers to one of these. *)
Fixpoint toLowerCase (s : string) : string :=
  match s with
  | EmptyString => EmptyString
  | String c r => String (lowerAscii c) (toLowerCase r)
  end.

Definition digitValue (radix : Z) (c : ascii) : option Z :=
  let n := Z.of_nat (Ascii.nat_of_ascii c) in
  let v :=
    if (48 <=? n) && (n <=? 57) then Some (n - 48)
    else if (97 <=? n) && (n <=? 122) then Some (n - 87)
    else if (65 <=? n) && (n <=? 90) then Some (n - 55)
    else None in
  match v with
  | Some d => if d <? radix then Some d else None
  | None => None
  end.

(** The longest prefix of digits; [None] when there is no digit. *)
Fixpoint parseDigits (radix : Z) (s : string) (acc : option Z) : option Z :=
  match s with
  | EmptyString => acc
  | String c r =>
      match digitValue radix c with
      | Some d => parseDigits radix r (Some (radix * default 0 acc + d))
      | None => acc
      end
  end.

(** The Number value of an integer: the nearest double, with ties to
    the even mantissa of 53 bits.  Beyond the largest double it is
    Infinity, which is written 2^1024 here (and -Infinity its
    opposite): no finite double is that large, and the sources only
    compare the number and test it for zero. *)
Definition toNumber (n : Z) : Z :=
  let a := Z.abs n in
  let shift := Z.log2 a + 1 - 53 in
  if shift <=? 0 then n
  else
    let q := Z.shiftr a shift in
    let r := a - Z.shiftl q shift in
    let half := Z.shiftl 1 (shift - 1) in
    let q' := if (half <? r) || ((r =? half) && Z.odd q) then q + 1 else q in
    let m := Z.shiftl q' shift in
    Z.sgn n * (if 2 ^ 1024 <=? m then 2 ^ 1024 else m).

(** [parseInt(string)] without a radix: leading white space, a sign, the
    prefix 0x or 0X, then digits.  [None] is NaN.  The result is the
    Number value of the integer the digits denote. *)
Definition parseInt (input : string) : option Z :=
  let s := trimStart input in
  let '(sign, s) :=
    match s with
    | String "-"%char r => (-1, r)
    | String "+"%char r => (1, r)
    | _ => (1, s)
    end in
  let '(radix, s) :=
    match s with
    | String "0"%char (String "x"%char r) => (16, r)
    | String "0"%char (String "X"%char r) => (16, r)
    | _ => (10, s)
    end in
  (λ n, toNumber (sign * n)) <$> parseDigits radix s None.

(** Truthiness of a value that is a string, [undefined] or [null]. *)
Definition truthy (v : option string) : bool :=
  match v with
  | Some s => negb (s =? "")%string
  | None => false
  end.

(** [a || b]. *)
Definition or (a b : option string) : option string :=
  if truthy a then a else b.

(** [a || b] where [b] is a string. *)
Definition orString (a : option string) (b : string) : string :=
  match a with
  | Some s => if (s =? "")%string then b else s
  | None => b
  end.

(** Template-literal rendering of a string-or-undefined value. *)
Definition show (v : option string) : string := default "undefined" v.

(** [Array.prototype.includes] on strings. *)
Definition includes (l : list string) (s : string) : bool :=
  existsb (String.eqb s) l.

(** The names of the properties of [Object.prototype], which every
    object read from JSON inherits: [object[name]] is a function (the
    prototype itself for [__proto__]) when the object has no entry of
    that name. *)
Definition objectPrototypeNames : list string :=
  ["constructor"; "__defineGetter__"; "__defineSetter__"; "hasOwnProperty";
   "__lookupGetter__"; "__lookupSetter__"; "isPrototypeOf";
   "propertyIsEnumerable"; "toString"; "valueOf"; "__proto__";
   "toLocaleString"].

End Js.

(** ** systemUtils.js *)

(** The ArchitectureTag enumeration and the string each tag is in the
    sources. *)
Inductive ArchitectureTag := X86_64 | X86 | ARM64 | ARM32 | Unknown.

Definition tagName (t : ArchitectureTag) : string :=
  match t with
  | X86_64 => "X86_64"
  | X86 => "X86"
  | ARM64 => "ARM64"
  | ARM32 => "ARM32"
  | Unknown => "Unknown Architecture(未知系统架构)"
  end.

(** The platform strings [getSystemArchitecture] recognises. *)
Definition recognizedPlatforms : list string :=
  ["arm64"; "aarch64"; "arm"; "armv7l"; "ia32"; "x64"; "amd64"].

(** [getSystemArchitecture()]; [arch] is what [os.arch()] returns. *)
Definition getSystemArchitecture (arch : string) : string :=
  if Js.includes ["arm64"; "aarch64"] arch then "ARM64"
  else if Js.includes ["arm"; "armv7l"] arch then "ARM32"
  else if Js.includes ["ia32"] arch then "X86"
  else if Js.includes ["x64"; "amd64"] arch then "X86_64"
  else "Unknown Architecture(未知系统架构)".

(** ** The menu tree (menu.json) and the settings (settings.json) *)

(** [path] of an executable item: a string, or an object from
    architecture tags to strings, kept in own-property order (the order
    of declaration, keys being names and not array indices). *)
Inductive ToolPath :=
| PathString (s : string)
| PathObject (entries : list (string * string)).

(** The item types of [handleUserChoice]'s [switch], each with the
    field the spec says is present exactly for it. *)
Inductive ItemKind :=
| Submenu (submenu : string)
| Executable (path : ToolPath)
| Back
| Main
| OtherType (type : string).

(** An item of a menu; [id] is the Number that [JSON.parse] read, an
    integer in the menus of the sources. *)
Record MenuItem := {
  id : Z;
  label : string;
  kind : ItemKind
}.

Record Menu := {
  title : string;
  parent : option string;
  items : option (list MenuItem)
}.

Record Config := {
  menu : gmap string Menu
}.

Record Settings := {
  input_method : option string;
  display_clear : bool;
  arch_picker : bool;
  arrow_indicator : option string
}.

Record SettingsConfig := {
  settings : option Settings
}.

(** [settingsConfig.settings?.input_method || 'num_input'] *)
Definition inputMethodOf (sc : option SettingsConfig) : string :=
  Js.orString
    (match sc with
     | Some c =>
         match settings c with
         | Some s => input_method s
         | None => None
         end
     | None => None
     end) "num_input".

(** arch_picker.json *)
Record PickerOption := {
  option_id : Z;
  display : string;
  value : option string
}.

Record PickerConfig := {
  picker_title : string;
  options : list PickerOption
}.

(** A selection as it travels through the sources: a number, one of the
    strings q, m, p, t, or [null]. *)
Inductive Choice :=
| ChoiceNum (n : Z)
| ChoiceStr (s : string)
| ChoiceNull.

Definition choiceTruthy (c : Choice) : bool :=
  match c with
  | ChoiceNum n => negb (n =? 0)
  | ChoiceStr s => negb (s =? "")%string
  | ChoiceNull => false
  end.

(** [c === 'str'] *)
Definition choiceIs (c : Choice) (str : string) : bool :=
  match c with
  | ChoiceStr s => (s =? str)%string
  | _ => false
  end.

(** [id === choice] for a numeric id. *)
Definition idIs (i : Z) (c : Choice) : bool :=
  match c with
  | ChoiceNum n => i =? n
  | _ => false
  end.

(** ** The world: terminal, file system, child processes *)

(** What the program does to the world: what it writes, the questions
    it asks, the switches of raw mode, the menus drawn, and the calls
    of [spawn] with the command and the working directory given (a call
    that may throw: see [ChildOutcome]). *)
Inductive Event :=
| ConsoleLog (text : string)
| ConsoleError (text : string)
| StdoutWrite (text : string)
| Question (prompt : string)
| SetRawMode (on : bool)
| RenderMenu (menuTitle : string) (selectedIndex : Z)
| DisplayMenu (menuId : option string)
| Spawn (command : option string) (cwd : option string).

(** What becomes of a call of [spawn]: the child runs and closes with a
    code ([null] when a signal ended it); or the spawn fails after the
    call returned, and the child emits error and then, in the same
    tick, close with the number of the error as code; or the call
    itself throws, as it does for a command that is not a non-empty
    string. *)
Inductive ChildOutcome :=
| ChildClose (code : option Z)
| ChildError (message : string) (code : option Z)
| SpawnThrows (message : string).

(** What the tool-package selection flow of the p command does:
    [showToolPackageSelector], then [switchToToolPackage] and
    [addToolPackage] when a path was selected.  These methods read and
    write the file system (saved packages, menu.json, settings.json),
    which is not part of the world of a run; the way the flow ends is
    taken from the world: no path selected; a path that
    [switchToToolPackage] rejects; a package loaded; an exception
    thrown by [switchToToolPackage] after none, some or all of
    [configDir] and [toolPackageDir], [config] and [settingsConfig]
    were assigned and before a new [MenuController] is, or thrown by
    one of the other two methods with nothing assigned; or a package
    loaded and an exception thrown by the [addToolPackage] that
    follows.  What the flow writes and reads on the terminal is left
    out. *)
Inductive PackageOutcome :=
| PackageNone
| PackageRejected
| PackageLoaded (newConfig : Config) (newSettings : SettingsConfig)
    (newConfigDir newToolPackageDir : string)
| PackageThrows (message : string) (newDirs : option (string * string))
    (newConfig : option Config) (newSettings : option SettingsConfig)
| PackageAddThrows (newConfig : Config) (newSettings : SettingsConfig)
    (newConfigDir newToolPackageDir : string) (message : string).

(** The world of a run: what [os.arch()] returns; whether
    [process.stdin.setRawMode] is available; arch_picker.json, parsed, or
    the message of the error reading it; the lines the operator types,
    the chunks of keystrokes the operator presses, the outcomes of the
    calls of spawn and of the package selection flows, each in the
    order of their use; and what was written so far. *)
Record World := {
  osArch : string;
  rawModeAvailable : bool;
  archPickerFile : string + PickerConfig;
  lines : list string;
  keys : list string;
  children : list ChildOutcome;
  packages : list PackageOutcome;
  output : list Event
}.

Definition withLines (l : list string) (w : World) : World :=
  {| osArch := osArch w; rawModeAvailable := rawModeAvailable w;
     archPickerFile := archPickerFile w; lines := l; keys := keys w;
     children := children w; packages := packages w; output := output w |}.

Definition withKeys (k : list string) (w : World) : World :=
  {| osArch := osArch w; rawModeAvailable := rawModeAvailable w;
     archPickerFile := archPickerFile w; lines := lines w; keys := k;
     children := children w; packages := packages w; output := output w |}.

Definition withChildren (c : list ChildOutcome) (w : World) : World :=
  {| osArch := osArch w; rawModeAvailable := rawModeAvailable w;
     archPickerFile := archPickerFile w; lines := lines w; keys := keys w;
     children := c; packages := packages w; output := output w |}.

Definition withPackages (p : list PackageOutcome) (w : World) : World :=
  {| osArch := osArch w; rawModeAvailable := rawModeAvailable w;
     archPickerFile := archPickerFile w; lines := lines w; keys := keys w;
     children := children w; packages := p; output := output w |}.

Definition withOutput (o : list Event) (w : World) : World :=
  {| osArch := osArch w; rawModeAvailable := rawModeAvailable w;
     archPickerFile := archPickerFile w; lines := lines w; keys := keys w;
     children := children w; packages := packages w; output := o |}.

(** ** The program state *)

Record MenuController := {
  mc_config : Config;
  menuStack : list string;
  mc_settingsConfig : option SettingsConfig
}.

Record ApplicationController := {
  config : Config;
  settingsConfig : SettingsConfig;
  menuController : MenuController;
  configDir : string;
  toolPackageDir : string
}.

Definition withMenuStack (s : list string) (mc : MenuController) : MenuController :=
  {| mc_config := mc_config mc; menuStack := s;
     mc_settingsConfig := mc_settingsConfig mc |}.

Definition withMenuController (mc : MenuController) (app : ApplicationController)
  : ApplicationController :=
  {| config := config app; settingsConfig := settingsConfig app;
     menuController := mc; configDir := configDir app;
     toolPackageDir := toolPackageDir app |}.

(** ** The monad of asynchronous methods

    A method runs on the controller and the world and ends in one of
    four ways: it returns, it throws an [Error] with a message, it waits
    for input that never comes, or an exception escapes from an event
    handler and ends the process. *)

Inductive Outcome (A : Type) :=
| Returned (a : A)
| Thrown (message : string)
| Blocked
| Crashed.

Arguments Returned {A} a.
Arguments Thrown {A} message.
Arguments Blocked {A}.
Arguments Crashed {A}.

Definition M (A : Type) : Type :=
  ApplicationController → World → Outcome A * ApplicationController * World.

Definition ret {A} (a : A) : M A := λ app w, (Returned a, app, w).

Definition bind {A B} (m : M A) (k : A → M B) : M B :=
  λ app w,
    match m app w with
    | (Returned a, app', w') => k a app' w'
    | (Thrown msg, app', w') => (Thrown msg, app', w')
    | (Blocked, app', w') => (Blocked, app', w')
    | (Crashed, app', w') => (Crashed, app', w')
    end.

Notation "'do' x <- c1 ; c2" := (bind c1 (fun x => c2))
  (at level 10, x name, c1 at level 100, c2 at level 200,
   format "'[v' 'do'  x  <-  c1 ; '/' c2 ']'").
Notation "'run' c1 ; c2" := (bind c1 (fun _ => c2))
  (at level 10, c1 at level 100, c2 at level 200,
   format "'[v' 'run'  c1 ; '/' c2 ']'").

Definition throw {A} (message : string) : M A := λ app w, (Thrown message, app, w).

Definition blocked {A} : M A := λ app w, (Blocked, app, w).

Definition crash {A} : M A := λ app w, (Crashed, app, w).

(** [try { body } catch (error) { handler(error.message) }] *)
Definition tryCatch {A} (body : M A) (handler : string → M A) : M A :=
  λ app w,
    match body app w with
    | (Thrown msg, app', w') => handler msg app' w'
    | r => r
    end.

Definition getApp : M ApplicationController := λ app w, (Returned app, app, w).

Definition getWorld : M World := λ app w, (Returned w, app, w).

Definition putApp (app' : ApplicationController) : M unit :=
  λ _ w, (Returned tt, app', w).

Definition emit (e : Event) : M unit :=
  λ app w, (Returned tt, app, withOutput (output w ++ [e]) w).

Definition readLine : M string :=
  λ app w,
    match lines w with
    | l :: rest => (Returned l, app, withLines rest w)
    | [] => (Blocked, app, w)
    end.

Definition readKey : M string :=
  λ app w,
    match keys w with
    | k :: rest => (Returned k, app, withKeys rest w)
    | [] => (Blocked, app, w)
    end.

Definition nextChild : M ChildOutcome :=
  λ app w,
    match children w with
    | c :: rest => (Returned c, app, withChildren rest w)
    | [] => (Blocked, app, w)
    end.

Definition nextPackage : M PackageOutcome :=
  λ app w,
    match packages w with
    | p :: rest => (Returned p, app, withPackages rest w)
    | [] => (Blocked, app, w)
    end.

Definition consoleLog (text : string) : M unit := emit (ConsoleLog text).

(** [rl.question(prompt, callback)]: the prompt is written and the
    callback gets the next line. *)
Definition question (prompt : string) : M string :=
  run emit (Question prompt);
  readLine.

(** ** uiHandler.js *)

Module UIHandler.

Definition waitForEnter : M unit :=
  run question (Js.green "按Enter键继续...");
  ret tt.

Definition waitForEnterReturnMenu : M unit :=
  run question (Js.green "按Enter键返回菜单...");
  ret tt.

Definition keyUp : string := Js.esc +:+ "[A".
Definition keyDown : string := Js.esc +:+ "[B".
Definition keyRight : string := Js.esc +:+ "[C".
Definition keyLeft : string := Js.esc +:+ "[D".
Definition keyReturn : string := Js.fromBytes [13%nat].
Definition keyNewline : string := Js.fromBytes [10%nat].

(** Leaving raw mode before a result is resolved:
    [process.stdin.setRawMode(false); rl.close(); removeListener]. *)
Definition release : M unit := emit (SetRawMode false).

(** The [onKeyPress] handler of [selectWithArrowKeys], run on the
    keystrokes to come; [fuel] bounds their number.  [menuItems] are the
    [id] and [name] of the items.  The remainder is the [%] of
    JavaScript; on an empty menu it is NaN there and [Enter] finds no
    item at any index, here as there. *)
Fixpoint onKeyPress (fuel : nat) (menuItems : list (Z * string)) (menuTitle : string)
    (selectedIndex : Z) : M Choice :=
  match fuel with
  | O => blocked
  | S fuel' =>
      do input <- readKey;
      let len := Z.of_nat (length menuItems) in
      if (input =? keyUp)%string then
        let selectedIndex := Z.rem (selectedIndex - 1 + len) len in
        run emit (RenderMenu menuTitle selectedIndex);
        onKeyPress fuel' menuItems menuTitle selectedIndex
      else if (input =? keyDown)%string then
        let selectedIndex := Z.rem (selectedIndex + 1) len in
        run emit (RenderMenu menuTitle selectedIndex);
        onKeyPress fuel' menuItems menuTitle selectedIndex
      else if (input =? keyLeft)%string then
        run release;
        ret (ChoiceStr "q")
      else if (input =? keyRight)%string then
        run release;
        ret (ChoiceStr "m")
      else if (Js.toLowerCase input =? "p")%string then
        run release;
        ret (ChoiceStr "p")
      else if (input =? keyReturn)%string || (input =? keyNewline)%string then
        run release;
        match menuItems !! Z.to_nat selectedIndex with
        | Some item => ret (ChoiceNum (fst item))
        | None => crash
        end
      else onKeyPress fuel' menuItems menuTitle selectedIndex
  end.

Definition selectWithArrowKeys (menuItems : list (Z * string)) (menuTitle : string)
  : M Choice :=
  do w <- getWorld;
  if negb (rawModeAvailable w) then
    do answer <- question "请输入选项编号: ";
    match Js.parseInt answer with
    | None =>
        if (Js.toLowerCase answer =? "t")%string then ret (ChoiceStr "t")
        else ret ChoiceNull
    | Some choice => ret (ChoiceNum choice)
    end
  else
    run emit (SetRawMode true);
    run emit (SetRawMode true);
    run emit (RenderMenu menuTitle 0);
    onKeyPress (S (length (keys w))) menuItems menuTitle 0.

Definition clearScreen : string := Js.esc +:+ "[2J" +:+ Js.esc +:+ "[0;0H".

(** [architecturePickerWithArrows]; it calls itself again when nothing
    was selected, and each call reads at least one key or line, which
    bounds [fuel]. *)
Fixpoint architecturePickerWithArrows (fuel : nat) : M (option string) :=
  match fuel with
  | O => blocked
  | S fuel' =>
      do w <- getWorld;
      match archPickerFile w with
      | inl message =>
          run emit (ConsoleError (Js.red "配置文件不存在，请检查软件配置！"));
          throw message
      | inr pickerConfig =>
          run emit (StdoutWrite clearScreen);
          let menuItems :=
            map (λ o, (option_id o, display o)) (options pickerConfig) in
          do selectedId <- selectWithArrowKeys menuItems (picker_title pickerConfig);
          if choiceTruthy selectedId && negb (choiceIs selectedId "q")
             && negb (choiceIs selectedId "m") && negb (choiceIs selectedId "t") then
            match List.find (λ o, idIs (option_id o) selectedId) (options pickerConfig) with
            | Some selectedOption => ret (value selectedOption)
            | None => architecturePickerWithArrows fuel'
            end
          else if choiceIs selectedId "q" then throw "BACK_TO_PARENT_MENU"
          else if choiceIs selectedId "m" then throw "BACK_TO_MAIN_MENU"
          else if choiceIs selectedId "p" then throw "BACK_TO_PARENT_MENU"
          else architecturePickerWithArrows fuel'
      end
  end.

(** [this.architecturePickerWithNumbers(configDir, settingsConfig)]:
    [UIHandler] has no method of this name, so the call is a call of
    [undefined] and throws a TypeError. *)
Definition architecturePickerWithNumbers : M (option string) :=
  throw "this.architecturePickerWithNumbers is not a function".

Definition architecturePicker (settingsConfig : SettingsConfig) : M (option string) :=
  let inputMethod := inputMethodOf (Some settingsConfig) in
  if (inputMethod =? "arrow_input")%string then
    do w <- getWorld;
    architecturePickerWithArrows (S (length (keys w) + length (lines w)))
  else
    architecturePickerWithNumbers.

End UIHandler.

(** ** toolExecutor.js *)

(** [toolPath[key]], read from the entries of the object, in the order
    of their declaration.  The keys of the sources are architecture
    tags.  For a key of [Js.objectPrototypeNames] that the object does
    not have, JavaScript finds the inherited function instead; the
    properties of the resolution are stated for the other keys. *)
Definition getProperty (entries : list (string * string)) (key : string) : option string :=
  snd <$> List.find (λ kv, (fst kv =? key)%string) entries.

(** [Object.values(toolPath)] *)
Definition objectValues (entries : list (string * string)) : list string :=
  map snd entries.

(** The path [executeTool] resolves for the architecture in use:
    [toolPath[architecture] || toolPath['X86_64'] || Object.values(toolPath)[0]]
    for an object, the string itself otherwise. *)
Definition resolvePath (toolPath : ToolPath) (architecture : string) : option string :=
  match toolPath with
  | PathObject entries =>
      Js.or (Js.or (getProperty entries architecture) (getProperty entries "X86_64"))
            (head (objectValues entries))
  | PathString s => Some s
  end.

Definition showCode (code : option Z) : string :=
  match code with
  | Some c => pretty c
  | None => "null"
  end.

Definition codeIsZero (code : option Z) : bool :=
  match code with
  | Some c => c =? 0
  | None => false
  end.

(** [executeTool(toolPath, arch, toolPackageDir)].  The promise awaited
    is settled by the first of the two handlers to run: close resolves
    it; error rejects it, and the close that follows still writes its
    line before the catch block runs. *)
Definition executeTool (toolPath : ToolPath) (arch : option string)
    (toolPackageDir : option string) : M unit :=
  do w <- getWorld;
  let architecture := Js.orString arch (getSystemArchitecture (osArch w)) in
  let resolvedPath := resolvePath toolPath architecture in
  run tryCatch
        (run consoleLog
               (Js.yellow ("正在运行命令 (" +:+ architecture +:+ "): "
                           +:+ Js.show resolvedPath));
         let cwd := if Js.truthy toolPackageDir then toolPackageDir else None in
         run emit (Spawn resolvedPath cwd);
         do child <- nextChild;
         match child with
         | ChildClose code =>
             if negb (codeIsZero code) then
               consoleLog (Js.red ("命令执行结束，返回码：" +:+ showCode code))
             else
               consoleLog (Js.green "命令执行完成")
         | ChildError message code =>
             run consoleLog (Js.red ("执行命令时出错：" +:+ message));
             run (if negb (codeIsZero code) then
                    consoleLog (Js.red ("命令执行结束，返回码：" +:+ showCode code))
                  else
                    consoleLog (Js.green "命令执行完成"));
             throw message
         | SpawnThrows message => throw message
         end)
        (λ message, consoleLog (Js.red ("执行命令时出错：" +:+ message)));
  UIHandler.waitForEnterReturnMenu.

(** ** The menu engines *)

(** What [config.menu[name]] is for a name that is no menu id of the
    tree but a property of [Object.prototype]: a function or an object
    that has no [items], [title] or [parent]. *)
Definition inheritedMember : Menu :=
  {| title := ""; parent := None; items := None |}.

(** [config.menu[menuId]]; an [undefined] id reads the key of that name.
    The menus of the tree come first; a name the tree does not have is
    looked up in [Object.prototype]. *)
Definition lookupMenu (cfg : Config) (menuId : option string) : option Menu :=
  match menu cfg !! Js.show menuId with
  | Some m => Some m
  | None =>
      if Js.includes Js.objectPrototypeNames (Js.show menuId) then
        Some inheritedMember
      else None
  end.

Module ArrowMenuEngine.

Definition getMenuItem (cfg : Config) (menuId : option string) (choice : Choice)
  : option MenuItem :=
  match lookupMenu cfg menuId with
  | None => None
  | Some m =>
      match items m with
      | None => None
      | Some its => List.find (λ item, idIs (id item) choice) its
      end
  end.

Definition displayInteractiveMenu (cfg : Config) (menuId : option string) : M Choice :=
  match lookupMenu cfg menuId with
  | None =>
      run consoleLog (Js.red ("菜单不存在: " +:+ Js.show menuId));
      ret ChoiceNull
  | Some m =>
      match items m with
      | None =>
          run consoleLog (Js.red "菜单项不存在或格式错误");
          ret ChoiceNull
      | Some its =>
          UIHandler.selectWithArrowKeys (map (λ item, (id item, label item)) its) (title m)
      end
  end.

End ArrowMenuEngine.

Module NumMenuEngine.

(** Modelled from the spec: [NumMenuEngine.getMenuItem] of menuEngine.js,
    which is not among the sources.  Spec 3 and 4.1: a selection is the
    id of a MenuItem of the current menu; an id with no matching
    MenuItem in the current menu is an invalid selection.
    [MenuController.getMenuItem] documents the result as the item, or
    [null] when none is found. *)
Definition getMenuItem (cfg : Config) (menuId : option string) (choice : Choice)
  : option MenuItem :=
  match lookupMenu cfg menuId with
  | None => None
  | Some m =>
      match items m with
      | None => None
      | Some its => List.find (λ item, idIs (id item) choice) its
      end
  end.

(** Modelled from the spec: [NumMenuEngine.displayMenu] of menuEngine.js,
    which is not among the sources.  Spec 4.2: the numeric strategy
    renders the menu items as a numbered list; the rendering is one
    event. *)
Definition displayMenu (menuId : option string) : M unit :=
  emit (DisplayMenu menuId).

End NumMenuEngine.

(** ** menuController.js *)

(** [new MenuController(config, configDir)] *)
Definition newMenuController (cfg : Config) : MenuController :=
  {| mc_config := cfg; menuStack := ["main"]; mc_settingsConfig := None |}.

(** [menuStack[menuStack.length - 1]] *)
Definition getCurrentMenu (mc : MenuController) : option string :=
  last (menuStack mc).

Definition setCurrentMenu (menuId : string) (mc : MenuController) : MenuController :=
  withMenuStack (menuStack mc ++ [menuId]) mc.

Definition goBack (mc : MenuController) : bool * MenuController :=
  if (1 <? length (menuStack mc))%nat then
    (true, withMenuStack (removelast (menuStack mc)) mc)
  else
    (false, mc).

Definition goToMainMenu (mc : MenuController) : MenuController :=
  withMenuStack ["main"] mc.

Definition getMenuItem (mc : MenuController) (menuId : option string) (choice : Choice)
  : option MenuItem :=
  let inputMethod := inputMethodOf (mc_settingsConfig mc) in
  if (inputMethod =? "arrow_input")%string then
    ArrowMenuEngine.getMenuItem (mc_config mc) menuId choice
  else
    NumMenuEngine.getMenuItem (mc_config mc) menuId choice.

Definition setSettingsConfig (sc : SettingsConfig) (mc : MenuController) : MenuController :=
  {| mc_config := mc_config mc; menuStack := menuStack mc;
     mc_settingsConfig := Some sc |}.

Definition handleNavigationCommand (command : string) (mc : MenuController)
  : bool * MenuController :=
  if (Js.toLowerCase command =? "b")%string then
    let '(went, mc') := goBack mc in
    if went then (true, mc')
    else (true, goToMainMenu mc')
  else if (Js.toLowerCase command =? "m")%string then
    (true, goToMainMenu mc)
  else if (Js.toLowerCase command =? "p")%string then
    (false, mc)
  else
    (false, mc).

Definition getMenuDepth (mc : MenuController) : nat := length (menuStack mc).

Definition getMenuPath (mc : MenuController) : list string := menuStack mc.

(** ** applicationController.js *)

(** A method of the menu controller called on [this.menuController]. *)
Definition onMenuController {A} (f : MenuController → A * MenuController) : M A :=
  λ app w,
    let '(a, mc) := f (menuController app) in
    (Returned a, withMenuController mc app, w).

Definition displayCurrentMenu : M unit :=
  do app <- getApp;
  NumMenuEngine.displayMenu (getCurrentMenu (menuController app)).

Definition displayInteractiveCurrentMenu : M Choice :=
  do app <- getApp;
  ArrowMenuEngine.displayInteractiveMenu
    (mc_config (menuController app)) (getCurrentMenu (menuController app)).

(** How the try block around the architecture picker is left. *)
Inductive PickerExit :=
| UseArchitecture (arch : string)
| ReturnNull.

Definition archPickerEnabled (sc : SettingsConfig) : bool :=
  match settings sc with
  | Some s => arch_picker s
  | None => false
  end.

Definition handleUserChoice (choice : Choice) : M unit :=
  do app <- getApp;
  let mc := menuController app in
  match getMenuItem mc (getCurrentMenu mc) choice with
  | None =>
      run consoleLog (Js.red "无效的选择！");
      UIHandler.waitForEnter
  | Some menuItem =>
      match kind menuItem with
      | Submenu submenu =>
          onMenuController (λ mc, (tt, setCurrentMenu submenu mc))
      | Executable path =>
          do w <- getWorld;
          let selectedArch := getSystemArchitecture (osArch w) in
          do exit <-
            (if archPickerEnabled (settingsConfig app) then
               tryCatch
                 (do userChoice <- UIHandler.architecturePicker (settingsConfig app);
                  ret (UseArchitecture (Js.orString userChoice selectedArch)))
                 (λ message,
                    if (message =? "BACK_TO_PARENT_MENU")%string then
                      ret ReturnNull
                    else if (message =? "BACK_TO_MAIN_MENU")%string then
                      run onMenuController (λ mc, (tt, goToMainMenu mc));
                      ret ReturnNull
                    else
                      throw message)
             else ret (UseArchitecture selectedArch));
          match exit with
          | ReturnNull => ret tt
          | UseArchitecture arch =>
              executeTool path (Some arch) (Some (toolPackageDir app))
          end
      | Back =>
          run onMenuController goBack;
          ret tt
      | Main =>
          onMenuController (λ mc, (tt, goToMainMenu mc))
      | OtherType _ =>
          run consoleLog (Js.red "未知的菜单项类型！");
          UIHandler.waitForEnter
      end
  end.

(** The p command: [showToolPackageSelector], and for a selected path
    [switchToToolPackage] (which, on success, installs the new
    configuration and a new [MenuController]) and [addToolPackage]. *)
Definition switchToolPackage : M unit :=
  do p <- nextPackage;
  do app <- getApp;
  match p with
  | PackageNone => ret tt
  | PackageRejected => ret tt
  | PackageLoaded newConfig newSettings newConfigDir newToolPackageDir =>
      putApp {| config := newConfig; settingsConfig := newSettings;
                menuController := newMenuController newConfig;
                configDir := newConfigDir;
                toolPackageDir := newToolPackageDir |}
  | PackageThrows message newDirs newConfig newSettings =>
      run putApp {| config := default (config app) newConfig;
                    settingsConfig := default (settingsConfig app) newSettings;
                    menuController := menuController app;
                    configDir := default (configDir app) (fst <$> newDirs);
                    toolPackageDir := default (toolPackageDir app) (snd <$> newDirs) |};
      throw message
  | PackageAddThrows newConfig newSettings newConfigDir newToolPackageDir message =>
      run putApp {| config := newConfig; settingsConfig := newSettings;
                    menuController := newMenuController newConfig;
                    configDir := newConfigDir;
                    toolPackageDir := newToolPackageDir |};
      throw message
  end.

(** The prompt of the numeric strategy and the trimmed answer:
    [input ? input.trim() : ""]. *)
Definition promptAnswer (sc : SettingsConfig) : M string :=
  let arrowIndicator :=
    match settings sc with
    | Some s => arrow_indicator s
    | None => None
    end in
  do input <-
    (if Js.truthy arrowIndicator then
       question (Js.fromBytes [10%nat] +:+ Js.show arrowIndicator +:+ " ")
     else question "");
  ret (if (input =? "")%string then "" else Js.trim input).

(** One turn of the [while (true)] loop of [showCurrentMenu]; [continue]
    is a return from the turn. *)
Definition showCurrentMenuTurn : M unit :=
  tryCatch
    (do app <- getApp;
     let inputMethod := inputMethodOf (Some (settingsConfig app)) in
     if (inputMethod =? "num_input")%string then
       run displayCurrentMenu;
       do answer <- promptAnswer (settingsConfig app);
       do handled <- onMenuController (handleNavigationCommand answer);
       if handled then ret tt
       else if (Js.toLowerCase answer =? "p")%string then switchToolPackage
       else if (answer =? "")%string then
         run consoleLog (Js.red "输入不能为空！");
         UIHandler.waitForEnter
       else
         match Js.parseInt answer with
         | None =>
             run consoleLog (Js.red "输入无效，请输入一个数字！");
             UIHandler.waitForEnter
         | Some userChoice => handleUserChoice (ChoiceNum userChoice)
         end
     else
       do userChoice <- displayInteractiveCurrentMenu;
       if choiceIs userChoice "q" then
         run onMenuController goBack;
         ret tt
       else if choiceIs userChoice "m" then
         onMenuController (λ mc, (tt, goToMainMenu mc))
       else if choiceIs userChoice "p" then switchToolPackage
       else if negb (choiceTruthy userChoice) then
         run consoleLog (Js.red "输入不能为空！");
         UIHandler.waitForEnter
       else handleUserChoice userChoice)
    (λ message,
       run consoleLog (Js.red ("发生错误: " +:+ message));
       UIHandler.waitForEnter).

(** The loop of [showCurrentMenu], observed for a number of turns (the
    banner printed before the loop is left out). *)
Fixpoint showCurrentMenu (turns : nat) : M unit :=
  match turns with
  | O => ret tt
  | S n =>
      run showCurrentMenuTurn;
      showCurrentMenu n
  end.

(** The controller after [initializeConfig]. *)
Definition initialController (cfg : Config) (sc : SettingsConfig)
    (dir packageDir : string) : ApplicationController :=
  {| config := cfg; settingsConfig := sc;
     menuController := setSettingsConfig sc (newMenuController cfg);
     configDir := dir; toolPackageDir := packageDir |}.

(** ** Notions the properties are stated with *)

(** The controller and the world a computation ends with. *)
Definition appAfter {A} (r : Outcome A * ApplicationController * World)
  : ApplicationController := snd (fst r).

Definition worldAfter {A} (r : Outcome A * ApplicationController * World)
  : World := snd r.

Definition outcomeOf {A} (r : Outcome A * ApplicationController * World)
  : Outcome A := fst (fst r).

Definition stackOf (app : ApplicationController) : list string :=
  menuStack (menuController app).

(** A NavigationStack: not empty, with the root menu id at the bottom. *)
Definition isNavigationStack (s : list string) : Prop :=
  s ≠ [] ∧ head s = Some "main".

(** The three mutations of the stack. *)
Inductive navStep : list string → list string → Prop :=
| nav_push s menuId : navStep s (s ++ [menuId])
| nav_pop s : (1 < length s)%nat → navStep s (removelast s)
| nav_reset s : navStep s ["main"].

(** The navigation operations, run by the methods of the controller. *)
Inductive NavigationOp :=
| EnterSubmenu (menuId : string)
| GoBack
| GoHome.

Definition applyOp (mc : MenuController) (op : NavigationOp) : MenuController :=
  match op with
  | EnterSubmenu menuId => setCurrentMenu menuId mc
  | GoBack => snd (goBack mc)
  | GoHome => goToMainMenu mc
  end.

(** An entry of the mapping that is present and not the empty string. *)
Definition nonEmptyEntry (entries : list (string * string)) (key : string)
  : option string :=
  match getProperty entries key with
  | Some p => if (p =? "")%string then None else Some p
  | None => None
  end.

(** Path resolution as the spec words it: the entry of the requested tag
    if present, otherwise the X86_64 entry if present, otherwise the
    first-declared entry. *)
Definition resolveByPresence (entries : list (string * string)) (tag : string)
  : option string :=
  match getProperty entries tag with
  | Some p => Some p
  | None =>
      match getProperty entries "X86_64" with
      | Some p => Some p
      | None => head (objectValues entries)
      end
  end.

(** The mapping without the entry of a key. *)
Definition withoutEntry (key : string) (entries : list (string * string))
  : list (string * string) :=
  filter (λ kv, fst kv ≠ key) entries.

(** The text of the prompt of the numeric strategy. *)
Definition numericPrompt (sc : SettingsConfig) : string :=
  let arrowIndicator :=
    match settings sc with
    | Some s => arrow_indicator s
    | None => None
    end in
  if Js.truthy arrowIndicator then
    Js.fromBytes [10%nat] +:+ Js.show arrowIndicator +:+ " "
  else "".

(** The answer the numeric strategy works with, for a line typed. *)
Definition answerOf (line : string) : string :=
  if (line =? "")%string then "" else Js.trim line.

(** The messages of the three input errors of the numeric strategy. *)
Definition EmptyInput : Event := ConsoleLog (Js.red "输入不能为空！").
Definition InvalidSelection : Event := ConsoleLog (Js.red "无效的选择！").

Definition pressEnter : Event := Question (Js.green "按Enter键继续...").
Definition pressEnterReturnMenu : Event := Question (Js.green "按Enter键返回菜单...").


(** The calls of [spawn] seen in the world, in their order: the
    launches the tool executor asks for (a call may still throw). *)
Definition isSpawn (e : Event) : bool :=
  match e with
  | Spawn _ _ => true
  | _ => false
  end.

Definition spawned (w : World) : list Event := List.filter isSpawn (output w).

(** A computation that makes no call of [spawn]. *)
Definition launchesNothing {A} (m : M A) : Prop :=
  ∀ app w, spawned (worldAfter (m app w)) = spawned w.

(** A computation that leaves the controller as it found it. *)
Definition keepsApp {A} (m : M A) : Prop :=
  ∀ app w, appAfter (m app w) = app.

(** The turn of the numeric strategy up to the dispatch on the answer:
    the menu is drawn, the prompt is written, a line is read. *)
Definition afterPrompt (app : ApplicationController) (w : World) (rest : list string)
  : World :=
  withLines rest
    (withOutput
       (output w ++
          [DisplayMenu (getCurrentMenu (menuController app));
           Question (numericPrompt (settingsConfig app))])
       w).

(** The controller a computation ends with has a stack reached from the
    one it started with by pushes, pops and resets only. *)
Definition viaNavSteps {A} (m : M A) : Prop :=
  ∀ app w, rtc navStep (stackOf app) (stackOf (appAfter (m app w))).

(** What back does to a stack [s], giving [s']: at depth two or more
    the top is gone and the rest is as it was; at depth one nothing
    changes. *)
Definition backEffect (s s' : list string) : Prop :=
  ((2 ≤ length s)%nat → ∃ top : string, s = (s' ++ [top])%list)
  ∧ (length s = 1%nat → s' = s).



(** ** A small tool package for the examples

    The menu tree of the end-to-end scenario of the spec: the main menu
    with the submenu gpu, which holds the tool furmark and a back item;
    and a main menu whose submenu is missing from the tree. *)

Definition gpuItem : MenuItem :=
  {| id := 1; label := "GPU"; kind := Submenu "gpu" |}.

Definition mainMenu : Menu :=
  {| title := "Main"; parent := None; items := Some [gpuItem] |}.

Definition gpuMenu : Menu :=
  {| title := "GPU"; parent := Some "main";
     items :=
       Some [ {| id := 1; label := "FurMark";
                 kind := Executable (PathString "furmark") |};
              {| id := 2; label := "Back"; kind := Back |} ] |}.

Definition gpuMenus : Config :=
  {| menu := {[ "main" := mainMenu; "gpu" := gpuMenu ]} |}.

Definition brokenMenus : Config :=
  {| menu := {[ "main" := mainMenu ]} |}.

Definition settingsWith (method : option string) (picker : bool) : SettingsConfig :=
  {| settings :=
       Some {| input_method := method; display_clear := true;
               arch_picker := picker; arrow_indicator := None |} |}.

Definition exampleApp (cfg : Config) (method : option string) (picker : bool)
    (stack : list string) : ApplicationController :=
  {| config := cfg; settingsConfig := settingsWith method picker;
     menuController :=
       {| mc_config := cfg; menuStack := stack;
          mc_settingsConfig := Some (settingsWith method picker) |};
     configDir := "/tools/config"; toolPackageDir := "/tools" |}.

Definition exampleWorld (typed : list string) (pressed : list string)
    (spawned : list ChildOutcome) : World :=
  {| osArch := "x64"; rawModeAvailable := true;
     archPickerFile :=
       inr {| picker_title := "Architecture";
              options := [ {| option_id := 1; display := "x86_64";
                              value := Some "X86_64" |};
                           {| option_id := 2; display := "arm64";
                              value := Some "ARM64" |} ] |};
     lines := typed; keys := pressed; children := spawned;
     packages := []; output := [] |}.

(** What the close handler writes for a code. *)
Definition closeReport (code : option Z) : Event :=
  if codeIsZero code then ConsoleLog (Js.green "命令执行完成")
  else ConsoleLog (Js.red ("命令执行结束，返回码：" +:+ showCode code)).

(** What the executor writes about the end of a child: the line of the
    close handler for a child that closed; for a spawn that failed, the
    error written by the error handler, the line of the close handler
    that follows it, and the error again, written by the catch block;
    for a call of spawn that threw, the error written by the catch
    block. *)
Definition childReport (child : ChildOutcome) : list Event :=
  match child with
  | ChildClose code => [closeReport code]
  | ChildError message code =>
      [ConsoleLog (Js.red ("执行命令时出错：" +:+ message));
       closeReport code;
       ConsoleLog (Js.red ("执行命令时出错：" +:+ message))]
  | SpawnThrows message =>
      [ConsoleLog (Js.red ("执行命令时出错：" +:+ message))]
  end.

(** The command line the executor shows before it spawns. *)
Definition runningLine (architecture : string) (resolvedPath : option string) : Event :=
  ConsoleLog
    (Js.yellow ("正在运行命令 (" +:+ architecture +:+ "): " +:+ Js.show resolvedPath)).

(** A key that does not end the arrow-key selection: it moves the cursor
    (up, down) or is ignored. *)
Definition movesCursor (key : string) : bool :=
  negb ((key =? UIHandler.keyLeft)%string
        || (key =? UIHandler.keyRight)%string
        || (Js.toLowerCase key =? "p")%string
        || (key =? UIHandler.keyReturn)%string
        || (key =? UIHandler.keyNewline)%string).

(** A list of events without a launch. *)
Definition noLaunch (events : list Event) : Prop :=
  List.filter isSpawn events = [].

(** The keys that end the arrow-key selection with a command, each with
    the string the selection resolves for it: the left arrow gives q,
    the right arrow gives m. *)
Inductive commandKey : string → string → Prop :=
| left_arrow_q : commandKey UIHandler.keyLeft "q"
| right_arrow_m : commandKey UIHandler.keyRight "m".

(** A computation that only adds to what was written. *)
Definition extendsOutput {A} (m : M A) : Prop :=
  ∀ app w, ∃ more : list Event,
    output (worldAfter (m app w)) = (output w ++ more)%list.

(** ** Further notions: the cursor, raw mode, exceptions *)

(** What one key that does not end the selection does to the cursor of
    [onKeyPress] on a menu of [len] items. *)
Definition moveCursor (len : Z) (selectedIndex : Z) (key : string) : Z :=
  if (key =? UIHandler.keyUp)%string then Z.rem (selectedIndex - 1 + len) len
  else if (key =? UIHandler.keyDown)%string then Z.rem (selectedIndex + 1) len
  else selectedIndex.

Definition cursorAfter (len : Z) (moves : list string) (selectedIndex : Z) : Z :=
  foldl (moveCursor len) selectedIndex moves.

(** Raw mode was switched off by the last thing written. *)
Definition released {A} (r : Outcome A * ApplicationController * World) : Prop :=
  last (output (worldAfter r)) = Some (SetRawMode false).

(** A computation that never ends by throwing. *)
Definition neverThrows {A} (m : M A) : Prop :=
  ∀ app w message, outcomeOf (m app w) ≠ Thrown message.

(** A run that either still waits for input or has ended, with a result
    or by an exception of a handler, with raw mode switched off last. *)
Definition endsReleased {A} (r : Outcome A * ApplicationController * World) : Prop :=
  outcomeOf r = Blocked
  ∨ (released r ∧ (outcomeOf r = Crashed ∨ ∃ a, outcomeOf r = Returned a)).

(** The part of [handleUserChoice] on an executable item that comes
    before the executor: the architecture picker, when enabled, and the
    handling of what it throws. *)
Definition pickerExit (app : ApplicationController) (selectedArch : string)
  : M PickerExit :=
  if archPickerEnabled (settingsConfig app) then
    tryCatch
      (do userChoice <- UIHandler.architecturePicker (settingsConfig app);
       ret (UseArchitecture (Js.orString userChoice selectedArch)))
      (λ message,
         if (message =? "BACK_TO_PARENT_MENU")%string then
           ret ReturnNull
         else if (message =? "BACK_TO_MAIN_MENU")%string then
           run onMenuController (λ mc, (tt, goToMainMenu mc));
           ret ReturnNull
         else
           throw message)
  else ret (UseArchitecture selectedArch).

(** A key that an object read from JSON has only as an entry of its
    own: none of the names every object inherits. *)
Definition ownKey (key : string) : Prop :=
  Js.includes Js.objectPrototypeNames key = false.

(** ** configHandler.js *)

Module ConfigHandler.

(** What [fs.readFileSync(jsonPath, 'utf8')] gives: the text of the
    file, or an error with its [code] and [message]. *)
Inductive ReadResult :=
| FileData (data : string)
| FileError (code : option string) (message : string).

(** U+FEFF, the byte order mark, in UTF-8. *)
Definition bom : string := Js.fromBytes [239; 187; 191]%nat.

(** [data.replace(/^\uFEFF/, '')]: one mark at the start is removed. *)
Definition stripBom (data : string) : string :=
  default data (Js.stripPrefix bom data).

Section LoadJson.

(** The configuration values, and [JSON.parse]: the value, or the
    message of the [SyntaxError] it throws. *)
Context {A : Type} (parse : string → string + A).

(** [loadJson()]: the configuration, or the message of the [Error]
    thrown. *)
Definition loadJson (jsonPath : string) (file : ReadResult) : string + A :=
  match file with
  | FileData data =>
      let cleanData := stripBom data in
      match parse cleanData with
      | inr jsonData => inr jsonData
      | inl message => inl ("JSON解析错误: " +:+ message)
      end
  | FileError code message =>
      if bool_decide (code = Some "ENOENT") then
        inl ("配置文件未找到: " +:+ jsonPath)
      else
        inl ("读取配置文件时出错: " +:+ message)
  end.

End LoadJson.

End ConfigHandler.

(** ** The tool packages (applicationController.js) *)

Module Packages.

(** An entry of tool_packages.json. *)
Record ToolPackage := {
  path : string;
  name : string;
  added : string
}.

(** The [app] section of a settings.json as [getToolPackageInfo] reads
    it ([app?.name], [app?.version]), or the message of the error of
    reading or parsing the file. *)
Inductive SettingsFile :=
| SettingsApp (appName appVersion : option string)
| SettingsUnreadable (message : string).

(** What the package methods take from the host: [fs.existsSync], the
    settings.json at a path, and the functions of [path] they call. *)
Record Host := {
  existsSync : string → bool;
  readSettings : string → SettingsFile;
  join : string → string → string;
  dirname : string → string;
  basename : string → string;
  resolve : string → string
}.

Definition getToolPackageRootPath (h : Host) (packagePath : string) : string :=
  if existsSync h (join h packagePath "menu.json") then
    dirname h packagePath
  else
    let configPath := join h packagePath "config" in
    if existsSync h (join h configPath "menu.json") then packagePath
    else packagePath.

(** [Array.prototype.findIndex]; [None] is -1. *)
Fixpoint findIndex {A} (f : A → bool) (l : list A) : option nat :=
  match l with
  | [] => None
  | x :: rest => if f x then Some 0%nat else S <$> findIndex f rest
  end.

(** [packages[existingIndex].name = name] on one entry. *)
Definition withName (newName : string) (p : ToolPackage) : ToolPackage :=
  {| path := path p; name := newName; added := added p |}.

(** [addToolPackage(packagePath, packageName)], from the list that
    [getSavedToolPackages] returns to the list given to
    [saveToolPackages]; [now] is [new Date().toISOString()]. *)
Definition addToolPackage (h : Host) (now : string) (packages : list ToolPackage)
    (packagePath : string) (packageName : option string) : list ToolPackage :=
  let newName := Js.orString packageName (basename h packagePath) in
  let rootPath := getToolPackageRootPath h packagePath in
  let normalizedRootPath := resolve h rootPath in
  let existingIndex :=
    findIndex
      (λ p,
         let existingRootPath := getToolPackageRootPath h (path p) in
         (resolve h existingRootPath =? normalizedRootPath)%string)
      packages in
  match existingIndex with
  | Some i => alter (withName newName) i packages
  | None => packages ++ [{| path := packagePath; name := newName; added := now |}]
  end.

(** [getToolPackageInfo(packagePath)]: the name and the version. *)
Definition getToolPackageInfo (h : Host) (packagePath : string) : M (string * string) :=
  let configDir :=
    if existsSync h (join h packagePath "menu.json") then packagePath
    else join h packagePath "config" in
  let settingsConfigPath := join h configDir "settings.json" in
  if existsSync h settingsConfigPath then
    match readSettings h settingsConfigPath with
    | SettingsApp appName appVersion =>
        ret (Js.orString appName (basename h packagePath),
             Js.orString appVersion "未知版本")
    | SettingsUnreadable message =>
        run consoleLog (Js.yellow ("无法读取工具包信息: " +:+ message));
        ret (basename h packagePath, "未知版本")
    end
  else
    ret (basename h packagePath, "未知版本").

Definition cyan (s : string) : string := Js.esc +:+ "[36m" +:+ s +:+ Js.esc +:+ "[0m".

Definition newline : string := Js.fromBytes [10%nat].

(** The loop of [showToolPackageSelectorWithNumbers] that lists the
    packages, from the number [i + 1] on. *)
Fixpoint listPackages (h : Host) (i : Z) (packages : list ToolPackage) : M unit :=
  match packages with
  | [] => ret tt
  | pkg :: rest =>
      do pkgInfo <- getToolPackageInfo h (path pkg);
      run consoleLog ("| " +:+ pretty (i + 1) +:+ " |→ " +:+ fst pkgInfo
                      +:+ " (版本: " +:+ snd pkgInfo +:+ ") [" +:+ path pkg +:+ "]");
      listPackages h (i + 1) rest
  end.

(** [showToolPackageSelectorWithNumbers(packages)]; [promptForConfigPath]
    is the method of that name, called for the entry that adds a
    package. *)
Definition showToolPackageSelectorWithNumbers (h : Host)
    (promptForConfigPath : M (option string)) (packages : list ToolPackage)
  : M (option string) :=
  if (length packages =? 0)%nat then
    run consoleLog (Js.yellow "没有保存的工具包");
    ret None
  else
    run consoleLog (newline +:+ cyan "Universal Tool Framework - 工具包选择"
                    +:+ newline);
    run listPackages h 0 packages;
    run consoleLog ("| " +:+ pretty (Z.of_nat (length packages) + 1)
                    +:+ " |→ 添加工具包");
    do input <- question (newline +:+ ">>> ");
    let answer := if (input =? "")%string then "" else Js.trim input in
    match Js.parseInt answer with
    | Some choice =>
        if choice =? Z.of_nat (length packages) + 1 then
          promptForConfigPath
        else if (0 <? choice) && (choice <=? Z.of_nat (length packages)) then
          ret (path <$> packages !! Z.to_nat (choice - 1))
        else
          run consoleLog (Js.red "无效的选择！");
          run UIHandler.waitForEnter;
          ret None
    | None =>
        run consoleLog (Js.red "无效的选择！");
        run UIHandler.waitForEnter;
        ret None
    end.

(** What [switchToToolPackage] takes from the file system besides the
    host: [fs.statSync(path).isDirectory()]; what becomes of saving the
    configuration path (the directory of config_path.json is made when
    missing and the file is written): nothing, or the message of the
    error; [fs.readFileSync(path, 'utf8')]; and [JSON.parse] on the
    text of menu.json and of settings.json: the value, or the message
    of the SyntaxError. *)
Record Files := {
  isDirectory : string → bool;
  saveConfigPath : string → option string;
  readFileSync : string → ConfigHandler.ReadResult;
  parseMenu : string → string + Config;
  parseSettings : string → string + SettingsConfig
}.

(** The settings used when settings.json cannot be read or parsed. *)
Definition defaultSettings : SettingsConfig :=
  {| settings :=
       Some {| input_method := None; display_clear := true; arch_picker := true;
               arrow_indicator := None |} |}.

(** [switchToToolPackage(packagePath)]; [selected] is the configuration
    directory the path stands for. *)
Definition switchToToolPackage (h : Host) (f : Files) (packagePath : string) : M bool :=
  let selected :=
    if existsSync h (join h packagePath "menu.json") then packagePath
    else join h packagePath "config" in
  if negb (existsSync h selected) || negb (isDirectory f selected) then
    run consoleLog (Js.red "错误：指定路径下不存在 config 目录！");
    ret false
  else
    let menuPath := join h selected "menu.json" in
    if negb (existsSync h menuPath) then
      run consoleLog (Js.red "错误：config 目录中不存在 menu.json 文件！");
      ret false
    else
      match saveConfigPath f selected with
      | Some message =>
          run consoleLog (Js.red ("警告：无法保存配置路径 - " +:+ message));
          ret false
      | None =>
          do app <- getApp;
          run putApp {| config := config app; settingsConfig := settingsConfig app;
                        menuController := menuController app;
                        configDir := selected;
                        toolPackageDir := dirname h selected |};
          let jsonPath := resolve h (join h selected "menu.json") in
          match ConfigHandler.loadJson (parseMenu f) jsonPath
                  (readFileSync f jsonPath) with
          | inl message => throw message
          | inr newConfig =>
              let settingsConfigPath := join h selected "settings.json" in
              let newSettings :=
                match readFileSync f settingsConfigPath with
                | ConfigHandler.FileData settingsConfigContent =>
                    match parseSettings f settingsConfigContent with
                    | inr parsed => parsed
                    | inl _ => defaultSettings
                    end
                | ConfigHandler.FileError _ _ => defaultSettings
                end in
              run putApp {| config := newConfig; settingsConfig := newSettings;
                            menuController := newMenuController newConfig;
                            configDir := selected;
                            toolPackageDir := dirname h selected |};
              ret true
          end
      end.

End Packages.

(** The normalised root of a saved package, by which [addToolPackage]
    tells packages apart. *)
Definition packageRoot (h : Packages.Host) (p : Packages.ToolPackage) : string :=
  Packages.resolve h (Packages.getToolPackageRootPath h (Packages.path p)).
(** ** Properties *)

(** *** Strings *)

Lemma includes_elem (l : list string) (s : string) :
  Js.includes l s = true ↔ s ∈ l.
Proof.
  unfold Js.includes. rewrite existsb_exists. split.
  - intros (x & Hin & Heq). apply String.eqb_eq in Heq. subst x.
    by apply list_elem_of_In.
  - intros Hin. exists s. split; [by apply list_elem_of_In|].
    apply String.eqb_refl.
Qed.

Lemma tagName_inj (t t' : ArchitectureTag) : tagName t = tagName t' → t = t'.
Proof. destruct t, t'; simpl; intros H; try reflexivity; discriminate H. Qed.

(** *** The architecture resolver *)

(** C3. For every platform string, [getSystemArchitecture] returns the
    string of exactly one tag of the enumeration X86_64, X86, ARM64,
    ARM32, Unknown; being a total function it never fails; and for a
    platform string outside the recognised ones it returns the tag
    Unknown. *)
Theorem getSystemArchitecture_closed (arch : string) :
  (∃ t, getSystemArchitecture arch = tagName t
        ∧ ∀ t', getSystemArchitecture arch = tagName t' → t' = t)
  ∧ (arch ∉ recognizedPlatforms → getSystemArchitecture arch = tagName Unknown).
Proof.
  split.
  - assert (∃ t, getSystemArchitecture arch = tagName t) as [t Ht].
    { unfold getSystemArchitecture.
      destruct (Js.includes ["arm64"; "aarch64"] arch); [by exists ARM64|].
      destruct (Js.includes ["arm"; "armv7l"] arch); [by exists ARM32|].
      destruct (Js.includes ["ia32"] arch); [by exists X86|].
      destruct (Js.includes ["x64"; "amd64"] arch); [by exists X86_64|].
      by exists Unknown. }
    exists t. split; [exact Ht|].
    intros t' Ht'. apply tagName_inj. congruence.
  - intros Hout. unfold getSystemArchitecture, recognizedPlatforms in *.
    destruct (Js.includes ["arm64"; "aarch64"] arch) eqn:E1.
    { exfalso. apply includes_elem in E1. apply Hout. rewrite !elem_of_cons in *. tauto. }
    destruct (Js.includes ["arm"; "armv7l"] arch) eqn:E2.
    { exfalso. apply includes_elem in E2. apply Hout. rewrite !elem_of_cons in *. tauto. }
    destruct (Js.includes ["ia32"] arch) eqn:E3.
    { exfalso. apply includes_elem in E3. apply Hout. rewrite !elem_of_cons in *. tauto. }
    destruct (Js.includes ["x64"; "amd64"] arch) eqn:E4.
    { exfalso. apply includes_elem in E4. apply Hout. rewrite !elem_of_cons in *. tauto. }
    reflexivity.
Qed.

Lemma getSystemArchitecture_closed_witness :
  ("riscv64" ∉ recognizedPlatforms)
  ∧ getSystemArchitecture "riscv64" = tagName Unknown.
Proof.
  assert ("riscv64" ∉ recognizedPlatforms) as Hout.
  { unfold recognizedPlatforms. intros Hin.
    apply includes_elem in Hin. vm_compute in Hin. discriminate Hin. }
  split; [exact Hout|].
  exact (proj2 (getSystemArchitecture_closed "riscv64") Hout).
Defined.

(** *** Path resolution *)

Lemma or_nonEmpty (a b : option string) :
  Js.or a b = match a with
              | Some p => if (p =? "")%string then b else Some p
              | None => b
              end.
Proof.
  unfold Js.or, Js.truthy. destruct a as [p|]; [|reflexivity].
  by destruct (p =? "")%string.
Qed.

Lemma resolvePath_object (entries : list (string * string)) (architecture : string) :
  resolvePath (PathObject entries) architecture =
    match nonEmptyEntry entries architecture with
    | Some p => Some p
    | None =>
        match nonEmptyEntry entries "X86_64" with
        | Some p => Some p
        | None => head (objectValues entries)
        end
    end.
Proof.
  unfold resolvePath, nonEmptyEntry. rewrite !or_nonEmpty.
  destruct (getProperty entries architecture) as [p|].
  - destruct (p =? "")%string eqn:Ep; [|by rewrite Ep].
    destruct (getProperty entries "X86_64") as [q|]; [|reflexivity].
    destruct (q =? "")%string eqn:Eq; rewrite ?Eq; reflexivity.
  - destruct (getProperty entries "X86_64") as [q|]; [|reflexivity].
    destruct (q =? "")%string eqn:Eq; rewrite ?Eq; reflexivity.
Qed.

Lemma orString_tagName (t : ArchitectureTag) (fallback : string) :
  Js.orString (Some (tagName t)) fallback = tagName t.
Proof. by destruct t. Qed.

(** The executor shows and spawns the path resolved for the
    architecture in use. *)
Lemma executeTool_spawns (toolPath : ToolPath) (arch : option string)
    (dir : option string) (app : ApplicationController) (w : World) :
  Spawn (resolvePath toolPath (Js.orString arch (getSystemArchitecture (osArch w))))
        (if Js.truthy dir then dir else None)
    ∈ output (worldAfter (executeTool toolPath arch dir app w)).
Proof.
  unfold executeTool, worldAfter, bind, tryCatch, getWorld, consoleLog, emit,
    nextChild, UIHandler.waitForEnterReturnMenu, question, readLine, ret, throw.
  destruct w as [oa rm pf ls ks cs pk out]. simpl.
  destruct cs as [|[code|message code|message] cs]; simpl;
    try destruct (codeIsZero code); simpl; destruct ls; simpl;
    rewrite <- ?app_assoc, !elem_of_app, !elem_of_cons; tauto.
Qed.

(** C1, as the spec words it, fails: with the mapping X86: (empty),
    X86_64: b and the tag X86, the entry of the requested tag is present
    and would be the resolved path, but the executor resolves b. *)
Lemma resolvePath_not_by_presence :
  let entries := [("X86", ""); ("X86_64", "b")] in
  getProperty entries (tagName X86) = Some ""
  ∧ resolveByPresence entries (tagName X86) = Some ""
  ∧ resolvePath (PathObject entries) (tagName X86) = Some "b"
  ∧ ¬ (resolvePath (PathObject entries) (tagName X86)
       = resolveByPresence entries (tagName X86)).
Proof.
  intros entries. split; [reflexivity|]. split; [reflexivity|].
  split; [reflexivity|]. intros H. vm_compute in H. discriminate H.
Qed.

(** C1, amended. A path that is a single string is used verbatim.  For a
    path that is a mapping and a requested architecture tag, the
    executor resolves, in priority order: the entry of the requested tag
    if present and not empty, otherwise the X86_64 entry if present and
    not empty, otherwise the first-declared entry of the mapping; and it
    spawns the path resolved so.  For the mapping ARM64: a, X86_64: b
    and the tag X86 the path is b; for the mapping ARM64: a and the tag
    X86_64 it is a. *)
Theorem resolvePath_priority :
  (∀ s architecture, resolvePath (PathString s) architecture = Some s)
  ∧ (∀ entries t,
       resolvePath (PathObject entries) (tagName t) =
         match nonEmptyEntry entries (tagName t) with
         | Some p => Some p
         | None =>
             match nonEmptyEntry entries (tagName X86_64) with
             | Some p => Some p
             | None => head (objectValues entries)
             end
         end)
  ∧ (∀ toolPath t dir app w,
       Spawn (resolvePath toolPath (tagName t)) (if Js.truthy dir then dir else None)
         ∈ output (worldAfter (executeTool toolPath (Some (tagName t)) dir app w)))
  ∧ resolvePath (PathObject [("ARM64", "a"); ("X86_64", "b")]) (tagName X86) = Some "b"
  ∧ resolvePath (PathObject [("ARM64", "a")]) (tagName X86_64) = Some "a".
Proof.
  split; [reflexivity|].
  split; [intros entries t; apply resolvePath_object|].
  split; [|split; reflexivity].
  intros toolPath t dir app w.
  rewrite <- (orString_tagName t (getSystemArchitecture (osArch w))) at 1.
  apply executeTool_spawns.
Qed.

(** C10, as stated, fails: with the mapping X86: (empty), ARM64: a and
    the tag X86, the resolved path is the empty string, and the
    present-but-empty entry is not skipped as if it were absent (without
    it the path would be a). *)
Lemma resolvePath_empty_first_entry :
  let entries := [("X86", ""); ("ARM64", "a")] in
  getProperty entries "X86" = Some ""
  ∧ ¬ (resolvePath (PathObject entries) "X86" ≠ Some "")
  ∧ ¬ (resolvePath (PathObject entries) "X86"
       = resolvePath (PathObject (withoutEntry "X86" entries)) "X86").
Proof.
  intros entries. split; [reflexivity|]. split.
  - intros H. apply H. reflexivity.
  - intros H. vm_compute in H. discriminate H.
Qed.

(** C10, amended. In path resolution over a mapping, an entry that is
    present but empty is passed over by the lookup of the requested tag
    and by the lookup of X86_64: when the entry of the requested tag is
    empty the resolved path is the X86_64 entry, or, when that is absent
    or empty too, the first-declared entry of the mapping, taken as it
    is.  So the resolved path of a present-but-empty exact match is the
    next entry of the fallback chain, and it is the empty string only
    when that chain ends at a first-declared entry that is empty. *)
Theorem resolvePath_skips_empty (entries : list (string * string)) (architecture : string) :
  getProperty entries architecture = Some "" →
  resolvePath (PathObject entries) architecture =
    match nonEmptyEntry entries "X86_64" with
    | Some p => Some p
    | None => head (objectValues entries)
    end
  ∧ (getProperty entries "X86_64" = Some "" →
     resolvePath (PathObject entries) architecture = head (objectValues entries))
  ∧ (resolvePath (PathObject entries) architecture = Some "" →
     nonEmptyEntry entries "X86_64" = None ∧ head (objectValues entries) = Some "").
Proof.
  intros Hempty.
  assert (resolvePath (PathObject entries) architecture =
            match nonEmptyEntry entries "X86_64" with
            | Some p => Some p
            | None => head (objectValues entries)
            end) as Hres.
  { rewrite resolvePath_object. unfold nonEmptyEntry at 1. by rewrite Hempty. }
  rewrite Hres. split; [reflexivity|]. split.
  - intros H86. unfold nonEmptyEntry. rewrite H86. reflexivity.
  - unfold nonEmptyEntry.
    destruct (getProperty entries "X86_64") as [q|]; [|by intros ->].
    destruct (q =? "")%string eqn:Eq; [by intros ->|].
    intros [= ->]. discriminate Eq.
Qed.

Lemma resolvePath_skips_empty_witness :
  getProperty [("X86", ""); ("X86_64", "b")] "X86" = Some ""
  ∧ resolvePath (PathObject [("X86", ""); ("X86_64", "b")]) "X86" = Some "b".
Proof.
  split; [reflexivity|].
  exact (proj1 (resolvePath_skips_empty [("X86", ""); ("X86_64", "b")] "X86" eq_refl)).
Defined.

(** *** Running a computation step by step *)


Lemma onMenuController_run {A} (f : MenuController → A * MenuController)
    (app : ApplicationController) (w : World) :
  onMenuController f app w =
    (Returned (fst (f (menuController app))),
     withMenuController (snd (f (menuController app))) app, w).
Proof. unfold onMenuController. by destruct (f (menuController app)). Qed.

Lemma bind_run {A B} (m : M A) (k : A → M B) (app app' : ApplicationController)
    (w w' : World) (a : A) :
  m app w = (Returned a, app', w') → bind m k app w = k a app' w'.
Proof. intros H. unfold bind. by rewrite H. Qed.

Lemma tryCatch_returned {A} (body : M A) (handler : string → M A)
    (app app' : ApplicationController) (w w' : World) (a : A) :
  body app w = (Returned a, app', w') →
  tryCatch body handler app w = (Returned a, app', w').
Proof. intros H. unfold tryCatch. by rewrite H. Qed.

(** Updates of the world, composed. *)
Lemma output_withOutput (o : list Event) (w : World) : output (withOutput o w) = o.
Proof. reflexivity. Qed.

Lemma output_withKeys (k : list string) (w : World) :
  output (withKeys k w) = output w.
Proof. reflexivity. Qed.

Lemma withOutput_withOutput (o o' : list Event) (w : World) :
  withOutput o (withOutput o' w) = withOutput o w.
Proof. reflexivity. Qed.

Lemma withKeys_withKeys (k k' : list string) (w : World) :
  withKeys k (withKeys k' w) = withKeys k w.
Proof. reflexivity. Qed.

Lemma withOutput_withKeys (o : list Event) (k : list string) (w : World) :
  withOutput o (withKeys k w) = withKeys k (withOutput o w).
Proof. reflexivity. Qed.

Ltac world_norm :=
  repeat first
    [ rewrite output_withOutput
    | rewrite output_withKeys
    | rewrite withOutput_withKeys
    | rewrite withKeys_withKeys
    | rewrite withOutput_withOutput ].

Lemma readKey_run (app : ApplicationController) (w : World) (key : string)
    (rest : list string) :
  keys w = key :: rest → readKey app w = (Returned key, app, withKeys rest w).
Proof. intros Hkeys. unfold readKey. by rewrite Hkeys. Qed.

(** *** Computations that leave the controller alone *)

Section KeepsApp.

Context {A B : Type}.

Lemma keepsApp_ret (a : A) : keepsApp (ret a).
Proof. by intros app w. Qed.

Lemma keepsApp_throw (message : string) : keepsApp (@throw A message).
Proof. by intros app w. Qed.

Lemma keepsApp_blocked : keepsApp (@blocked A).
Proof. by intros app w. Qed.

Lemma keepsApp_crash : keepsApp (@crash A).
Proof. by intros app w. Qed.

Lemma keepsApp_bind (m : M A) (k : A → M B) :
  keepsApp m → (∀ a, keepsApp (k a)) → keepsApp (bind m k).
Proof.
  intros Hm Hk app w. unfold bind. specialize (Hm app w).
  destruct (m app w) as [[[a|message| |] app'] w']; unfold appAfter in *;
    simpl in *; subst; try reflexivity.
  apply Hk.
Qed.

Lemma keepsApp_tryCatch (body : M A) (handler : string → M A) :
  keepsApp body → (∀ message, keepsApp (handler message)) →
  keepsApp (tryCatch body handler).
Proof.
  intros Hm Hk app w. unfold tryCatch. specialize (Hm app w).
  destruct (body app w) as [[[a|message| |] app'] w']; unfold appAfter in *;
    simpl in *; subst; try reflexivity.
  apply Hk.
Qed.

End KeepsApp.

Lemma keepsApp_getApp : keepsApp getApp.
Proof. by intros app w. Qed.

Lemma keepsApp_getWorld : keepsApp getWorld.
Proof. by intros app w. Qed.

Lemma keepsApp_emit (e : Event) : keepsApp (emit e).
Proof. by intros app w. Qed.

Lemma keepsApp_consoleLog (text : string) : keepsApp (consoleLog text).
Proof. by intros app w. Qed.

Lemma keepsApp_readLine : keepsApp readLine.
Proof. intros app w. unfold readLine. by destruct (lines w). Qed.

Lemma keepsApp_readKey : keepsApp readKey.
Proof. intros app w. unfold readKey. by destruct (keys w). Qed.

Lemma keepsApp_nextChild : keepsApp nextChild.
Proof. intros app w. unfold nextChild. by destruct (children w). Qed.

Lemma keepsApp_nextPackage : keepsApp nextPackage.
Proof. intros app w. unfold nextPackage. by destruct (packages w). Qed.

Create HintDb keeps.

#[local] Hint Resolve keepsApp_ret keepsApp_throw keepsApp_blocked keepsApp_crash
  keepsApp_getApp keepsApp_getWorld keepsApp_emit keepsApp_consoleLog
  keepsApp_readLine keepsApp_readKey keepsApp_nextChild
  keepsApp_nextPackage : keeps.

(** Walks the syntax of a computation, closing the leaves with the
    lemmas of the database. *)
Ltac keeps :=
  repeat first
    [ solve [eauto with keeps]
    | progress intros
    | apply keepsApp_bind
    | apply keepsApp_tryCatch
    | match goal with
      | |- keepsApp (if ?b then _ else _) => destruct b
      | |- keepsApp (match ?x with _ => _ end) => destruct x
      end ].

Lemma keepsApp_question (prompt : string) : keepsApp (question prompt).
Proof. unfold question. keeps. Qed.

#[local] Hint Resolve keepsApp_question : keeps.

Lemma keepsApp_waitForEnter : keepsApp UIHandler.waitForEnter.
Proof. unfold UIHandler.waitForEnter. keeps. Qed.

Lemma keepsApp_waitForEnterReturnMenu : keepsApp UIHandler.waitForEnterReturnMenu.
Proof. unfold UIHandler.waitForEnterReturnMenu. keeps. Qed.

#[local] Hint Resolve keepsApp_waitForEnter keepsApp_waitForEnterReturnMenu : keeps.

Lemma keepsApp_onKeyPress (fuel : nat) (menuItems : list (Z * string))
    (menuTitle : string) (selectedIndex : Z) :
  keepsApp (UIHandler.onKeyPress fuel menuItems menuTitle selectedIndex).
Proof.
  revert selectedIndex. induction fuel as [|fuel IH]; intros selectedIndex; simpl.
  - keeps.
  - unfold UIHandler.release. keeps.
Qed.

#[local] Hint Resolve keepsApp_onKeyPress : keeps.

Lemma keepsApp_selectWithArrowKeys (menuItems : list (Z * string)) (menuTitle : string) :
  keepsApp (UIHandler.selectWithArrowKeys menuItems menuTitle).
Proof. unfold UIHandler.selectWithArrowKeys. keeps. Qed.

#[local] Hint Resolve keepsApp_selectWithArrowKeys : keeps.

Lemma keepsApp_architecturePickerWithArrows (fuel : nat) :
  keepsApp (UIHandler.architecturePickerWithArrows fuel).
Proof.
  induction fuel as [|fuel IH]; simpl; keeps.
Qed.

Lemma keepsApp_architecturePickerWithNumbers :
  keepsApp UIHandler.architecturePickerWithNumbers.
Proof. unfold UIHandler.architecturePickerWithNumbers. keeps. Qed.

#[local] Hint Resolve keepsApp_architecturePickerWithArrows
  keepsApp_architecturePickerWithNumbers : keeps.

Lemma keepsApp_architecturePicker (sc : SettingsConfig) :
  keepsApp (UIHandler.architecturePicker sc).
Proof. unfold UIHandler.architecturePicker. keeps. Qed.

Lemma keepsApp_executeTool (toolPath : ToolPath) (arch dir : option string) :
  keepsApp (executeTool toolPath arch dir).
Proof. unfold executeTool. keeps. Qed.

Lemma keepsApp_displayMenu (menuId : option string) :
  keepsApp (NumMenuEngine.displayMenu menuId).
Proof. unfold NumMenuEngine.displayMenu. keeps. Qed.

Lemma keepsApp_displayInteractiveMenu (cfg : Config) (menuId : option string) :
  keepsApp (ArrowMenuEngine.displayInteractiveMenu cfg menuId).
Proof. unfold ArrowMenuEngine.displayInteractiveMenu. keeps. Qed.

#[local] Hint Resolve keepsApp_architecturePicker keepsApp_executeTool
  keepsApp_displayMenu keepsApp_displayInteractiveMenu : keeps.

Lemma keepsApp_displayCurrentMenu : keepsApp displayCurrentMenu.
Proof. unfold displayCurrentMenu. keeps. Qed.

Lemma keepsApp_displayInteractiveCurrentMenu : keepsApp displayInteractiveCurrentMenu.
Proof. unfold displayInteractiveCurrentMenu. keeps. Qed.

Lemma keepsApp_promptAnswer (sc : SettingsConfig) : keepsApp (promptAnswer sc).
Proof. unfold promptAnswer. keeps. Qed.

#[local] Hint Resolve keepsApp_displayCurrentMenu
  keepsApp_displayInteractiveCurrentMenu keepsApp_promptAnswer : keeps.

(** *** Computations that launch nothing *)

Section LaunchesNothing.

Context {A B : Type}.

Lemma quiet_ret (a : A) : launchesNothing (ret a).
Proof. by intros app w. Qed.

Lemma quiet_throw (message : string) : launchesNothing (@throw A message).
Proof. by intros app w. Qed.

Lemma quiet_blocked : launchesNothing (@blocked A).
Proof. by intros app w. Qed.

Lemma quiet_crash : launchesNothing (@crash A).
Proof. by intros app w. Qed.

Lemma quiet_bind (m : M A) (k : A → M B) :
  launchesNothing m → (∀ a, launchesNothing (k a)) → launchesNothing (bind m k).
Proof.
  intros Hm Hk app w. unfold bind. specialize (Hm app w).
  destruct (m app w) as [[[a|message| |] app'] w']; unfold worldAfter in *;
    simpl in *; try exact Hm.
  rewrite <- Hm. apply Hk.
Qed.

Lemma quiet_tryCatch (body : M A) (handler : string → M A) :
  launchesNothing body → (∀ message, launchesNothing (handler message)) →
  launchesNothing (tryCatch body handler).
Proof.
  intros Hm Hk app w. unfold tryCatch. specialize (Hm app w).
  destruct (body app w) as [[[a|message| |] app'] w']; unfold worldAfter in *;
    simpl in *; try exact Hm.
  rewrite <- Hm. apply Hk.
Qed.

Lemma quiet_onMenuController (f : MenuController → A * MenuController) :
  launchesNothing (onMenuController f).
Proof. intros app w. by rewrite onMenuController_run. Qed.

End LaunchesNothing.

Lemma quiet_getWorld : launchesNothing getWorld.
Proof. by intros app w. Qed.

Lemma quiet_emit (e : Event) : isSpawn e = false → launchesNothing (emit e).
Proof.
  intros He app w. unfold emit, worldAfter, spawned. simpl.
  rewrite List.filter_app. simpl. rewrite He. apply app_nil_r.
Qed.

Lemma quiet_readLine : launchesNothing readLine.
Proof. intros app w. unfold readLine. by destruct (lines w). Qed.

Lemma quiet_readKey : launchesNothing readKey.
Proof. intros app w. unfold readKey. by destruct (keys w). Qed.

Create HintDb quiet.

#[local] Hint Resolve quiet_ret quiet_throw quiet_blocked quiet_crash
  quiet_getWorld quiet_readLine quiet_readKey
  quiet_onMenuController : quiet.

Ltac quiet :=
  repeat first
    [ solve [eauto with quiet]
    | solve [apply quiet_emit; reflexivity]
    | progress intros
    | apply quiet_bind
    | apply quiet_tryCatch
    | match goal with
      | |- launchesNothing (if ?b then _ else _) => destruct b
      | |- launchesNothing (match ?x with _ => _ end) => destruct x
      end ].

Lemma quiet_question (prompt : string) : launchesNothing (question prompt).
Proof. unfold question. quiet. Qed.

#[local] Hint Resolve quiet_question : quiet.

Lemma quiet_onKeyPress (fuel : nat) (menuItems : list (Z * string))
    (menuTitle : string) (selectedIndex : Z) :
  launchesNothing (UIHandler.onKeyPress fuel menuItems menuTitle selectedIndex).
Proof.
  revert selectedIndex. induction fuel as [|fuel IH]; intros selectedIndex; simpl.
  - quiet.
  - unfold UIHandler.release. quiet.
Qed.

#[local] Hint Resolve quiet_onKeyPress : quiet.

Lemma quiet_selectWithArrowKeys (menuItems : list (Z * string)) (menuTitle : string) :
  launchesNothing (UIHandler.selectWithArrowKeys menuItems menuTitle).
Proof. unfold UIHandler.selectWithArrowKeys. quiet. Qed.

#[local] Hint Resolve quiet_selectWithArrowKeys : quiet.

Lemma quiet_architecturePickerWithArrows (fuel : nat) :
  launchesNothing (UIHandler.architecturePickerWithArrows fuel).
Proof. induction fuel as [|fuel IH]; simpl; quiet. Qed.

Lemma quiet_architecturePickerWithNumbers :
  launchesNothing UIHandler.architecturePickerWithNumbers.
Proof. unfold UIHandler.architecturePickerWithNumbers. quiet. Qed.

#[local] Hint Resolve quiet_architecturePickerWithArrows
  quiet_architecturePickerWithNumbers : quiet.

Lemma quiet_architecturePicker (sc : SettingsConfig) :
  launchesNothing (UIHandler.architecturePicker sc).
Proof. unfold UIHandler.architecturePicker. quiet. Qed.

(** *** Computations that only add to the output *)

Section ExtendsOutput.

Context {A B : Type}.

Lemma ext_same (m : M A) :
  (∀ app w, output (worldAfter (m app w)) = output w) → extendsOutput m.
Proof. intros Hm app w. exists []. by rewrite app_nil_r. Qed.

Lemma ext_ret (a : A) : extendsOutput (ret a).
Proof. by apply ext_same. Qed.

Lemma ext_throw (message : string) : extendsOutput (@throw A message).
Proof. by apply ext_same. Qed.

Lemma ext_blocked : extendsOutput (@blocked A).
Proof. by apply ext_same. Qed.

Lemma ext_crash : extendsOutput (@crash A).
Proof. by apply ext_same. Qed.

Lemma ext_bind (m : M A) (k : A → M B) :
  extendsOutput m → (∀ a, extendsOutput (k a)) → extendsOutput (bind m k).
Proof.
  intros Hm Hk app w. unfold bind. destruct (Hm app w) as [more Hmore].
  destruct (m app w) as [[[a|message| |] app'] w']; unfold worldAfter in *;
    simpl in *; try (by exists more).
  destruct (Hk a app' w') as [more' Hmore']. exists (more ++ more')%list.
  unfold worldAfter in Hmore'. by rewrite Hmore', Hmore, app_assoc.
Qed.

Lemma ext_tryCatch (body : M A) (handler : string → M A) :
  extendsOutput body → (∀ message, extendsOutput (handler message)) →
  extendsOutput (tryCatch body handler).
Proof.
  intros Hm Hk app w. unfold tryCatch. destruct (Hm app w) as [more Hmore].
  destruct (body app w) as [[[a|message| |] app'] w']; unfold worldAfter in *;
    simpl in *; try (by exists more).
  destruct (Hk message app' w') as [more' Hmore']. exists (more ++ more')%list.
  unfold worldAfter in Hmore'. by rewrite Hmore', Hmore, app_assoc.
Qed.

Lemma ext_onMenuController (f : MenuController → A * MenuController) :
  extendsOutput (onMenuController f).
Proof. apply ext_same. intros app w. by rewrite onMenuController_run. Qed.

End ExtendsOutput.

Lemma ext_getApp : extendsOutput getApp.
Proof. by apply ext_same. Qed.

Lemma ext_getWorld : extendsOutput getWorld.
Proof. by apply ext_same. Qed.

Lemma ext_putApp (app' : ApplicationController) : extendsOutput (putApp app').
Proof. by apply ext_same. Qed.

Lemma ext_emit (e : Event) : extendsOutput (emit e).
Proof. intros app w. by exists [e]. Qed.

Lemma ext_consoleLog (text : string) : extendsOutput (consoleLog text).
Proof. apply ext_emit. Qed.

Lemma ext_readLine : extendsOutput readLine.
Proof. apply ext_same. intros app w. unfold readLine. by destruct (lines w). Qed.

Lemma ext_readKey : extendsOutput readKey.
Proof. apply ext_same. intros app w. unfold readKey. by destruct (keys w). Qed.

Lemma ext_nextChild : extendsOutput nextChild.
Proof. apply ext_same. intros app w. unfold nextChild. by destruct (children w). Qed.

Lemma ext_nextPackage : extendsOutput nextPackage.
Proof. apply ext_same. intros app w. unfold nextPackage. by destruct (packages w). Qed.

Create HintDb ext.

#[local] Hint Resolve ext_ret ext_throw ext_blocked ext_crash ext_getApp
  ext_getWorld ext_putApp ext_emit ext_consoleLog ext_readLine ext_readKey
  ext_nextChild ext_nextPackage ext_onMenuController : ext.

Ltac ext :=
  repeat first
    [ solve [eauto with ext]
    | progress intros
    | apply ext_bind
    | apply ext_tryCatch
    | match goal with
      | |- extendsOutput (if ?b then _ else _) => destruct b
      | |- extendsOutput (match ?x with _ => _ end) => destruct x
      end ].

Lemma ext_question (prompt : string) : extendsOutput (question prompt).
Proof. unfold question. ext. Qed.

#[local] Hint Resolve ext_question : ext.

Lemma ext_waitForEnter : extendsOutput UIHandler.waitForEnter.
Proof. unfold UIHandler.waitForEnter. ext. Qed.

Lemma ext_waitForEnterReturnMenu : extendsOutput UIHandler.waitForEnterReturnMenu.
Proof. unfold UIHandler.waitForEnterReturnMenu. ext. Qed.

#[local] Hint Resolve ext_waitForEnter ext_waitForEnterReturnMenu : ext.

Lemma ext_onKeyPress (fuel : nat) (menuItems : list (Z * string))
    (menuTitle : string) (selectedIndex : Z) :
  extendsOutput (UIHandler.onKeyPress fuel menuItems menuTitle selectedIndex).
Proof.
  revert selectedIndex. induction fuel as [|fuel IH]; intros selectedIndex; simpl.
  - ext.
  - unfold UIHandler.release. ext.
Qed.

#[local] Hint Resolve ext_onKeyPress : ext.

Lemma ext_selectWithArrowKeys (menuItems : list (Z * string)) (menuTitle : string) :
  extendsOutput (UIHandler.selectWithArrowKeys menuItems menuTitle).
Proof. unfold UIHandler.selectWithArrowKeys. ext. Qed.

#[local] Hint Resolve ext_selectWithArrowKeys : ext.

Lemma ext_architecturePickerWithArrows (fuel : nat) :
  extendsOutput (UIHandler.architecturePickerWithArrows fuel).
Proof. induction fuel as [|fuel IH]; simpl; ext. Qed.

Lemma ext_architecturePickerWithNumbers :
  extendsOutput UIHandler.architecturePickerWithNumbers.
Proof. unfold UIHandler.architecturePickerWithNumbers. ext. Qed.

#[local] Hint Resolve ext_architecturePickerWithArrows
  ext_architecturePickerWithNumbers : ext.

Lemma ext_architecturePicker (sc : SettingsConfig) :
  extendsOutput (UIHandler.architecturePicker sc).
Proof. unfold UIHandler.architecturePicker. ext. Qed.

Lemma ext_executeTool (toolPath : ToolPath) (arch dir : option string) :
  extendsOutput (executeTool toolPath arch dir).
Proof. unfold executeTool. ext. Qed.

#[local] Hint Resolve ext_architecturePicker ext_executeTool : ext.

Lemma ext_handleUserChoice (choice : Choice) : extendsOutput (handleUserChoice choice).
Proof. unfold handleUserChoice. ext. Qed.

Lemma ext_switchToolPackage : extendsOutput switchToolPackage.
Proof. unfold switchToolPackage. ext. Qed.

#[local] Hint Resolve ext_handleUserChoice ext_switchToolPackage : ext.

(** *** One turn of the numeric strategy *)

Lemma promptAnswer_run (sc : SettingsConfig) (app : ApplicationController) (w : World)
    (line : string) (rest : list string) :
  lines w = line :: rest →
  promptAnswer sc app w =
    (Returned (answerOf line), app,
     withLines rest (withOutput (output w ++ [Question (numericPrompt sc)]) w)).
Proof.
  intros Hlines. unfold promptAnswer, numericPrompt, answerOf, bind, question,
    emit, readLine, ret.
  destruct w as [oa rm pf ls ks cs pk out]. simpl in *. subst ls.
  by destruct (Js.truthy _).
Qed.

Lemma displayCurrentMenu_run (app : ApplicationController) (w : World) :
  displayCurrentMenu app w =
    (Returned tt, app,
     withOutput (output w ++ [DisplayMenu (getCurrentMenu (menuController app))]) w).
Proof. reflexivity. Qed.

(** The numeric turn reads its answer and gives it to the rest of the
    turn. *)
Lemma numeric_turn_dispatch (app : ApplicationController) (w : World)
    (line : string) (rest : list string) :
  inputMethodOf (Some (settingsConfig app)) = "num_input" →
  lines w = line :: rest →
  showCurrentMenuTurn app w =
    tryCatch
      (do handled <- onMenuController (handleNavigationCommand (answerOf line));
       if handled then ret tt
       else if (Js.toLowerCase (answerOf line) =? "p")%string then switchToolPackage
       else if (answerOf line =? "")%string then
         run consoleLog (Js.red "输入不能为空！");
         UIHandler.waitForEnter
       else
         match Js.parseInt (answerOf line) with
         | None =>
             run consoleLog (Js.red "输入无效，请输入一个数字！");
             UIHandler.waitForEnter
         | Some userChoice => handleUserChoice (ChoiceNum userChoice)
         end)
      (λ message,
         run consoleLog (Js.red ("发生错误: " +:+ message));
         UIHandler.waitForEnter)
      app (afterPrompt app w rest).
Proof.
  intros Hmode Hlines. unfold showCurrentMenuTurn, tryCatch.
  unfold bind at 1. unfold getApp at 1. rewrite Hmode. simpl.
  unfold bind at 1. rewrite displayCurrentMenu_run.
  unfold bind at 1.
  rewrite (promptAnswer_run _ _ _ line rest) by exact Hlines.
  unfold afterPrompt.
  destruct w as [oa rm pf ls ks cs pk out].
  unfold withLines, withOutput. simpl. rewrite <- app_assoc. reflexivity.
Qed.

(** *** The navigation stack *)

Lemma navStep_invariant (s s' : list string) :
  navStep s s' → isNavigationStack s → isNavigationStack s'.
Proof.
  intros Hstep [Hne Hhead]. destruct Hstep as [s menuId|s Hlen|s].
  - destruct s as [|a s]; [done|]. by split.
  - destruct s as [|a [|b s]]; simpl in Hlen; try lia.
    split; [done|]. exact Hhead.
  - by split.
Qed.

Lemma navSteps_invariant (s s' : list string) :
  rtc navStep s s' → isNavigationStack s → isNavigationStack s'.
Proof.
  induction 1 as [|s s1 s2 Hstep _ IH]; [done|].
  intros Hs. apply IH. by apply (navStep_invariant s).
Qed.

Lemma goBack_stack (mc : MenuController) :
  menuStack (snd (goBack mc)) =
    if (1 <? length (menuStack mc))%nat then removelast (menuStack mc)
    else menuStack mc.
Proof. unfold goBack. by destruct (1 <? length (menuStack mc))%nat. Qed.

Lemma back_command_stack (mc : MenuController) :
  menuStack (snd (handleNavigationCommand "b" mc)) =
    if (1 <? length (menuStack mc))%nat then removelast (menuStack mc)
    else ["main"].
Proof.
  unfold handleNavigationCommand, goBack. simpl.
  by destruct (1 <? length (menuStack mc))%nat.
Qed.

Lemma goBack_steps (mc : MenuController) :
  rtc navStep (menuStack mc) (menuStack (snd (goBack mc))).
Proof.
  rewrite goBack_stack. destruct (1 <? length (menuStack mc))%nat eqn:E.
  - apply rtc_once, nav_pop. by apply Nat.ltb_lt.
  - apply rtc_refl.
Qed.

Lemma goToMainMenu_steps (mc : MenuController) :
  rtc navStep (menuStack mc) (menuStack (goToMainMenu mc)).
Proof. apply rtc_once, nav_reset. Qed.

Lemma setCurrentMenu_steps (menuId : string) (mc : MenuController) :
  rtc navStep (menuStack mc) (menuStack (setCurrentMenu menuId mc)).
Proof. apply rtc_once, nav_push. Qed.

Lemma handleNavigationCommand_steps (command : string) (mc : MenuController) :
  rtc navStep (menuStack mc) (menuStack (snd (handleNavigationCommand command mc))).
Proof.
  unfold handleNavigationCommand.
  destruct (Js.toLowerCase command =? "b")%string.
  { pose proof (goBack_steps mc) as Hback. rewrite goBack_stack in Hback.
    unfold goBack in *. destruct (1 <? length (menuStack mc))%nat; simpl.
    - exact Hback.
    - apply rtc_once, nav_reset. }
  destruct (Js.toLowerCase command =? "m")%string.
  { apply goToMainMenu_steps. }
  destruct (Js.toLowerCase command =? "p")%string; apply rtc_refl.
Qed.

Lemma removelast_snoc (s : list string) :
  s ≠ [] → ∃ top : string, s = (removelast s ++ [top])%list.
Proof.
  intros Hne. exists (List.last s ""). by apply app_removelast_last.
Qed.

Lemma goBack_backEffect (mc : MenuController) :
  backEffect (menuStack mc) (menuStack (snd (goBack mc))).
Proof.
  rewrite goBack_stack. split.
  - intros Hlen. destruct (1 <? length (menuStack mc))%nat eqn:E.
    + apply removelast_snoc. intros Hnil. rewrite Hnil in Hlen. simpl in Hlen. lia.
    + apply Nat.ltb_ge in E. lia.
  - intros Hlen. rewrite Hlen. reflexivity.
Qed.

Lemma back_command_backEffect (mc : MenuController) :
  isNavigationStack (menuStack mc) →
  backEffect (menuStack mc) (menuStack (snd (handleNavigationCommand "b" mc))).
Proof.
  intros [Hne Hhead]. rewrite back_command_stack. split.
  - intros Hlen. destruct (1 <? length (menuStack mc))%nat eqn:E.
    + by apply removelast_snoc.
    + apply Nat.ltb_ge in E. lia.
  - intros Hlen. rewrite Hlen. simpl.
    destruct (menuStack mc) as [|a [|b s]]; simpl in *; try lia.
    congruence.
Qed.

(** *** Computations that change the stack by navigation steps only *)

Section ViaNavSteps.

Context {A B : Type}.

Lemma via_keeps (m : M A) : keepsApp m → viaNavSteps m.
Proof. intros Hm app w. rewrite Hm. apply rtc_refl. Qed.

Lemma via_bind (m : M A) (k : A → M B) :
  viaNavSteps m → (∀ a, viaNavSteps (k a)) → viaNavSteps (bind m k).
Proof.
  intros Hm Hk app w. unfold bind. specialize (Hm app w).
  destruct (m app w) as [[[a|message| |] app'] w']; unfold appAfter in *;
    simpl in *; try exact Hm.
  etrans; [exact Hm|]. apply Hk.
Qed.

Lemma via_tryCatch (body : M A) (handler : string → M A) :
  viaNavSteps body → (∀ message, viaNavSteps (handler message)) →
  viaNavSteps (tryCatch body handler).
Proof.
  intros Hm Hk app w. unfold tryCatch. specialize (Hm app w).
  destruct (body app w) as [[[a|message| |] app'] w']; unfold appAfter in *;
    simpl in *; try exact Hm.
  etrans; [exact Hm|]. apply Hk.
Qed.

Lemma via_onMenuController (f : MenuController → A * MenuController) :
  (∀ mc, rtc navStep (menuStack mc) (menuStack (snd (f mc)))) →
  viaNavSteps (onMenuController f).
Proof.
  intros Hf app w. rewrite onMenuController_run. apply Hf.
Qed.

End ViaNavSteps.

Create HintDb via.

#[local] Hint Resolve goBack_steps goToMainMenu_steps setCurrentMenu_steps
  handleNavigationCommand_steps rtc_refl rtc_once : via.

#[local] Hint Constructors navStep : via.

Ltac via :=
  repeat first
    [ solve [eauto with via]
    | solve [apply via_keeps; keeps]
    | progress intros
    | apply via_onMenuController; cbn beta iota delta [snd]
    | apply via_bind
    | apply via_tryCatch
    | match goal with
      | |- viaNavSteps (if ?b then _ else _) => destruct b
      | |- viaNavSteps (match ?x with _ => _ end) => destruct x
      end ].

Lemma via_handleUserChoice (choice : Choice) : viaNavSteps (handleUserChoice choice).
Proof. unfold handleUserChoice. via. Qed.

Lemma via_switchToolPackage : viaNavSteps switchToolPackage.
Proof.
  intros app w. unfold switchToolPackage, bind, nextPackage, getApp, putApp, ret,
    throw, appAfter.
  destruct (packages w)
    as [|[| |newConfig newSettings d1 d2|message dirs c sc
         |newConfig newSettings d1 d2 message] rest];
    simpl; try apply rtc_refl; apply rtc_once, nav_reset.
Qed.

#[local] Hint Resolve via_handleUserChoice via_switchToolPackage : via.

Lemma via_showCurrentMenuTurn : viaNavSteps showCurrentMenuTurn.
Proof. unfold showCurrentMenuTurn. via. Qed.

#[local] Hint Resolve via_showCurrentMenuTurn : via.

Lemma via_showCurrentMenu (turns : nat) : viaNavSteps (showCurrentMenu turns).
Proof. induction turns as [|n IH]; simpl; via. Qed.

Lemma applyOp_steps (mc : MenuController) (op : NavigationOp) :
  rtc navStep (menuStack mc) (menuStack (applyOp mc op)).
Proof. destruct op; simpl; eauto with via. Qed.

Lemma foldl_applyOp_steps (ops : list NavigationOp) (mc : MenuController) :
  rtc navStep (menuStack mc) (menuStack (foldl applyOp mc ops)).
Proof.
  revert mc. induction ops as [|op ops IH]; intros mc; simpl; [apply rtc_refl|].
  etrans; [apply applyOp_steps|apply IH].
Qed.

Lemma initial_stack : isNavigationStack ["main"].
Proof. by split. Qed.

(** C4. For every sequence of navigation operations (entering a
    submenu, back, home) run by the methods of the controller from its
    construction, and for every number of turns of the menu loop on
    every input, the NavigationStack is not empty and its bottom element
    is the root menu id main; each operation changes the stack by a
    push, by a pop that needs more than one element (otherwise it
    changes nothing), or by a reset to the root, and a turn of the loop
    changes it through these steps only. *)
Theorem navigation_stack_invariant :
  (∀ cfg ops,
     isNavigationStack (menuStack (foldl applyOp (newMenuController cfg) ops)))
  ∧ (∀ cfg sc dir packageDir w turns,
       isNavigationStack
         (stackOf (appAfter (showCurrentMenu turns
                     (initialController cfg sc dir packageDir) w))))
  ∧ (∀ mc op,
       menuStack (applyOp mc op) = menuStack mc
       ∨ navStep (menuStack mc) (menuStack (applyOp mc op)))
  ∧ (∀ app w,
       rtc navStep (stackOf app) (stackOf (appAfter (showCurrentMenuTurn app w)))).
Proof.
  split; [|split; [|split]].
  - intros cfg ops.
    apply (navSteps_invariant (menuStack (newMenuController cfg)));
      [apply foldl_applyOp_steps|apply initial_stack].
  - intros cfg sc dir packageDir w turns.
    apply (navSteps_invariant (stackOf (initialController cfg sc dir packageDir)));
      [apply via_showCurrentMenu|apply initial_stack].
  - intros mc [menuId| |]; simpl.
    + right. apply nav_push.
    + rewrite goBack_stack. destruct (1 <? length (menuStack mc))%nat eqn:E.
      * right. apply nav_pop. by apply Nat.ltb_lt.
      * by left.
    + right. apply nav_reset.
  - apply via_showCurrentMenuTurn.
Qed.

(** *** Moving the cursor before the selection ends *)

Lemma movesCursor_tests (key : string) :
  movesCursor key = true →
  (key =? UIHandler.keyLeft)%string = false
  ∧ (key =? UIHandler.keyRight)%string = false
  ∧ (Js.toLowerCase key =? "p")%string = false
  ∧ (key =? UIHandler.keyReturn)%string = false
  ∧ (key =? UIHandler.keyNewline)%string = false.
Proof.
  unfold movesCursor. rewrite negb_true_iff, !orb_false_iff. tauto.
Qed.

Lemma noLaunch_cons (e : Event) (events : list Event) :
  isSpawn e = false → noLaunch events → noLaunch (e :: events).
Proof. unfold noLaunch. simpl. by intros ->. Qed.

Lemma world_after_move (w : World) (pending : list string) (e : Event)
    (events : list Event) (left : list string) :
  withKeys left
    (withOutput
       (output (withOutput (output (withKeys pending w) ++ [e]) (withKeys pending w))
        ++ events)
       (withOutput (output (withKeys pending w) ++ [e]) (withKeys pending w)))
  = withKeys left (withOutput (output w ++ e :: events) w).
Proof.
  destruct w as [oa rm pf ls ks cs pk out]. unfold withKeys, withOutput. simpl.
  by rewrite <- app_assoc.
Qed.

Lemma world_after_ignored (w : World) (pending : list string)
    (events : list Event) (left : list string) :
  withKeys left
    (withOutput (output (withKeys pending w) ++ events) (withKeys pending w))
  = withKeys left (withOutput (output w ++ events) w).
Proof. by destruct w. Qed.

Lemma onKeyPress_moves (menuItems : list (Z * string)) (menuTitle : string)
    (app : ApplicationController) (key : string) (rest : list string)
    (moves : list string) :
  forallb movesCursor moves = true →
  ∀ fuel selectedIndex w,
    keys w = (moves ++ key :: rest)%list →
    (length moves < fuel)%nat →
    ∃ events selectedIndex',
      noLaunch events
      ∧ UIHandler.onKeyPress fuel menuItems menuTitle selectedIndex app w =
          UIHandler.onKeyPress (fuel - length moves) menuItems menuTitle
            selectedIndex' app
            (withKeys (key :: rest) (withOutput (output w ++ events) w)).
Proof.
  induction moves as [|move moves IH]; intros Hmoves fuel selectedIndex w Hkeys Hfuel.
  - exists [], selectedIndex. split; [reflexivity|].
    destruct w as [oa rm pf ls ks cs pk out]. simpl in *. subst ks.
    unfold withKeys, withOutput. simpl. by rewrite Nat.sub_0_r, app_nil_r.
  - simpl in Hmoves. apply andb_true_iff in Hmoves as [Hmove Hmoves].
    destruct (movesCursor_tests move Hmove) as (Hl & Hr & Hp & Hret & Hnl).
    destruct fuel as [|fuel]; [simpl in Hfuel; lia|].
    simpl in Hfuel. apply Nat.succ_lt_mono in Hfuel.
    cbn [UIHandler.onKeyPress]. unfold bind at 1.
    simpl in Hkeys. erewrite readKey_run by exact Hkeys.
    rewrite Hl, Hr, Hp, Hret, Hnl. cbn [orb Nat.sub length].
    destruct (move =? UIHandler.keyUp)%string;
      [|destruct (move =? UIHandler.keyDown)%string].
    + unfold bind at 1. unfold emit at 1. cbv beta iota.
      match goal with
      | |- context [UIHandler.onKeyPress fuel menuItems menuTitle ?i app ?w1] =>
          destruct (IH Hmoves fuel i w1 eq_refl Hfuel)
            as (events & selectedIndex' & Hquiet & Hrun)
      end.
      match type of Hrun with
      | context [RenderMenu menuTitle ?i] =>
          exists (RenderMenu menuTitle i :: events), selectedIndex'
      end.
      split; [by apply noLaunch_cons|].
      rewrite Hrun. by rewrite world_after_move.
    + unfold bind at 1. unfold emit at 1. cbv beta iota.
      match goal with
      | |- context [UIHandler.onKeyPress fuel menuItems menuTitle ?i app ?w1] =>
          destruct (IH Hmoves fuel i w1 eq_refl Hfuel)
            as (events & selectedIndex' & Hquiet & Hrun)
      end.
      match type of Hrun with
      | context [RenderMenu menuTitle ?i] =>
          exists (RenderMenu menuTitle i :: events), selectedIndex'
      end.
      split; [by apply noLaunch_cons|].
      rewrite Hrun. by rewrite world_after_move.
    + match goal with
      | |- context [UIHandler.onKeyPress fuel menuItems menuTitle ?i app ?w1] =>
          destruct (IH Hmoves fuel i w1 eq_refl Hfuel)
            as (events & selectedIndex' & Hquiet & Hrun)
      end.
      exists events, selectedIndex'. split; [exact Hquiet|].
      rewrite Hrun. by rewrite world_after_ignored.
Qed.

Lemma onKeyPress_command (fuel : nat) (menuItems : list (Z * string))
    (menuTitle : string) (selectedIndex : Z) (app : ApplicationController)
    (w : World) (key token : string) (rest : list string) :
  commandKey key token →
  keys w = key :: rest →
  UIHandler.onKeyPress (S fuel) menuItems menuTitle selectedIndex app w =
    (Returned (ChoiceStr token), app,
     withKeys rest (withOutput (output w ++ [SetRawMode false]) w)).
Proof.
  intros Hkey Hkeys. cbn [UIHandler.onKeyPress]. unfold bind at 1.
  erewrite readKey_run by exact Hkeys.
  destruct Hkey; simpl; unfold UIHandler.release, bind, emit, ret; by destruct w.
Qed.

Lemma noLaunch_selection (menuTitle : string) (events : list Event) :
  noLaunch events →
  noLaunch
    ([SetRawMode true; SetRawMode true; RenderMenu menuTitle 0] ++ events
     ++ [SetRawMode false]).
Proof.
  unfold noLaunch. intros Hquiet. simpl. rewrite List.filter_app, Hquiet.
  reflexivity.
Qed.

(** The arrow-key selection, in raw mode, on keys that move the cursor
    or are ignored and then a command key: it resolves the string of the
    command, having read these keys and launched nothing. *)
Lemma selectWithArrowKeys_command (menuItems : list (Z * string)) (menuTitle : string)
    (app : ApplicationController) (w : World) (moves : list string)
    (key token : string) (rest : list string) :
  rawModeAvailable w = true →
  forallb movesCursor moves = true →
  commandKey key token →
  keys w = (moves ++ key :: rest)%list →
  ∃ events,
    noLaunch events
    ∧ UIHandler.selectWithArrowKeys menuItems menuTitle app w =
        (Returned (ChoiceStr token), app,
         withKeys rest (withOutput (output w ++ events) w)).
Proof.
  intros Hraw Hmoves Hkey Hkeys.
  unfold UIHandler.selectWithArrowKeys. unfold bind at 1. unfold getWorld at 1.
  rewrite Hraw. cbn [negb].
  do 3 (unfold bind at 1; unfold emit at 1; cbv beta iota).
  match goal with
  | |- context [UIHandler.onKeyPress ?fuel menuItems menuTitle 0 app ?w3] =>
      assert (keys w3 = (moves ++ key :: rest)%list) as Hkeys3
        by (by destruct w);
      assert (length moves < fuel)%nat as Hfuel
        by (rewrite Hkeys, length_app; simpl; lia);
      destruct (onKeyPress_moves menuItems menuTitle app key rest moves Hmoves
                  fuel 0 w3 Hkeys3 Hfuel)
        as (events & selectedIndex' & Hquiet & Hrun)
  end.
  rewrite Hrun, Hkeys, length_app. cbn [length].
  replace (S (length moves + S (length rest)) - length moves)%nat
    with (S (S (length rest))) by lia.
  erewrite onKeyPress_command; [|exact Hkey|reflexivity].
  exists ([SetRawMode true; SetRawMode true; RenderMenu menuTitle 0] ++ events
          ++ [SetRawMode false])%list.
  split; [by apply noLaunch_selection|].
  world_norm. by rewrite <- !app_assoc.
Qed.
(** *** Rejected input in the numeric strategy *)

Lemma report_and_wait (app : ApplicationController) (w : World) (text : string)
    (line : string) (rest : list string) :
  lines w = line :: rest →
  (run consoleLog text; UIHandler.waitForEnter) app w =
    (Returned tt, app,
     withLines rest (withOutput (output w ++ [ConsoleLog text; pressEnter]) w)).
Proof.
  intros Hlines.
  unfold UIHandler.waitForEnter, question, consoleLog.
  unfold bind, emit, readLine, ret.
  destruct w as [oa rm pf ls ks cs pk out]. simpl in *. subst ls.
  unfold withLines, withOutput. simpl. by rewrite <- app_assoc.
Qed.








Lemma handleUserChoice_invalid (choice : Choice) (app : ApplicationController)
    (w : World) :
  getMenuItem (menuController app) (getCurrentMenu (menuController app)) choice = None →
  handleUserChoice choice app w =
    (run consoleLog (Js.red "无效的选择！"); UIHandler.waitForEnter) app w.
Proof.
  intros Hnone. unfold handleUserChoice. unfold bind at 1. unfold getApp at 1.
  by rewrite Hnone.
Qed.





Lemma showCurrentMenu_continues (turns : nat) (app app' : ApplicationController)
    (w w' : World) :
  showCurrentMenuTurn app w = (Returned tt, app', w') →
  showCurrentMenu (S turns) app w = showCurrentMenu turns app' w'.
Proof. intros Hturn. simpl. unfold bind at 1. by rewrite Hturn. Qed.






(** *** Commands in the two strategies *)

Lemma handleNavigationCommand_back (command : string) (mc : MenuController) :
  Js.toLowerCase command = "b" →
  handleNavigationCommand command mc = handleNavigationCommand "b" mc.
Proof. intros Hb. unfold handleNavigationCommand. by rewrite Hb. Qed.

Lemma handleNavigationCommand_home (command : string) (mc : MenuController) :
  Js.toLowerCase command = "m" →
  handleNavigationCommand command mc = (true, goToMainMenu mc).
Proof. intros Hm. unfold handleNavigationCommand. by rewrite Hm. Qed.

Lemma back_command_handled (mc : MenuController) :
  fst (handleNavigationCommand "b" mc) = true.
Proof.
  unfold handleNavigationCommand. simpl. destruct (goBack mc) as [[] mc']; done.
Qed.

Lemma numeric_turn_command (app : ApplicationController) (w : World)
    (line : string) (rest : list string) :
  inputMethodOf (Some (settingsConfig app)) = "num_input" →
  lines w = line :: rest →
  fst (handleNavigationCommand (answerOf line) (menuController app)) = true →
  showCurrentMenuTurn app w =
    (Returned tt,
     withMenuController
       (snd (handleNavigationCommand (answerOf line) (menuController app))) app,
     afterPrompt app w rest).
Proof.
  intros Hmode Hlines Hhandled.
  rewrite (numeric_turn_dispatch app w line rest Hmode Hlines).
  apply tryCatch_returned.
  erewrite bind_run by apply onMenuController_run.
  by rewrite Hhandled.
Qed.

Lemma interactive_turn_dispatch (app : ApplicationController) (w w' : World)
    (userChoice : Choice) :
  inputMethodOf (Some (settingsConfig app)) ≠ "num_input" →
  displayInteractiveCurrentMenu app w = (Returned userChoice, app, w') →
  showCurrentMenuTurn app w =
    tryCatch
      (if choiceIs userChoice "q" then
         run onMenuController goBack;
         ret tt
       else if choiceIs userChoice "m" then
         onMenuController (λ mc, (tt, goToMainMenu mc))
       else if choiceIs userChoice "p" then switchToolPackage
       else if negb (choiceTruthy userChoice) then
         run consoleLog (Js.red "输入不能为空！");
         UIHandler.waitForEnter
       else handleUserChoice userChoice)
      (λ message,
         run consoleLog (Js.red ("发生错误: " +:+ message));
         UIHandler.waitForEnter)
      app w'.
Proof.
  intros Hmode Hselect. unfold showCurrentMenuTurn, tryCatch.
  unfold bind at 1. unfold getApp at 1.
  apply String.eqb_neq in Hmode. rewrite Hmode.
  unfold bind at 1. by rewrite Hselect.
Qed.

Lemma interactive_turn_back (app : ApplicationController) (w w' : World) :
  inputMethodOf (Some (settingsConfig app)) ≠ "num_input" →
  displayInteractiveCurrentMenu app w = (Returned (ChoiceStr "q"), app, w') →
  showCurrentMenuTurn app w =
    (Returned tt, withMenuController (snd (goBack (menuController app))) app, w').
Proof.
  intros Hmode Hselect.
  rewrite (interactive_turn_dispatch app w w' _ Hmode Hselect). simpl.
  apply tryCatch_returned.
  erewrite bind_run by apply onMenuController_run. reflexivity.
Qed.

Lemma interactive_turn_home (app : ApplicationController) (w w' : World) :
  inputMethodOf (Some (settingsConfig app)) ≠ "num_input" →
  displayInteractiveCurrentMenu app w = (Returned (ChoiceStr "m"), app, w') →
  showCurrentMenuTurn app w =
    (Returned tt, withMenuController (goToMainMenu (menuController app)) app, w').
Proof.
  intros Hmode Hselect.
  rewrite (interactive_turn_dispatch app w w' _ Hmode Hselect). simpl.
  apply tryCatch_returned. by rewrite onMenuController_run.
Qed.

Lemma displayInteractiveCurrentMenu_select (app : ApplicationController) (w : World)
    (m : Menu) (its : list MenuItem) :
  lookupMenu (mc_config (menuController app)) (getCurrentMenu (menuController app))
  = Some m →
  items m = Some its →
  displayInteractiveCurrentMenu app w =
    UIHandler.selectWithArrowKeys (map (λ item, (id item, label item)) its)
      (title m) app w.
Proof.
  intros Hm Hi. unfold displayInteractiveCurrentMenu. unfold bind at 1.
  unfold getApp at 1. unfold ArrowMenuEngine.displayInteractiveMenu.
  by rewrite Hm, Hi.
Qed.

Lemma handleUserChoice_item (choice : Choice) (app : ApplicationController)
    (w : World) (item : MenuItem) :
  getMenuItem (menuController app) (getCurrentMenu (menuController app)) choice
  = Some item →
  handleUserChoice choice app w =
    match kind item with
    | Submenu submenu => onMenuController (λ mc, (tt, setCurrentMenu submenu mc))
    | Executable path =>
        do w <- getWorld;
        let selectedArch := getSystemArchitecture (osArch w) in
        do exit <-
          (if archPickerEnabled (settingsConfig app) then
             tryCatch
               (do userChoice <- UIHandler.architecturePicker (settingsConfig app);
                ret (UseArchitecture (Js.orString userChoice selectedArch)))
               (λ message,
                  if (message =? "BACK_TO_PARENT_MENU")%string then
                    ret ReturnNull
                  else if (message =? "BACK_TO_MAIN_MENU")%string then
                    run onMenuController (λ mc, (tt, goToMainMenu mc));
                    ret ReturnNull
                  else
                    throw message)
           else ret (UseArchitecture selectedArch));
        match exit with
        | ReturnNull => ret tt
        | UseArchitecture arch =>
            executeTool path (Some arch) (Some (toolPackageDir app))
        end
    | Back =>
        run onMenuController goBack;
        ret tt
    | Main => onMenuController (λ mc, (tt, goToMainMenu mc))
    | OtherType _ =>
        run consoleLog (Js.red "未知的菜单项类型！");
        UIHandler.waitForEnter
    end app w.
Proof.
  intros Hitem. unfold handleUserChoice. unfold bind at 1. unfold getApp at 1.
  by rewrite Hitem.
Qed.

(** C5. On a NavigationStack of depth two or more, back removes the top
    element and leaves the elements below as they were; on one of depth
    one it changes nothing.  This is so for [goBack] itself, for the
    command b (in either case) of the numeric strategy, whole turn
    included, and for the q that the interactive strategy returns when
    the left arrow is pressed, at whatever position the cursor was moved
    to before. *)
Theorem back_pops_one_level (app : ApplicationController) :
  isNavigationStack (stackOf app) →
  backEffect (stackOf app) (menuStack (snd (goBack (menuController app))))
  ∧ backEffect (stackOf app)
      (menuStack (snd (handleNavigationCommand "b" (menuController app))))
  ∧ backEffect (stackOf app)
      (menuStack (snd (handleNavigationCommand "B" (menuController app))))
  ∧ (∀ w line rest,
       inputMethodOf (Some (settingsConfig app)) = "num_input" →
       lines w = line :: rest →
       Js.toLowerCase (answerOf line) = "b" →
       outcomeOf (showCurrentMenuTurn app w) = Returned tt
       ∧ backEffect (stackOf app) (stackOf (appAfter (showCurrentMenuTurn app w))))
  ∧ (∀ w w',
       inputMethodOf (Some (settingsConfig app)) ≠ "num_input" →
       displayInteractiveCurrentMenu app w = (Returned (ChoiceStr "q"), app, w') →
       outcomeOf (showCurrentMenuTurn app w) = Returned tt
       ∧ backEffect (stackOf app) (stackOf (appAfter (showCurrentMenuTurn app w))))
  ∧ (∀ w m its moves rest,
       inputMethodOf (Some (settingsConfig app)) ≠ "num_input" →
       lookupMenu (mc_config (menuController app))
         (getCurrentMenu (menuController app)) = Some m →
       items m = Some its →
       rawModeAvailable w = true →
       forallb movesCursor moves = true →
       keys w = (moves ++ UIHandler.keyLeft :: rest)%list →
       outcomeOf (showCurrentMenuTurn app w) = Returned tt
       ∧ backEffect (stackOf app) (stackOf (appAfter (showCurrentMenuTurn app w)))).
Proof.
  intros Hnav.
  assert (backEffect (stackOf app)
            (menuStack (snd (handleNavigationCommand "b" (menuController app)))))
    as Hb by (by apply back_command_backEffect).
  split; [apply goBack_backEffect|].
  split; [exact Hb|]. split; [exact Hb|].
  split; [|split].
  - intros w line rest Hmode Hlines Hcommand.
    rewrite (numeric_turn_command app w line rest Hmode Hlines)
      by (rewrite (handleNavigationCommand_back _ _ Hcommand);
          apply back_command_handled).
    rewrite (handleNavigationCommand_back _ _ Hcommand).
    split; [reflexivity|exact Hb].
  - intros w w' Hmode Hselect.
    rewrite (interactive_turn_back app w w' Hmode Hselect).
    split; [reflexivity|apply goBack_backEffect].
  - intros w m its moves rest Hmode Hm Hi Hraw Hmoves Hkeys.
    destruct (selectWithArrowKeys_command (map (λ item, (id item, label item)) its)
                (title m) app w moves _ _ rest Hraw Hmoves left_arrow_q Hkeys)
      as (events & _ & Hselect).
    erewrite interactive_turn_back; [|exact Hmode|].
    + split; [reflexivity|apply goBack_backEffect].
    + rewrite (displayInteractiveCurrentMenu_select app w m its Hm Hi).
      exact Hselect.
Qed.

Lemma back_pops_one_level_witness :
  let numeric := exampleApp gpuMenus (Some "num_input") false ["main"; "gpu"] in
  let arrows := exampleApp gpuMenus (Some "arrow_input") false ["main"] in
  backEffect ["main"; "gpu"] (menuStack (snd (goBack (menuController numeric))))
  ∧ backEffect ["main"; "gpu"]
      (stackOf (appAfter (showCurrentMenuTurn numeric (exampleWorld [" B "] [] []))))
  ∧ backEffect ["main"]
      (stackOf (appAfter (showCurrentMenuTurn arrows
                            (exampleWorld []
                               [UIHandler.keyDown; "x"; UIHandler.keyLeft] [])))).
Proof.
  intros numeric arrows.
  assert (isNavigationStack (stackOf numeric)) as Hn by (by split).
  assert (isNavigationStack (stackOf arrows)) as Ha by (by split).
  pose proof (back_pops_one_level numeric Hn) as (Hback & _ & _ & Hturn & _).
  pose proof (back_pops_one_level arrows Ha) as (_ & _ & _ & _ & _ & Hleft).
  split; [exact Hback|]. split.
  - apply (Hturn (exampleWorld [" B "] [] []) " B " []); reflexivity.
  - refine (proj2 (Hleft (exampleWorld [] [UIHandler.keyDown; "x"; UIHandler.keyLeft] [])
                     mainMenu _ [UIHandler.keyDown; "x"] []
                     _ _ eq_refl eq_refl _ eq_refl)).
    + discriminate.
    + vm_compute. reflexivity.
    + vm_compute. reflexivity.
Defined.

(** C6. Home resets the NavigationStack, whatever its depth, to exactly
    the one-element sequence main: [goToMainMenu] itself, the command m
    (in either case) of the numeric strategy, whole turn included, the m
    that the interactive strategy returns when the right arrow is
    pressed, and the selection of an item of type main. *)
Theorem home_resets_to_root (app : ApplicationController) :
  menuStack (goToMainMenu (menuController app)) = ["main"]
  ∧ menuStack (snd (handleNavigationCommand "m" (menuController app))) = ["main"]
  ∧ menuStack (snd (handleNavigationCommand "M" (menuController app))) = ["main"]
  ∧ (∀ w line rest,
       inputMethodOf (Some (settingsConfig app)) = "num_input" →
       lines w = line :: rest →
       Js.toLowerCase (answerOf line) = "m" →
       outcomeOf (showCurrentMenuTurn app w) = Returned tt
       ∧ stackOf (appAfter (showCurrentMenuTurn app w)) = ["main"])
  ∧ (∀ w w',
       inputMethodOf (Some (settingsConfig app)) ≠ "num_input" →
       displayInteractiveCurrentMenu app w = (Returned (ChoiceStr "m"), app, w') →
       outcomeOf (showCurrentMenuTurn app w) = Returned tt
       ∧ stackOf (appAfter (showCurrentMenuTurn app w)) = ["main"])
  ∧ (∀ w m its moves rest,
       inputMethodOf (Some (settingsConfig app)) ≠ "num_input" →
       lookupMenu (mc_config (menuController app))
         (getCurrentMenu (menuController app)) = Some m →
       items m = Some its →
       rawModeAvailable w = true →
       forallb movesCursor moves = true →
       keys w = (moves ++ UIHandler.keyRight :: rest)%list →
       outcomeOf (showCurrentMenuTurn app w) = Returned tt
       ∧ stackOf (appAfter (showCurrentMenuTurn app w)) = ["main"])
  ∧ (∀ w choice item,
       getMenuItem (menuController app) (getCurrentMenu (menuController app)) choice
       = Some item →
       kind item = Main →
       outcomeOf (handleUserChoice choice app w) = Returned tt
       ∧ stackOf (appAfter (handleUserChoice choice app w)) = ["main"]).
Proof.
  split; [reflexivity|]. split; [reflexivity|]. split; [reflexivity|].
  split; [|split; [|split]].
  - intros w line rest Hmode Hlines Hcommand.
    rewrite (numeric_turn_command app w line rest Hmode Hlines)
      by (by rewrite (handleNavigationCommand_home _ _ Hcommand)).
    by rewrite (handleNavigationCommand_home _ _ Hcommand).
  - intros w w' Hmode Hselect.
    by rewrite (interactive_turn_home app w w' Hmode Hselect).
  - intros w m its moves rest Hmode Hm Hi Hraw Hmoves Hkeys.
    destruct (selectWithArrowKeys_command (map (λ item, (id item, label item)) its)
                (title m) app w moves _ _ rest Hraw Hmoves right_arrow_m Hkeys)
      as (events & _ & Hselect).
    erewrite interactive_turn_home; [done|exact Hmode|].
    rewrite (displayInteractiveCurrentMenu_select app w m its Hm Hi).
    exact Hselect.
  - intros w choice item Hitem Hkind.
    rewrite (handleUserChoice_item choice app w item Hitem), Hkind.
    by rewrite onMenuController_run.
Qed.

Lemma home_resets_to_root_witness :
  let numeric := exampleApp gpuMenus (Some "num_input") false ["main"; "gpu"] in
  let arrows := exampleApp gpuMenus (Some "arrow_input") false ["main"; "gpu"] in
  stackOf (appAfter (showCurrentMenuTurn numeric (exampleWorld ["m"] [] [])))
  = ["main"]
  ∧ stackOf (appAfter (showCurrentMenuTurn arrows
                         (exampleWorld [] [UIHandler.keyUp; UIHandler.keyRight] [])))
    = ["main"].
Proof.
  intros numeric arrows.
  pose proof (home_resets_to_root numeric) as (_ & _ & _ & Hturn & _).
  pose proof (home_resets_to_root arrows) as (_ & _ & _ & _ & _ & Hright & _).
  split.
  - apply (Hturn (exampleWorld ["m"] [] []) "m" []); reflexivity.
  - refine (proj2 (Hright (exampleWorld [] [UIHandler.keyUp; UIHandler.keyRight] [])
                     gpuMenu _ [UIHandler.keyUp] []
                     _ _ eq_refl eq_refl _ eq_refl)).
    + discriminate.
    + vm_compute. reflexivity.
    + vm_compute. reflexivity.
Defined.

(** *** The tool executor *)

Lemma executeTool_run (toolPath : ToolPath) (arch dir : option string)
    (app : ApplicationController) (w : World)
    (child : ChildOutcome) (others : list ChildOutcome)
    (enter : string) (rest : list string) :
  children w = child :: others →
  lines w = enter :: rest →
  let architecture := Js.orString arch (getSystemArchitecture (osArch w)) in
  let resolvedPath := resolvePath toolPath architecture in
  executeTool toolPath arch dir app w =
    (Returned tt, app,
     withLines rest
       (withChildren others
          (withOutput
             (output w ++
                [runningLine architecture resolvedPath;
                 Spawn resolvedPath (if Js.truthy dir then dir else None)]
                ++ childReport child ++ [pressEnterReturnMenu])
             w))).
Proof.
  intros Hchildren Hlines.
  destruct w as [oa rm pf ls ks cs pk out]. simpl in *. subst cs ls.
  unfold executeTool, UIHandler.waitForEnterReturnMenu, question, consoleLog.
  unfold tryCatch, bind, getWorld, emit, nextChild, readLine, ret, throw,
    withLines, withChildren, withOutput, runningLine, childReport, closeReport.
  simpl. destruct child as [code|message code|message]; simpl.
  - destruct (codeIsZero code); simpl; by rewrite <- !app_assoc.
  - destruct (codeIsZero code); simpl; by rewrite <- !app_assoc.
  - by rewrite <- !app_assoc.
Qed.

Lemma executeTool_outcome (toolPath : ToolPath) (arch dir : option string)
    (app : ApplicationController) (w : World) :
  outcomeOf (executeTool toolPath arch dir app w) = Returned tt
  ∨ outcomeOf (executeTool toolPath arch dir app w) = Blocked.
Proof.
  destruct w as [oa rm pf ls ks cs pk out].
  unfold executeTool, UIHandler.waitForEnterReturnMenu, question, consoleLog.
  unfold tryCatch, bind, getWorld, emit, nextChild, readLine, ret, throw, outcomeOf.
  simpl. destruct cs as [|[code|message code|message] cs]; simpl.
  - by right.
  - destruct (codeIsZero code); simpl; destruct ls; simpl; auto.
  - destruct (codeIsZero code); simpl; destruct ls; simpl; auto.
  - destruct ls; simpl; auto.
Qed.

(** C9. For every tool launched, whatever becomes of the call of
    [spawn] (the child closes with code zero, with a non-zero code or
    no code; the spawn fails, and the child emits error and then close
    with the number of the error; or the call itself throws),
    [executeTool] reports what happened and returns normally, leaving
    the controller as it was; the last thing it does is to ask the
    operator to press Enter, which it awaits before it returns to the
    menu loop.  It never throws and never ends the process: without
    input to read it waits.  For a spawn that failed the report is
    the error, the return code of the close that follows, and the
    error again. *)
Theorem executeTool_never_fails (toolPath : ToolPath) (arch dir : option string)
    (app : ApplicationController) (w : World) :
  (outcomeOf (executeTool toolPath arch dir app w) = Returned tt
   ∨ outcomeOf (executeTool toolPath arch dir app w) = Blocked)
  ∧ appAfter (executeTool toolPath arch dir app w) = app
  ∧ (∀ child others enter rest,
       children w = child :: others →
       lines w = enter :: rest →
       outcomeOf (executeTool toolPath arch dir app w) = Returned tt
       ∧ (∃ before : list Event,
            output (worldAfter (executeTool toolPath arch dir app w))
            = (before ++ childReport child ++ [pressEnterReturnMenu])%list)
       ∧ lines (worldAfter (executeTool toolPath arch dir app w)) = rest
       ∧ (∀ code,
            child = ChildClose code ∨ (∃ message, child = ChildError message code) →
            codeIsZero code = false →
            ConsoleLog (Js.red ("命令执行结束，返回码：" +:+ showCode code))
              ∈ output (worldAfter (executeTool toolPath arch dir app w)))
       ∧ (∀ message,
            (∃ code, child = ChildError message code) ∨ child = SpawnThrows message →
            ConsoleLog (Js.red ("执行命令时出错：" +:+ message))
              ∈ output (worldAfter (executeTool toolPath arch dir app w))))
  ∧ (∀ message code,
       childReport (ChildError message code)
       = [ConsoleLog (Js.red ("执行命令时出错：" +:+ message));
          closeReport code;
          ConsoleLog (Js.red ("执行命令时出错：" +:+ message))]).
Proof.
  split; [apply executeTool_outcome|].
  split; [apply keepsApp_executeTool|].
  split; [|reflexivity].
  intros child others enter rest Hchildren Hlines.
  rewrite (executeTool_run toolPath arch dir app w child others enter rest
             Hchildren Hlines).
  split; [reflexivity|]. split; [|split; [reflexivity|split]].
  - exists (output w ++
              [runningLine (Js.orString arch (getSystemArchitecture (osArch w)))
                 (resolvePath toolPath
                    (Js.orString arch (getSystemArchitecture (osArch w))));
               Spawn (resolvePath toolPath
                        (Js.orString arch (getSystemArchitecture (osArch w))))
                 (if Js.truthy dir then dir else None)])%list.
    unfold worldAfter. simpl. by rewrite <- app_assoc.
  - intros code [-> | [message ->]] Hcode; unfold worldAfter; simpl;
      unfold closeReport; rewrite Hcode; simpl;
      apply elem_of_app; right;
      repeat first [apply list_elem_of_here | apply list_elem_of_further].
  - intros message [[code ->] | ->]; unfold worldAfter; simpl;
      apply elem_of_app; right;
      repeat first [apply list_elem_of_here | apply list_elem_of_further].
Qed.

Lemma executeTool_never_fails_witness :
  let app := exampleApp gpuMenus (Some "num_input") false ["main"; "gpu"] in
  let failed := exampleWorld [""] [] [ChildClose (Some 3)] in
  let missing :=
    exampleWorld [""] [] [ChildError "spawn /bin/sh ENOENT" (Some (-2))] in
  outcomeOf (executeTool (PathString "furmark") None (Some "/tools") app failed)
  = Returned tt
  ∧ ConsoleLog (Js.red "命令执行结束，返回码：3")
      ∈ output (worldAfter
                  (executeTool (PathString "furmark") None (Some "/tools") app failed))
  ∧ outcomeOf (executeTool (PathString "furmark") None (Some "/tools") app missing)
    = Returned tt
  ∧ ConsoleLog (Js.red "执行命令时出错：spawn /bin/sh ENOENT")
      ∈ output (worldAfter
                  (executeTool (PathString "furmark") None (Some "/tools") app missing))
  ∧ ConsoleLog (Js.red "命令执行结束，返回码：-2")
      ∈ output (worldAfter
                  (executeTool (PathString "furmark") None (Some "/tools") app missing)).
Proof.
  intros app failed missing.
  pose proof (executeTool_never_fails (PathString "furmark") None (Some "/tools")
                app failed) as (_ & _ & Hfailed & _).
  pose proof (executeTool_never_fails (PathString "furmark") None (Some "/tools")
                app missing) as (_ & _ & Hmissing & _).
  destruct (Hfailed (ChildClose (Some 3)) [] "" [] eq_refl eq_refl)
    as (Hret & _ & _ & Hcode & _).
  destruct (Hmissing (ChildError "spawn /bin/sh ENOENT" (Some (-2))) [] "" []
              eq_refl eq_refl)
    as (Hret' & _ & _ & Hcode' & Herror).
  split; [exact Hret|].
  split; [exact (Hcode (Some 3) (or_introl eq_refl) eq_refl)|].
  split; [exact Hret'|].
  split; [apply Herror; left; by eexists|].
  apply (Hcode' (Some (-2))); [right; by eexists|reflexivity].
Defined.
(** *** Selecting a submenu *)

Lemma getCurrentMenu_pushed (menuId : string) (mc : MenuController) :
  getCurrentMenu (setCurrentMenu menuId mc) = Some menuId.
Proof. unfold getCurrentMenu, setCurrentMenu. simpl. apply last_snoc. Qed.

Lemma displayInteractiveCurrentMenu_missing (app : ApplicationController) (w : World) :
  lookupMenu (mc_config (menuController app)) (getCurrentMenu (menuController app))
  = None →
  displayInteractiveCurrentMenu app w =
    (Returned ChoiceNull, app,
     withOutput
       (output w ++
          [ConsoleLog
             (Js.red ("菜单不存在: " +:+ Js.show (getCurrentMenu (menuController app))))])
       w).
Proof.
  intros Hmissing. unfold displayInteractiveCurrentMenu. unfold bind at 1.
  unfold getApp at 1. unfold ArrowMenuEngine.displayInteractiveMenu.
  by rewrite Hmissing.
Qed.

Lemma displayInteractiveCurrentMenu_noItems (app : ApplicationController) (w : World)
    (m : Menu) :
  lookupMenu (mc_config (menuController app)) (getCurrentMenu (menuController app))
  = Some m →
  items m = None →
  displayInteractiveCurrentMenu app w =
    (Returned ChoiceNull, app,
     withOutput (output w ++ [ConsoleLog (Js.red "菜单项不存在或格式错误")]) w).
Proof.
  intros Hm Hitems. unfold displayInteractiveCurrentMenu. unfold bind at 1.
  unfold getApp at 1. unfold ArrowMenuEngine.displayInteractiveMenu.
  by rewrite Hm, Hitems.
Qed.

(** C2, as stated, fails: in the tree whose main menu refers to the
    submenu gpu that does not exist, selecting that item in the
    arrow-key strategy changes the NavigationStack (the missing id is
    pushed) and reports nothing. *)
Lemma missing_submenu_is_pushed :
  let app := exampleApp brokenMenus (Some "arrow_input") false ["main"] in
  let w := exampleWorld [""] [] [] in
  getMenuItem (menuController app) (getCurrentMenu (menuController app))
    (ChoiceNum 1)
  = ArrowMenuEngine.getMenuItem brokenMenus (Some "main") (ChoiceNum 1)
  ∧ ArrowMenuEngine.getMenuItem brokenMenus (Some "main") (ChoiceNum 1)
    = Some gpuItem
  ∧ kind gpuItem = Submenu "gpu"
  ∧ menu brokenMenus !! "gpu" = None
  ∧ lookupMenu brokenMenus (Some "gpu") = None
  ∧ ¬ (stackOf (appAfter (handleUserChoice (ChoiceNum 1) app w)) = stackOf app)
  ∧ ¬ (InvalidSelection ∈ output (worldAfter (handleUserChoice (ChoiceNum 1) app w)))
  ∧ output (worldAfter (handleUserChoice (ChoiceNum 1) app w)) = []
  ∧ stackOf (appAfter (handleUserChoice (ChoiceNum 1) app w)) = ["main"; "gpu"].
Proof.
  intros app w.
  split; [by vm_compute|]. split; [by vm_compute|]. split; [reflexivity|].
  split; [by vm_compute|]. split; [by vm_compute|].
  split; [|split; [|split]].
  - intros Hstack. vm_compute in Hstack. discriminate Hstack.
  - intros Hin. vm_compute in Hin. by apply elem_of_nil in Hin.
  - by vm_compute.
  - by vm_compute.
Qed.

(** C2, amended. For every selection of a submenu-type item, whether or
    not the referenced submenu id exists in the menu tree, the selection
    is not checked against the tree: the submenu id is pushed on the
    NavigationStack and nothing is reported at the selection.  When the
    id is missing from the tree, the interactive strategy reports an
    error when it next displays the current menu and selects nothing,
    the stack still holding the id: the error is that the menu does not
    exist, with the id, or, when the id is the name of a property that
    every object inherits (such as constructor), that the menu has no
    items. *)
Theorem submenu_selection_pushes (app : ApplicationController) (w : World)
    (choice : Choice) (item : MenuItem) (submenu : string) :
  getMenuItem (menuController app) (getCurrentMenu (menuController app)) choice
  = Some item →
  kind item = Submenu submenu →
  let app' := withMenuController (setCurrentMenu submenu (menuController app)) app in
  handleUserChoice choice app w = (Returned tt, app', w)
  ∧ stackOf app' = (stackOf app ++ [submenu])%list
  ∧ (menu (mc_config (menuController app)) !! submenu = None →
     ∀ w', displayInteractiveCurrentMenu app' w' =
             (Returned ChoiceNull, app',
              withOutput
                (output w' ++
                   [ConsoleLog
                      (Js.red
                         (if Js.includes Js.objectPrototypeNames submenu then
                            "菜单项不存在或格式错误"
                          else "菜单不存在: " +:+ submenu))])
                w')).
Proof.
  intros Hitem Hkind app'.
  split; [|split; [reflexivity|]].
  - rewrite (handleUserChoice_item choice app w item Hitem), Hkind.
    by rewrite onMenuController_run.
  - intros Hmissing w'.
    assert (getCurrentMenu (menuController app') = Some submenu) as Hcurrent.
    { unfold app'. simpl. apply getCurrentMenu_pushed. }
    assert (mc_config (menuController app') = mc_config (menuController app))
      as Hconfig by reflexivity.
    destruct (Js.includes Js.objectPrototypeNames submenu) eqn:Hinherited.
    + apply (displayInteractiveCurrentMenu_noItems app' w' inheritedMember);
        [|reflexivity].
      rewrite Hcurrent, Hconfig. unfold lookupMenu.
      change (Js.show (Some submenu)) with submenu.
      by rewrite Hmissing, Hinherited.
    + rewrite displayInteractiveCurrentMenu_missing.
      * by rewrite Hcurrent.
      * rewrite Hcurrent, Hconfig. unfold lookupMenu.
      change (Js.show (Some submenu)) with submenu.
        by rewrite Hmissing, Hinherited.
Qed.

Lemma submenu_selection_pushes_witness :
  let app := exampleApp brokenMenus (Some "arrow_input") false ["main"] in
  let w := exampleWorld [] [] [] in
  let inherited :=
    {| menu :=
         {[ "main" :=
              {| title := "Main"; parent := None;
                 items :=
                   Some [ {| id := 1; label := "Broken";
                             kind := Submenu "constructor" |} ] |} ]} |} in
  let app2 := exampleApp inherited (Some "arrow_input") false ["main"] in
  (stackOf (appAfter (handleUserChoice (ChoiceNum 1) app w)) = ["main"; "gpu"]
   ∧ output (worldAfter (handleUserChoice (ChoiceNum 1) app w)) = []
   ∧ output (worldAfter
               (displayInteractiveCurrentMenu
                  (appAfter (handleUserChoice (ChoiceNum 1) app w)) w))
     = [ConsoleLog (Js.red "菜单不存在: gpu")])
  ∧ (stackOf (appAfter (handleUserChoice (ChoiceNum 1) app2 w))
     = ["main"; "constructor"]
     ∧ output (worldAfter
                 (displayInteractiveCurrentMenu
                    (appAfter (handleUserChoice (ChoiceNum 1) app2 w)) w))
       = [ConsoleLog (Js.red "菜单项不存在或格式错误")]).
Proof.
  intros app w inherited app2. split.
  - assert (getMenuItem (menuController app) (getCurrentMenu (menuController app))
              (ChoiceNum 1) = Some gpuItem) as Hitem by (by vm_compute).
    assert (menu (mc_config (menuController app)) !! "gpu" = None)
      as Hmissing by (by vm_compute).
    destruct (submenu_selection_pushes app w (ChoiceNum 1) gpuItem "gpu" Hitem
                eq_refl) as (Hrun & Hstack & Hshow).
    rewrite Hrun. split; [exact Hstack|]. split; [reflexivity|].
    cbn [appAfter fst snd]. by rewrite (Hshow Hmissing w).
  - assert (getMenuItem (menuController app2) (getCurrentMenu (menuController app2))
              (ChoiceNum 1)
            = Some {| id := 1; label := "Broken"; kind := Submenu "constructor" |})
      as Hitem by (by vm_compute).
    assert (menu (mc_config (menuController app2)) !! "constructor" = None)
      as Hmissing by (by vm_compute).
    destruct (submenu_selection_pushes app2 w (ChoiceNum 1) _ "constructor" Hitem
                eq_refl) as (Hrun & Hstack & Hshow).
    rewrite Hrun. split; [exact Hstack|].
    cbn [appAfter fst snd]. by rewrite (Hshow Hmissing w).
Defined.
(** *** The architecture picker *)

Lemma architecturePicker_command (sc : SettingsConfig) (app : ApplicationController)
    (w : World) (pickerConfig : PickerConfig) (moves : list string)
    (key token : string) (rest : list string) :
  inputMethodOf (Some sc) = "arrow_input" →
  archPickerFile w = inr pickerConfig →
  rawModeAvailable w = true →
  forallb movesCursor moves = true →
  commandKey key token →
  keys w = (moves ++ key :: rest)%list →
  ∃ events,
    noLaunch events
    ∧ UIHandler.architecturePicker sc app w =
        (Thrown (if (token =? "q")%string then "BACK_TO_PARENT_MENU"
                 else "BACK_TO_MAIN_MENU"),
         app, withKeys rest (withOutput (output w ++ events) w)).
Proof.
  intros Hmode Hfile Hraw Hmoves Hkey Hkeys.
  unfold UIHandler.architecturePicker. rewrite Hmode. simpl.
  unfold bind at 1. unfold getWorld at 1. simpl.
  unfold bind at 1. unfold getWorld at 1. rewrite Hfile.
  unfold bind at 1. unfold emit at 1. cbv beta iota.
  unfold bind at 1.
  match goal with
  | |- context [UIHandler.selectWithArrowKeys ?menuItems ?menuTitle app ?w1] =>
      destruct (selectWithArrowKeys_command menuItems menuTitle app w1 moves key
                  token rest)
        as (events & Hquiet & Hselect);
        [by destruct w|exact Hmoves|exact Hkey|by destruct w|]
  end.
  rewrite Hselect.
  exists (StdoutWrite UIHandler.clearScreen :: events). split.
  { by apply noLaunch_cons. }
  destruct Hkey; simpl; unfold throw;
    destruct w as [oa rm pf ls ks cs pk out];
    unfold withKeys, withOutput; simpl; by rewrite <- app_assoc.
Qed.

Lemma handleUserChoice_picker_back (choice : Choice) (app : ApplicationController)
    (w w' : World) (item : MenuItem) (path : ToolPath) :
  getMenuItem (menuController app) (getCurrentMenu (menuController app)) choice
  = Some item →
  kind item = Executable path →
  archPickerEnabled (settingsConfig app) = true →
  UIHandler.architecturePicker (settingsConfig app) app w
  = (Thrown "BACK_TO_PARENT_MENU", app, w') →
  handleUserChoice choice app w = (Returned tt, app, w').
Proof.
  intros Hitem Hkind Henabled Hpicker.
  rewrite (handleUserChoice_item choice app w item Hitem), Hkind, Henabled.
  unfold bind at 1. unfold getWorld at 1.
  unfold bind at 1. unfold tryCatch. unfold bind at 1. by rewrite Hpicker.
Qed.

Lemma handleUserChoice_picker_home (choice : Choice) (app : ApplicationController)
    (w w' : World) (item : MenuItem) (path : ToolPath) :
  getMenuItem (menuController app) (getCurrentMenu (menuController app)) choice
  = Some item →
  kind item = Executable path →
  archPickerEnabled (settingsConfig app) = true →
  UIHandler.architecturePicker (settingsConfig app) app w
  = (Thrown "BACK_TO_MAIN_MENU", app, w') →
  handleUserChoice choice app w =
    (Returned tt, withMenuController (goToMainMenu (menuController app)) app, w').
Proof.
  intros Hitem Hkind Henabled Hpicker.
  rewrite (handleUserChoice_item choice app w item Hitem), Hkind, Henabled.
  unfold bind at 1. unfold getWorld at 1.
  unfold bind at 1. unfold tryCatch. unfold bind at 1. by rewrite Hpicker.
Qed.

(** C8. When the architecture picker is entered during the dispatch of
    an executable item and the operator chooses back (the picker throws
    BACK_TO_PARENT_MENU; with the arrow keys, the left arrow, at
    whatever position of the cursor), the selection returns to the
    calling menu with the NavigationStack as it was and nothing is
    launched; when the operator chooses home (the picker throws
    BACK_TO_MAIN_MENU; with the arrow keys, the right arrow), the
    NavigationStack is reset to exactly the root and nothing is launched
    either. *)
Theorem picker_cancel_skips_executor (app : ApplicationController) (w : World)
    (choice : Choice) (item : MenuItem) (path : ToolPath) :
  getMenuItem (menuController app) (getCurrentMenu (menuController app)) choice
  = Some item →
  kind item = Executable path →
  archPickerEnabled (settingsConfig app) = true →
  (∀ app' w',
     UIHandler.architecturePicker (settingsConfig app) app w
     = (Thrown "BACK_TO_PARENT_MENU", app', w') →
     handleUserChoice choice app w = (Returned tt, app, w')
     ∧ stackOf (appAfter (handleUserChoice choice app w)) = stackOf app
     ∧ spawned (worldAfter (handleUserChoice choice app w)) = spawned w)
  ∧ (∀ app' w',
       UIHandler.architecturePicker (settingsConfig app) app w
       = (Thrown "BACK_TO_MAIN_MENU", app', w') →
       handleUserChoice choice app w
       = (Returned tt, withMenuController (goToMainMenu (menuController app)) app, w')
       ∧ stackOf (appAfter (handleUserChoice choice app w)) = ["main"]
       ∧ spawned (worldAfter (handleUserChoice choice app w)) = spawned w)
  ∧ (∀ pickerConfig moves rest,
       inputMethodOf (Some (settingsConfig app)) = "arrow_input" →
       archPickerFile w = inr pickerConfig →
       rawModeAvailable w = true →
       forallb movesCursor moves = true →
       keys w = (moves ++ UIHandler.keyLeft :: rest)%list →
       outcomeOf (handleUserChoice choice app w) = Returned tt
       ∧ stackOf (appAfter (handleUserChoice choice app w)) = stackOf app
       ∧ spawned (worldAfter (handleUserChoice choice app w)) = spawned w
       ∧ children (worldAfter (handleUserChoice choice app w)) = children w)
  ∧ (∀ pickerConfig moves rest,
       inputMethodOf (Some (settingsConfig app)) = "arrow_input" →
       archPickerFile w = inr pickerConfig →
       rawModeAvailable w = true →
       forallb movesCursor moves = true →
       keys w = (moves ++ UIHandler.keyRight :: rest)%list →
       outcomeOf (handleUserChoice choice app w) = Returned tt
       ∧ stackOf (appAfter (handleUserChoice choice app w)) = ["main"]
       ∧ spawned (worldAfter (handleUserChoice choice app w)) = spawned w
       ∧ children (worldAfter (handleUserChoice choice app w)) = children w).
Proof.
  intros Hitem Hkind Henabled.
  assert (∀ message app' w',
            UIHandler.architecturePicker (settingsConfig app) app w
            = (Thrown message, app', w') →
            app' = app ∧ spawned w' = spawned w) as Hframe.
  { intros message app' w' Hpicker.
    pose proof (keepsApp_architecturePicker (settingsConfig app) app w) as Hkeep.
    pose proof (quiet_architecturePicker (settingsConfig app) app w) as Hquiet.
    rewrite Hpicker in Hkeep, Hquiet. by split. }
  assert (∀ w',
            UIHandler.architecturePicker (settingsConfig app) app w
            = (Thrown "BACK_TO_PARENT_MENU", app, w') →
            handleUserChoice choice app w = (Returned tt, app, w')) as Hback.
  { intros w'. by apply handleUserChoice_picker_back with (item := item) (path := path). }
  assert (∀ w',
            UIHandler.architecturePicker (settingsConfig app) app w
            = (Thrown "BACK_TO_MAIN_MENU", app, w') →
            handleUserChoice choice app w
            = (Returned tt,
               withMenuController (goToMainMenu (menuController app)) app, w'))
    as Hhome.
  { intros w'. by apply handleUserChoice_picker_home with (item := item) (path := path). }
  split; [|split; [|split]].
  - intros app' w' Hpicker. destruct (Hframe _ _ _ Hpicker) as [-> Hquiet].
    by rewrite (Hback w' Hpicker).
  - intros app' w' Hpicker. destruct (Hframe _ _ _ Hpicker) as [-> Hquiet].
    by rewrite (Hhome w' Hpicker).
  - intros pickerConfig moves rest Hmode Hfile Hraw Hmoves Hkeys.
    destruct (architecturePicker_command (settingsConfig app) app w pickerConfig
                moves _ _ rest Hmode Hfile Hraw Hmoves left_arrow_q Hkeys)
      as (events & _ & Hpicker).
    simpl in Hpicker. destruct (Hframe _ _ _ Hpicker) as [_ Hquiet].
    rewrite (Hback _ Hpicker). by destruct w.
  - intros pickerConfig moves rest Hmode Hfile Hraw Hmoves Hkeys.
    destruct (architecturePicker_command (settingsConfig app) app w pickerConfig
                moves _ _ rest Hmode Hfile Hraw Hmoves right_arrow_m Hkeys)
      as (events & _ & Hpicker).
    simpl in Hpicker. destruct (Hframe _ _ _ Hpicker) as [_ Hquiet].
    rewrite (Hhome _ Hpicker). by destruct w.
Qed.

Lemma picker_cancel_skips_executor_witness :
  let app := exampleApp gpuMenus (Some "arrow_input") true ["main"; "gpu"] in
  let furmark :=
    {| id := 1; label := "FurMark"; kind := Executable (PathString "furmark") |} in
  let back :=
    exampleWorld [""] [UIHandler.keyDown; UIHandler.keyLeft] [ChildClose (Some 0)] in
  let home := exampleWorld [""] [UIHandler.keyRight] [ChildClose (Some 0)] in
  (stackOf (appAfter (handleUserChoice (ChoiceNum 1) app back)) = ["main"; "gpu"]
   ∧ spawned (worldAfter (handleUserChoice (ChoiceNum 1) app back)) = [])
  ∧ (stackOf (appAfter (handleUserChoice (ChoiceNum 1) app home)) = ["main"]
     ∧ spawned (worldAfter (handleUserChoice (ChoiceNum 1) app home)) = []).
Proof.
  intros app furmark back home.
  assert (getMenuItem (menuController app) (getCurrentMenu (menuController app))
            (ChoiceNum 1) = Some furmark) as Hitem by (by vm_compute).
  pose proof (picker_cancel_skips_executor app back (ChoiceNum 1) furmark
                (PathString "furmark") Hitem eq_refl eq_refl)
    as (_ & _ & Hleft & _).
  pose proof (picker_cancel_skips_executor app home (ChoiceNum 1) furmark
                (PathString "furmark") Hitem eq_refl eq_refl)
    as (_ & _ & _ & Hright).
  split.
  - destruct (Hleft _ [UIHandler.keyDown] [] eq_refl eq_refl eq_refl eq_refl eq_refl)
      as (_ & Hstack & Hquiet & _).
    by split.
  - destruct (Hright _ [] [] eq_refl eq_refl eq_refl eq_refl eq_refl)
      as (_ & Hstack & Hquiet & _).
    by split.
Defined.

(** *** Scenarios of the spec *)

(** The end-to-end scenario: in the tree with the main menu and the
    submenu gpu, the choices 1 and 1 enter gpu and launch furmark once;
    the loop is then back in the menu gpu. *)
Example end_to_end_scenario :
  let app := initialController gpuMenus (settingsWith None false)
               "/tools/config" "/tools" in
  let w := exampleWorld ["1"; "1"; ""] [] [ChildClose (Some 0)] in
  outcomeOf (showCurrentMenu 2 app w) = Returned tt
  ∧ stackOf (appAfter (showCurrentMenu 2 app w)) = ["main"; "gpu"]
  ∧ spawned (worldAfter (showCurrentMenu 2 app w))
    = [Spawn (Some "furmark") (Some "/tools")].
Proof. vm_compute. done. Qed.

(** The cursor of the interactive strategy wraps: with three items, up
    from index 0 goes to index 2 and down from there returns to 0. *)
Example cursor_wraps :
  let menuItems := [(1, "a"); (2, "b"); (3, "c")] in
  let app := exampleApp gpuMenus (Some "arrow_input") false ["main"] in
  let w := exampleWorld [] [UIHandler.keyUp; UIHandler.keyDown; UIHandler.keyReturn] [] in
  outcomeOf (UIHandler.selectWithArrowKeys menuItems "Menu" app w)
  = Returned (ChoiceNum 1)
  ∧ output (worldAfter (UIHandler.selectWithArrowKeys menuItems "Menu" app w))
    = [SetRawMode true; SetRawMode true; RenderMenu "Menu" 0; RenderMenu "Menu" 2;
       RenderMenu "Menu" 0; SetRawMode false].
Proof. vm_compute. done. Qed.
(** ** Further properties *)

(** *** The tool executor, further *)

Lemma getProperty_value (entries : list (string * string)) (key p : string) :
  getProperty entries key = Some p → p ∈ objectValues entries.
Proof.
  unfold getProperty, objectValues. induction entries as [|[k v] entries IH]; simpl.
  - discriminate.
  - destruct (k =? key)%string; simpl.
    + intros [= ->]. apply list_elem_of_here.
    + intros H. apply list_elem_of_further. by apply IH.
Qed.

(** X1. For an architecture that is none of the names every object
    inherits, the path resolved from a mapping is always one of the
    paths of the mapping, and it is undefined exactly when the mapping
    has no entry. *)
Theorem resolvePath_in_mapping (entries : list (string * string)) (architecture : string) :
  ownKey architecture →
  (∀ p, resolvePath (PathObject entries) architecture = Some p →
        p ∈ objectValues entries)
  ∧ (resolvePath (PathObject entries) architecture = None ↔ entries = []).
Proof.
  intros _. rewrite resolvePath_object. unfold nonEmptyEntry. split.
  - intros p.
    destruct (getProperty entries architecture) as [a|] eqn:Ea.
    + destruct (a =? "")%string.
      * destruct (getProperty entries "X86_64") as [b|] eqn:Eb.
        -- destruct (b =? "")%string.
           ++ intros H. apply head_Some_elem_of. exact H.
           ++ intros [= <-]. by apply (getProperty_value entries "X86_64").
        -- intros H. by apply head_Some_elem_of.
      * intros [= <-]. by apply (getProperty_value entries architecture).
    + destruct (getProperty entries "X86_64") as [b|] eqn:Eb.
      * destruct (b =? "")%string.
        -- intros H. by apply head_Some_elem_of.
        -- intros [= <-]. by apply (getProperty_value entries "X86_64").
      * intros H. by apply head_Some_elem_of.
  - destruct entries as [|[k v] entries].
    + by split.
    + split; [|discriminate]. simpl.
      unfold getProperty. simpl.
      repeat (case_match; simplify_eq/=); try discriminate.
Qed.

Lemma resolvePath_in_mapping_witness :
  resolvePath (PathObject [("ARM64", "a"); ("X86_64", "b")]) "X86" = Some "b"
  ∧ "b" ∈ objectValues [("ARM64", "a"); ("X86_64", "b")].
Proof.
  split; [reflexivity|].
  exact (proj1 (resolvePath_in_mapping [("ARM64", "a"); ("X86_64", "b")] "X86"
                  eq_refl)
           "b" eq_refl).
Defined.

Lemma filter_isSpawn_snoc (events : list Event) (e : Event) :
  List.filter isSpawn (events ++ [e]) =
    (List.filter isSpawn events ++ if isSpawn e then [e] else [])%list.
Proof. rewrite List.filter_app. simpl. by destruct (isSpawn e). Qed.

Lemma executeTool_spawned (toolPath : ToolPath) (arch dir : option string)
    (app : ApplicationController) (w : World) :
  spawned (worldAfter (executeTool toolPath arch dir app w)) =
    (spawned w ++
       [Spawn (resolvePath toolPath
                 (Js.orString arch (getSystemArchitecture (osArch w))))
              (if Js.truthy dir then dir else None)])%list.
Proof.
  unfold executeTool, UIHandler.waitForEnterReturnMenu, question, consoleLog.
  unfold tryCatch, bind, getWorld, emit, nextChild, readLine, ret, throw,
    worldAfter, spawned.
  destruct w as [oa rm pf ls ks cs pk out]. simpl.
  destruct cs as [|[code|message code|message] cs]; simpl;
    try destruct (codeIsZero code); simpl; destruct ls; simpl;
    rewrite ?filter_isSpawn_snoc; simpl; by rewrite ?app_nil_r.
Qed.

(** X2. Every call of [executeTool] calls [spawn] exactly once,
    whatever the world: for an architecture in use (the one given, or
    that of the system when none or an empty one is given) that is
    none of the names every object inherits, the command of the call
    is the path resolved for that architecture and, when one is given,
    the working directory is the tool package directory.  Whether a
    process starts is for [spawn] to say: the call may throw, as it
    does when the command is undefined or empty. *)
Theorem executeTool_launches_once (toolPath : ToolPath) (arch dir : option string)
    (app : ApplicationController) (w : World) :
  ownKey (Js.orString arch (getSystemArchitecture (osArch w))) →
  spawned (worldAfter (executeTool toolPath arch dir app w)) =
    (spawned w ++
       [Spawn (resolvePath toolPath
                 (Js.orString arch (getSystemArchitecture (osArch w))))
              (if Js.truthy dir then dir else None)])%list
  ∧ executeTool toolPath None dir app w
    = executeTool toolPath (Some (getSystemArchitecture (osArch w))) dir app w
  ∧ executeTool toolPath (Some "") dir app w
    = executeTool toolPath None dir app w.
Proof.
  intros _. split; [apply executeTool_spawned|split].
  - assert (Js.orString (Some (getSystemArchitecture (osArch w)))
              (getSystemArchitecture (osArch w))
            = Js.orString None (getSystemArchitecture (osArch w))) as Hsame.
    { unfold getSystemArchitecture. by repeat case_match. }
    unfold executeTool, bind, getWorld. cbv zeta. by rewrite Hsame.
  - reflexivity.
Qed.

Lemma executeTool_launches_once_witness :
  let app := exampleApp gpuMenus (Some "num_input") false ["main"; "gpu"] in
  let w := exampleWorld [""] [] [ChildClose (Some 0)] in
  spawned (worldAfter
             (executeTool (PathObject [("ARM64", "a"); ("X86_64", "b")])
                (Some "ARM64") (Some "/tools") app w))
  = [Spawn (Some "a") (Some "/tools")].
Proof.
  intros app w.
  exact (proj1 (executeTool_launches_once
                  (PathObject [("ARM64", "a"); ("X86_64", "b")])
                  (Some "ARM64") (Some "/tools") app w eq_refl)).
Defined.
(** *** The arrow-key selection, further *)

Lemma moveCursor_range (len selectedIndex : Z) (key : string) :
  0 < len → 0 ≤ selectedIndex < len → 0 ≤ moveCursor len selectedIndex key < len.
Proof.
  intros Hlen Hi. unfold moveCursor.
  destruct (key =? UIHandler.keyUp)%string;
    [|destruct (key =? UIHandler.keyDown)%string].
  - apply Z.rem_bound_pos; lia.
  - apply Z.rem_bound_pos; lia.
  - exact Hi.
Qed.

Lemma cursorAfter_range (len : Z) (moves : list string) (selectedIndex : Z) :
  0 < len → 0 ≤ selectedIndex < len →
  0 ≤ cursorAfter len moves selectedIndex < len.
Proof.
  intros Hlen. revert selectedIndex.
  induction moves as [|move moves IH]; intros selectedIndex Hi; simpl; [exact Hi|].
  apply IH. by apply moveCursor_range.
Qed.

(** [onKeyPress] on keys that do not end the selection: it goes on with
    the key after them, the cursor where they moved it. *)
Lemma onKeyPress_cursor (menuItems : list (Z * string)) (menuTitle : string)
    (app : ApplicationController) (key : string) (rest : list string)
    (moves : list string) :
  forallb movesCursor moves = true →
  ∀ fuel selectedIndex w,
    keys w = (moves ++ key :: rest)%list →
    (length moves < fuel)%nat →
    ∃ events,
      noLaunch events
      ∧ UIHandler.onKeyPress fuel menuItems menuTitle selectedIndex app w =
          UIHandler.onKeyPress (fuel - length moves) menuItems menuTitle
            (cursorAfter (Z.of_nat (length menuItems)) moves selectedIndex) app
            (withKeys (key :: rest) (withOutput (output w ++ events) w)).
Proof.
  induction moves as [|move moves IH]; intros Hmoves fuel selectedIndex w Hkeys Hfuel.
  - exists []. split; [reflexivity|].
    destruct w as [oa rm pf ls ks cs pk out]. simpl in *. subst ks.
    unfold withKeys, withOutput. simpl. by rewrite Nat.sub_0_r, app_nil_r.
  - simpl in Hmoves. apply andb_true_iff in Hmoves as [Hmove Hmoves].
    destruct (movesCursor_tests move Hmove) as (Hl & Hr & Hp & Hret & Hnl).
    destruct fuel as [|fuel]; [simpl in Hfuel; lia|].
    simpl in Hfuel. apply Nat.succ_lt_mono in Hfuel.
    cbn [UIHandler.onKeyPress]. unfold bind at 1.
    simpl in Hkeys. erewrite readKey_run by exact Hkeys.
    rewrite Hl, Hr, Hp, Hret, Hnl. cbn [orb Nat.sub length cursorAfter foldl].
    unfold moveCursor at 2.
    destruct (move =? UIHandler.keyUp)%string;
      [|destruct (move =? UIHandler.keyDown)%string].
    + unfold bind at 1. unfold emit at 1. cbv beta iota.
      match goal with
      | |- context [UIHandler.onKeyPress fuel menuItems menuTitle ?i app ?w1] =>
          destruct (IH Hmoves fuel i w1 eq_refl Hfuel) as (events & Hquiet & Hrun);
          exists (RenderMenu menuTitle i :: events)
      end.
      split; [by apply noLaunch_cons|].
      rewrite Hrun. by rewrite world_after_move.
    + unfold bind at 1. unfold emit at 1. cbv beta iota.
      match goal with
      | |- context [UIHandler.onKeyPress fuel menuItems menuTitle ?i app ?w1] =>
          destruct (IH Hmoves fuel i w1 eq_refl Hfuel) as (events & Hquiet & Hrun);
          exists (RenderMenu menuTitle i :: events)
      end.
      split; [by apply noLaunch_cons|].
      rewrite Hrun. by rewrite world_after_move.
    + match goal with
      | |- context [UIHandler.onKeyPress fuel menuItems menuTitle ?i app ?w1] =>
          destruct (IH Hmoves fuel i w1 eq_refl Hfuel) as (events & Hquiet & Hrun)
      end.
      exists events. split; [exact Hquiet|].
      rewrite Hrun. by rewrite world_after_ignored.
Qed.

Lemma onKeyPress_enter (fuel : nat) (menuItems : list (Z * string))
    (menuTitle : string) (selectedIndex : Z) (app : ApplicationController)
    (w : World) (key : string) (rest : list string) :
  key = UIHandler.keyReturn ∨ key = UIHandler.keyNewline →
  keys w = key :: rest →
  UIHandler.onKeyPress (S fuel) menuItems menuTitle selectedIndex app w =
    (match menuItems !! Z.to_nat selectedIndex with
     | Some item => Returned (ChoiceNum (fst item))
     | None => Crashed
     end, app,
     withKeys rest (withOutput (output w ++ [SetRawMode false]) w)).
Proof.
  intros Hkey Hkeys. cbn [UIHandler.onKeyPress]. unfold bind at 1.
  erewrite readKey_run by exact Hkeys.
  destruct Hkey as [-> | ->]; simpl; unfold UIHandler.release, bind, emit, ret, crash;
    destruct w; simpl; by destruct (menuItems !! Z.to_nat selectedIndex).
Qed.

(** The arrow-key selection in raw mode on keys that move the cursor or
    are ignored, then Enter. *)
Lemma selectWithArrowKeys_enter (menuItems : list (Z * string)) (menuTitle : string)
    (app : ApplicationController) (w : World) (moves : list string)
    (key : string) (rest : list string) :
  rawModeAvailable w = true →
  forallb movesCursor moves = true →
  key = UIHandler.keyReturn ∨ key = UIHandler.keyNewline →
  keys w = (moves ++ key :: rest)%list →
  ∃ events,
    noLaunch events
    ∧ UIHandler.selectWithArrowKeys menuItems menuTitle app w =
        (match menuItems
               !! Z.to_nat (cursorAfter (Z.of_nat (length menuItems)) moves 0) with
         | Some item => Returned (ChoiceNum (fst item))
         | None => Crashed
         end, app,
         withKeys rest (withOutput (output w ++ events ++ [SetRawMode false]) w)).
Proof.
  intros Hraw Hmoves Hkey Hkeys.
  unfold UIHandler.selectWithArrowKeys. unfold bind at 1. unfold getWorld at 1.
  rewrite Hraw. cbn [negb].
  do 3 (unfold bind at 1; unfold emit at 1; cbv beta iota).
  match goal with
  | |- context [UIHandler.onKeyPress ?fuel menuItems menuTitle 0 app ?w3] =>
      assert (keys w3 = (moves ++ key :: rest)%list) as Hkeys3
        by (by destruct w);
      assert (length moves < fuel)%nat as Hfuel
        by (rewrite Hkeys, length_app; simpl; lia);
      destruct (onKeyPress_cursor menuItems menuTitle app key rest moves Hmoves
                  fuel 0 w3 Hkeys3 Hfuel)
        as (events & Hquiet & Hrun)
  end.
  rewrite Hrun, Hkeys, length_app. cbn [length].
  replace (S (length moves + S (length rest)) - length moves)%nat
    with (S (S (length rest))) by lia.
  erewrite onKeyPress_enter; [|exact Hkey|reflexivity].
  exists ([SetRawMode true; SetRawMode true; RenderMenu menuTitle 0] ++ events)%list.
  split.
  { unfold noLaunch in *. simpl. exact Hquiet. }
  world_norm. by rewrite <- !app_assoc.
Qed.

(** X3. On a menu that has items, the cursor of the arrow-key selection
    never leaves the menu: after any keys that move it or are ignored,
    Enter resolves the id of the item the cursor is on, raw mode having
    been switched off last and only the keys up to Enter having been
    read. *)
Theorem enter_selects_an_item (menuItems : list (Z * string)) (menuTitle : string)
    (app : ApplicationController) (w : World) (moves : list string)
    (key : string) (rest : list string) :
  menuItems ≠ [] →
  rawModeAvailable w = true →
  forallb movesCursor moves = true →
  key = UIHandler.keyReturn ∨ key = UIHandler.keyNewline →
  keys w = (moves ++ key :: rest)%list →
  let cursor := cursorAfter (Z.of_nat (length menuItems)) moves 0 in
  0 ≤ cursor < Z.of_nat (length menuItems)
  ∧ ∃ item,
      menuItems !! Z.to_nat cursor = Some item
      ∧ outcomeOf (UIHandler.selectWithArrowKeys menuItems menuTitle app w)
        = Returned (ChoiceNum (fst item))
      ∧ released (UIHandler.selectWithArrowKeys menuItems menuTitle app w)
      ∧ keys (worldAfter (UIHandler.selectWithArrowKeys menuItems menuTitle app w))
        = rest.
Proof.
  intros Hne Hraw Hmoves Hkey Hkeys cursor.
  assert (0 < Z.of_nat (length menuItems)) as Hlen.
  { destruct menuItems; [done|simpl; lia]. }
  assert (0 ≤ cursor < Z.of_nat (length menuItems)) as Hrange.
  { apply cursorAfter_range; lia. }
  split; [exact Hrange|].
  destruct (lookup_lt_is_Some_2 menuItems (Z.to_nat cursor)) as [item Hitem]; [lia|].
  exists item. split; [exact Hitem|].
  destruct (selectWithArrowKeys_enter menuItems menuTitle app w moves key rest
              Hraw Hmoves Hkey Hkeys) as (events & _ & Hrun).
  fold cursor in Hrun. rewrite Hitem in Hrun. rewrite Hrun.
  split; [reflexivity|]. split; [|reflexivity].
  unfold released, worldAfter. simpl. by rewrite app_assoc, last_snoc.
Qed.

Lemma enter_selects_an_item_witness :
  let w := exampleWorld [] [UIHandler.keyUp; "x"; UIHandler.keyReturn] [] in
  let app := exampleApp gpuMenus (Some "arrow_input") false ["main"] in
  outcomeOf (UIHandler.selectWithArrowKeys [(1, "a"); (2, "b"); (3, "c")] "Menu" app w)
  = Returned (ChoiceNum 3).
Proof.
  intros w app.
  destruct (enter_selects_an_item [(1, "a"); (2, "b"); (3, "c")] "Menu" app w
              [UIHandler.keyUp; "x"] UIHandler.keyReturn [])
    as (_ & item & Hitem & Hrun & _);
    [discriminate|reflexivity|by vm_compute|by left|reflexivity|].
  rewrite Hrun. vm_compute in Hitem. by injection Hitem as <-.
Defined.

Lemma movesCursor_replicate (k : nat) (key : string) :
  movesCursor key = true → forallb movesCursor (replicate k key) = true.
Proof. intros Hkey. induction k as [|k IH]; simpl; [done|]. by rewrite Hkey, IH. Qed.

Lemma cursorAfter_downs (len : Z) (k : nat) (selectedIndex : Z) :
  0 < len → 0 ≤ selectedIndex < len →
  cursorAfter len (replicate k UIHandler.keyDown) selectedIndex
  = (selectedIndex + Z.of_nat k) mod len.
Proof.
  intros Hlen. revert selectedIndex.
  induction k as [|k IH]; intros selectedIndex Hi; simpl.
  - rewrite Z.add_0_r. symmetry. by apply Z.mod_small.
  - change (moveCursor len selectedIndex UIHandler.keyDown)
      with (Z.rem (selectedIndex + 1) len).
    rewrite Z.rem_mod_nonneg by lia.
    rewrite IH by (apply Z.mod_pos_bound; lia).
    rewrite Zplus_mod_idemp_l. f_equal. lia.
Qed.

Lemma cursorAfter_ups (len : Z) (k : nat) (selectedIndex : Z) :
  0 < len → 0 ≤ selectedIndex < len →
  cursorAfter len (replicate k UIHandler.keyUp) selectedIndex
  = (selectedIndex - Z.of_nat k) mod len.
Proof.
  intros Hlen. revert selectedIndex.
  induction k as [|k IH]; intros selectedIndex Hi; simpl.
  - rewrite Z.sub_0_r. symmetry. by apply Z.mod_small.
  - change (moveCursor len selectedIndex UIHandler.keyUp)
      with (Z.rem (selectedIndex - 1 + len) len).
    rewrite Z.rem_mod_nonneg by lia.
    rewrite IH by (apply Z.mod_pos_bound; lia).
    rewrite Zminus_mod_idemp_l.
    replace (selectedIndex - 1 + len - Z.of_nat k)
      with (selectedIndex - Z.of_nat (S k) + 1 * len) by lia.
    by rewrite Z.mod_add by lia.
Qed.

(** X4. The cursor wraps modulo the number of items: from the first
    item, [k] times down and Enter resolve the id of the item at index
    [k mod n], and [k] times up and Enter that of the item at index
    [(- k) mod n]; so one up from the first item is the last item, and
    [n] times down is the first item again. *)
Theorem cursor_wraps_modulo (menuItems : list (Z * string)) (menuTitle : string)
    (app : ApplicationController) (w : World) (k : nat) (rest : list string) :
  menuItems ≠ [] →
  rawModeAvailable w = true →
  (keys w = (replicate k UIHandler.keyDown ++ UIHandler.keyReturn :: rest)%list →
   ∃ item,
     menuItems !! (k mod length menuItems)%nat = Some item
     ∧ outcomeOf (UIHandler.selectWithArrowKeys menuItems menuTitle app w)
       = Returned (ChoiceNum (fst item)))
  ∧ (keys w = (replicate k UIHandler.keyUp ++ UIHandler.keyReturn :: rest)%list →
     ∃ item,
       menuItems !! Z.to_nat ((- Z.of_nat k) mod Z.of_nat (length menuItems))
       = Some item
       ∧ outcomeOf (UIHandler.selectWithArrowKeys menuItems menuTitle app w)
         = Returned (ChoiceNum (fst item))).
Proof.
  intros Hne Hraw.
  assert (0 < Z.of_nat (length menuItems)) as Hlen.
  { destruct menuItems; [done|simpl; lia]. }
  split; intros Hkeys.
  - destruct (enter_selects_an_item menuItems menuTitle app w
                (replicate k UIHandler.keyDown) UIHandler.keyReturn rest Hne Hraw)
      as (_ & item & Hitem & Hrun & _);
      [by apply movesCursor_replicate|by left|exact Hkeys|].
    exists item. split; [|exact Hrun].
    rewrite cursorAfter_downs in Hitem by lia.
    rewrite Z.add_0_l, <- Nat2Z.inj_mod, Nat2Z.id in Hitem. exact Hitem.
  - destruct (enter_selects_an_item menuItems menuTitle app w
                (replicate k UIHandler.keyUp) UIHandler.keyReturn rest Hne Hraw)
      as (_ & item & Hitem & Hrun & _);
      [by apply movesCursor_replicate|by left|exact Hkeys|].
    exists item. split; [|exact Hrun].
    rewrite cursorAfter_ups in Hitem by lia. exact Hitem.
Qed.

Lemma cursor_wraps_modulo_witness :
  let app := exampleApp gpuMenus (Some "arrow_input") false ["main"] in
  let menuItems := [(1, "a"); (2, "b"); (3, "c")] in
  outcomeOf (UIHandler.selectWithArrowKeys menuItems "Menu" app
               (exampleWorld []
                  (replicate 4 UIHandler.keyDown ++ [UIHandler.keyReturn]) []))
  = Returned (ChoiceNum 2)
  ∧ outcomeOf (UIHandler.selectWithArrowKeys menuItems "Menu" app
                 (exampleWorld []
                    (replicate 1 UIHandler.keyUp ++ [UIHandler.keyReturn]) []))
    = Returned (ChoiceNum 3).
Proof.
  intros app menuItems. split.
  - destruct (cursor_wraps_modulo menuItems "Menu" app
                (exampleWorld []
                   (replicate 4 UIHandler.keyDown ++ [UIHandler.keyReturn]) [])
                4 []) as [Hdown _]; [discriminate|reflexivity|].
    destruct (Hdown eq_refl) as (item & Hitem & Hrun).
    rewrite Hrun. vm_compute in Hitem. by injection Hitem as <-.
  - destruct (cursor_wraps_modulo menuItems "Menu" app
                (exampleWorld []
                   (replicate 1 UIHandler.keyUp ++ [UIHandler.keyReturn]) [])
                1 []) as [_ Hup]; [discriminate|reflexivity|].
    destruct (Hup eq_refl) as (item & Hitem & Hrun).
    rewrite Hrun. vm_compute in Hitem. by injection Hitem as <-.
Defined.

(** X5. On a menu without items the interactive strategy cannot select:
    Enter finds no item under the cursor, the exception leaves the
    keystroke handler, is not caught by the loop, and ends the process
    (raw mode was switched off before). *)
Theorem enter_on_empty_menu_crashes (app : ApplicationController) (w : World)
    (m : Menu) (moves : list string) (key : string) (rest : list string) :
  inputMethodOf (Some (settingsConfig app)) ≠ "num_input" →
  lookupMenu (mc_config (menuController app)) (getCurrentMenu (menuController app))
  = Some m →
  items m = Some [] →
  rawModeAvailable w = true →
  forallb movesCursor moves = true →
  key = UIHandler.keyReturn ∨ key = UIHandler.keyNewline →
  keys w = (moves ++ key :: rest)%list →
  outcomeOf (showCurrentMenuTurn app w) = Crashed
  ∧ released (showCurrentMenuTurn app w)
  ∧ appAfter (showCurrentMenuTurn app w) = app
  ∧ ∀ turns, outcomeOf (showCurrentMenu (S turns) app w) = Crashed.
Proof.
  intros Hmode Hm Hi Hraw Hmoves Hkey Hkeys.
  destruct (selectWithArrowKeys_enter [] (title m) app w moves key rest
              Hraw Hmoves Hkey Hkeys) as (events & _ & Hselect).
  rewrite lookup_nil in Hselect.
  assert (showCurrentMenuTurn app w =
            (Crashed, app,
             withKeys rest
               (withOutput (output w ++ events ++ [SetRawMode false]) w))) as Hturn.
  { unfold showCurrentMenuTurn, tryCatch. unfold bind at 1. unfold getApp at 1.
    apply String.eqb_neq in Hmode. rewrite Hmode.
    unfold bind at 1.
    rewrite (displayInteractiveCurrentMenu_select app w m [] Hm Hi). simpl.
    by rewrite Hselect. }
  rewrite Hturn. split; [reflexivity|]. split; [|split; [reflexivity|]].
  - unfold released, worldAfter. simpl. by rewrite app_assoc, last_snoc.
  - intros turns. simpl. unfold bind at 1. by rewrite Hturn.
Qed.

Lemma enter_on_empty_menu_crashes_witness :
  let emptyMenus :=
    {| menu := {[ "main" := {| title := "Main"; parent := None; items := Some [] |} ]} |} in
  let app := exampleApp emptyMenus (Some "arrow_input") false ["main"] in
  outcomeOf (showCurrentMenuTurn app
               (exampleWorld [] [UIHandler.keyDown; UIHandler.keyReturn] []))
  = Crashed.
Proof.
  intros emptyMenus app.
  refine (proj1 (enter_on_empty_menu_crashes app
                   (exampleWorld [] [UIHandler.keyDown; UIHandler.keyReturn] [])
                   {| title := "Main"; parent := None; items := Some [] |}
                   [UIHandler.keyDown] UIHandler.keyReturn [] _ _ eq_refl eq_refl
                   eq_refl _ eq_refl)).
  - discriminate.
  - by vm_compute.
  - by left.
Defined.

Lemma onKeyPress_released (menuItems : list (Z * string)) (menuTitle : string)
    (fuel : nat) :
  ∀ selectedIndex app w,
    endsReleased (UIHandler.onKeyPress fuel menuItems menuTitle selectedIndex app w).
Proof.
  induction fuel as [|fuel IH]; intros selectedIndex app w; [by left|].
  cbn [UIHandler.onKeyPress]. cbv zeta. unfold bind at 1.
  destruct (keys w) as [|key rest] eqn:Hkeys.
  { unfold readKey. rewrite Hkeys. by left. }
  rewrite (readKey_run app w key rest Hkeys).
  destruct (key =? UIHandler.keyUp)%string.
  { unfold bind at 1. unfold emit at 1. apply IH. }
  destruct (key =? UIHandler.keyDown)%string.
  { unfold bind at 1. unfold emit at 1. apply IH. }
  assert (∀ c : Choice,
            released ((run UIHandler.release; ret c) app (withKeys rest w))) as Hret.
  { intros c. unfold released, worldAfter, UIHandler.release, bind, emit, ret. simpl.
    apply last_snoc. }
  destruct (key =? UIHandler.keyLeft)%string.
  { right. split; [apply Hret|]. right. by exists (ChoiceStr "q"). }
  destruct (key =? UIHandler.keyRight)%string.
  { right. split; [apply Hret|]. right. by exists (ChoiceStr "m"). }
  destruct (Js.toLowerCase key =? "p")%string.
  { right. split; [apply Hret|]. right. by exists (ChoiceStr "p"). }
  destruct ((key =? UIHandler.keyReturn)%string || (key =? UIHandler.keyNewline)%string).
  { right. unfold released, worldAfter, outcomeOf, UIHandler.release, bind, emit,
      ret, crash. simpl.
    destruct (menuItems !! Z.to_nat selectedIndex) as [item|]; simpl.
    - split; [apply last_snoc|]. right. by eexists.
    - split; [apply last_snoc|]. by left. }
  apply IH.
Qed.

(** X6. Whatever keys are pressed, the arrow-key selection in raw mode
    never throws, and whenever it ends (with a result, or by the
    exception of Enter on no item) the last thing it did to the terminal
    was to switch raw mode off; it keeps raw mode only while it waits
    for a key. *)
Theorem raw_mode_released_on_exit (menuItems : list (Z * string)) (menuTitle : string)
    (app : ApplicationController) (w : World) :
  rawModeAvailable w = true →
  endsReleased (UIHandler.selectWithArrowKeys menuItems menuTitle app w)
  ∧ ∀ message,
      outcomeOf (UIHandler.selectWithArrowKeys menuItems menuTitle app w)
      ≠ Thrown message.
Proof.
  intros Hraw.
  assert (endsReleased (UIHandler.selectWithArrowKeys menuItems menuTitle app w))
    as Hr.
  { unfold UIHandler.selectWithArrowKeys. unfold bind at 1. unfold getWorld at 1.
    rewrite Hraw. cbn [negb].
    do 3 (unfold bind at 1; unfold emit at 1; cbv beta iota).
    apply onKeyPress_released. }
  split; [exact Hr|]. intros message Hthrown.
  destruct Hr as [Hb|[_ [Hc|[c Hc]]]]; congruence.
Qed.

Lemma raw_mode_released_on_exit_witness :
  let app := exampleApp gpuMenus (Some "arrow_input") false ["main"] in
  let w := exampleWorld [] ["x"; UIHandler.keyDown; "P"] [] in
  outcomeOf (UIHandler.selectWithArrowKeys [(1, "a")] "Menu" app w)
  = Returned (ChoiceStr "p")
  ∧ released (UIHandler.selectWithArrowKeys [(1, "a")] "Menu" app w).
Proof.
  intros app w.
  destruct (raw_mode_released_on_exit [(1, "a")] "Menu" app w eq_refl)
    as [[Hb|[Hrel _]] _].
  - vm_compute in Hb. discriminate Hb.
  - split; [by vm_compute|exact Hrel].
Defined.

(** ** The menu controller on its own *)

Lemma removelast_length (s : list string) :
  length (removelast s) = pred (length s).
Proof.
  rewrite removelast_firstn_len, length_take. lia.
Qed.

(** X7. [handleNavigationCommand] handles exactly the commands that are
    b or m in either case; every other command, p included, is declined
    and leaves the controller as it was.  A handled command never
    deepens the stack: the stack it leaves has at least one entry, and
    is either shorter than before or the root alone. *)
Theorem navigation_command_handled (command : string) (mc : MenuController) :
  (fst (handleNavigationCommand command mc) = true
   ↔ Js.toLowerCase command = "b" ∨ Js.toLowerCase command = "m")
  ∧ (fst (handleNavigationCommand command mc) = false
     → snd (handleNavigationCommand command mc) = mc)
  ∧ (fst (handleNavigationCommand command mc) = true
     → (1 ≤ getMenuDepth (snd (handleNavigationCommand command mc)))%nat
       ∧ ((getMenuDepth (snd (handleNavigationCommand command mc))
           < getMenuDepth mc)%nat
          ∨ getMenuPath (snd (handleNavigationCommand command mc)) = ["main"])).
Proof.
  unfold handleNavigationCommand, goBack, getMenuDepth, getMenuPath.
  destruct (String.eqb_spec (Js.toLowerCase command) "b") as [Hb|Hb].
  - destruct (Nat.ltb_spec 1 (length (menuStack mc))) as [Hdepth|Hdepth]; simpl.
    + rewrite removelast_length.
      split; [split; [by left|done]|]. split; [done|]. intros _. lia.
    + split; [split; [by left|done]|]. split; [done|]. intros _.
      split; [lia|by right].
  - destruct (String.eqb_spec (Js.toLowerCase command) "m") as [Hm|Hm]; simpl.
    + split; [split; [by right|done]|]. split; [done|]. intros _.
      split; [lia|by right].
    + destruct (Js.toLowerCase command =? "p")%string; simpl;
        (split; [split; [done|by intros [?|?]]|]; by split).
Qed.

(** X8. Entering a submenu and going back is a round trip: on a stack
    that is not empty, [goBack] after [setCurrentMenu] succeeds and
    gives the controller back as it was; in between, the current menu
    is the one entered and the depth is one more. *)
Theorem push_then_back (menuId : string) (mc : MenuController) :
  menuStack mc ≠ [] →
  goBack (setCurrentMenu menuId mc) = (true, mc)
  ∧ getCurrentMenu (setCurrentMenu menuId mc) = Some menuId
  ∧ getMenuDepth (setCurrentMenu menuId mc) = S (getMenuDepth mc).
Proof.
  intros Hstack. destruct mc as [cfg stack sc]. simpl in Hstack.
  unfold goBack, setCurrentMenu, getCurrentMenu, getMenuDepth, withMenuStack. simpl.
  rewrite length_app, removelast_last, last_snoc. simpl.
  destruct stack as [|top stack]; [done|]. simpl.
  replace (length stack + 1)%nat with (S (length stack)) by lia.
  split; [done|]. split; [done|]. lia.
Qed.

Lemma push_then_back_witness :
  goBack (setCurrentMenu "gpu" (newMenuController gpuMenus))
  = (true, newMenuController gpuMenus).
Proof.
  refine (proj1 (push_then_back "gpu" (newMenuController gpuMenus) _)).
  discriminate.
Defined.

Lemma find_first (its : list MenuItem) (n : Z) (item : MenuItem) :
  List.find (λ item, idIs (id item) (ChoiceNum n)) its = Some item →
  ∃ before after : list MenuItem,
    its = (before ++ item :: after)%list
    ∧ id item = n
    ∧ ∀ other, other ∈ before → id other ≠ n.
Proof.
  induction its as [|first its IH]; [done|]. simpl.
  destruct (Z.eqb_spec (id first) n) as [Hid|Hid].
  - intros [= <-]. exists [], its. split; [done|]. split; [done|].
    intros other Hother. by apply elem_of_nil in Hother.
  - intros Hfind. destruct (IH Hfind) as (before & after & -> & Hitem & Hbefore).
    exists (first :: before), after. split; [done|]. split; [done|].
    intros other Hother. apply elem_of_cons in Hother as [->|Hother]; [done|].
    by apply Hbefore.
Qed.

(** X9. What [getMenuItem] of the arrow-key engine finds is an item of
    the menu asked for, the first one in the order of the menu whose id
    is the number chosen; it finds nothing when the menu is missing or
    has no items, when the choice is not a number, and when no item of
    the menu has that id. *)
Theorem getMenuItem_first_match (cfg : Config) (menuId : option string)
    (choice : Choice) :
  match ArrowMenuEngine.getMenuItem cfg menuId choice with
  | Some item =>
      ∃ (m : Menu) (n : Z) (before after : list MenuItem),
        lookupMenu cfg menuId = Some m
        ∧ items m = Some (before ++ item :: after)%list
        ∧ choice = ChoiceNum n
        ∧ id item = n
        ∧ ∀ other, other ∈ before → id other ≠ n
  | None =>
      ∀ m its item,
        lookupMenu cfg menuId = Some m → items m = Some its → item ∈ its →
        choice ≠ ChoiceNum (id item)
  end.
Proof.
  unfold ArrowMenuEngine.getMenuItem.
  destruct (lookupMenu cfg menuId) as [m|] eqn:Hm; [|by intros ? ? ? [=]].
  destruct (items m) as [its|] eqn:Hits;
    [|intros ? ? ? [= <-] Hnone; by rewrite Hits in Hnone].
  destruct (List.find _ its) as [item|] eqn:Hfind.
  - destruct choice as [n|s|].
    + destruct (find_first its n item Hfind) as (before & after & -> & Hid & Hbefore).
      by exists m, n, before, after.
    + apply find_some in Hfind as [_ Hfind]. done.
    + apply find_some in Hfind as [_ Hfind]. done.
  - intros m' its' item [= <-] Hits' Hitem ->.
    rewrite Hits in Hits'. injection Hits' as <-.
    apply list_elem_of_In in Hitem. apply (find_none _ _ Hfind) in Hitem.
    simpl in Hitem. by rewrite Z.eqb_refl in Hitem.
Qed.

(** ** The dispatch on a menu item, further *)

Lemma orString_system (arch : string) :
  Js.orString (Some (getSystemArchitecture arch)) (getSystemArchitecture arch)
  = getSystemArchitecture arch.
Proof. unfold getSystemArchitecture. by repeat case_match. Qed.

(** The working directory the dispatch gives to the executor. *)
Lemma quiet_consoleLog (text : string) : launchesNothing (consoleLog text).
Proof. unfold consoleLog. quiet. Qed.

Lemma quiet_waitForEnter : launchesNothing UIHandler.waitForEnter.
Proof. unfold UIHandler.waitForEnter. quiet. Qed.

Lemma quiet_report (text : string) :
  launchesNothing (run consoleLog text; UIHandler.waitForEnter).
Proof.
  apply quiet_bind; [apply quiet_consoleLog|intros _; apply quiet_waitForEnter].
Qed.

Lemma quiet_pickerExit (app : ApplicationController) (selectedArch : string) :
  launchesNothing (pickerExit app selectedArch).
Proof.
  unfold pickerExit.
  destruct (archPickerEnabled (settingsConfig app)); [|apply quiet_ret].
  apply quiet_tryCatch.
  - apply quiet_bind; [apply quiet_architecturePicker|intros; apply quiet_ret].
  - intros message.
    destruct (message =? "BACK_TO_PARENT_MENU")%string; [apply quiet_ret|].
    destruct (message =? "BACK_TO_MAIN_MENU")%string; [|apply quiet_throw].
    apply quiet_bind; [apply quiet_onMenuController|intros; apply quiet_ret].
Qed.

(** The dispatch on an executable item, by the way the picker is left. *)
Lemma handleUserChoice_executable (choice : Choice) (app : ApplicationController)
    (w : World) (item : MenuItem) (path : ToolPath) :
  getMenuItem (menuController app) (getCurrentMenu (menuController app)) choice
  = Some item →
  kind item = Executable path →
  handleUserChoice choice app w =
    match pickerExit app (getSystemArchitecture (osArch w)) app w with
    | (Returned (UseArchitecture arch), app', w') =>
        executeTool path (Some arch) (Some (toolPackageDir app)) app' w'
    | (Returned ReturnNull, app', w') => (Returned tt, app', w')
    | (Thrown message, app', w') => (Thrown message, app', w')
    | (Blocked, app', w') => (Blocked, app', w')
    | (Crashed, app', w') => (Crashed, app', w')
    end.
Proof.
  intros Hitem Hkind.
  rewrite (handleUserChoice_item choice app w item Hitem), Hkind.
  unfold bind at 1. unfold getWorld at 1. cbv zeta. unfold bind at 1.
  fold (pickerExit app (getSystemArchitecture (osArch w))).
  by destruct (pickerExit app (getSystemArchitecture (osArch w)) app w)
    as [[[[arch|]|message| |] app'] w'].
Qed.

(** X10. With the architecture picker switched off, selecting an
    executable item is one call of the executor for the architecture of
    the system: no key is read, [spawn] is called exactly once, with
    the path resolved for the system's architecture as command and the
    tool package directory as working directory, and the controller is
    left as it was.  The architecture of the system is a tag, and no
    tag is a name that objects inherit. *)
Theorem executable_without_picker (app : ApplicationController) (w : World)
    (choice : Choice) (item : MenuItem) (path : ToolPath) :
  getMenuItem (menuController app) (getCurrentMenu (menuController app)) choice
  = Some item →
  kind item = Executable path →
  archPickerEnabled (settingsConfig app) = false →
  handleUserChoice choice app w
  = executeTool path None (Some (toolPackageDir app)) app w
  ∧ spawned (worldAfter (handleUserChoice choice app w)) =
      (spawned w ++
         [Spawn (resolvePath path (getSystemArchitecture (osArch w)))
            (if (toolPackageDir app =? "")%string then None
             else Some (toolPackageDir app))])%list
  ∧ appAfter (handleUserChoice choice app w) = app
  ∧ keys (worldAfter (handleUserChoice choice app w)) = keys w
  ∧ ownKey (getSystemArchitecture (osArch w)).
Proof.
  intros Hitem Hkind Hpicker.
  assert (handleUserChoice choice app w
          = executeTool path None (Some (toolPackageDir app)) app w) as Hrun.
  { rewrite (handleUserChoice_item choice app w item Hitem), Hkind, Hpicker.
    unfold bind at 1. unfold getWorld at 1. cbv zeta.
    unfold bind at 1. unfold ret at 1.
    unfold executeTool, bind, getWorld. cbv zeta. by rewrite orString_system. }
  rewrite Hrun. split; [reflexivity|]. split; [|split; [|split]].
  4:{ unfold ownKey, getSystemArchitecture. by repeat case_match. }
  - rewrite executeTool_spawned. simpl.
    by destruct (toolPackageDir app =? "")%string.
  - apply keepsApp_executeTool.
  - unfold executeTool, UIHandler.waitForEnterReturnMenu, question, consoleLog.
    unfold tryCatch, bind, getWorld, emit, nextChild, readLine, ret, throw,
      worldAfter.
    destruct w as [oa rm pf ls ks cs pk out]. simpl.
    destruct cs as [|[code|message code|message] cs]; simpl;
      try destruct (codeIsZero code); simpl; by destruct ls.
Qed.

Lemma executable_without_picker_witness :
  let app := exampleApp gpuMenus (Some "num_input") false ["main"; "gpu"] in
  let w := exampleWorld [""] [] [ChildClose (Some 0)] in
  spawned (worldAfter (handleUserChoice (ChoiceNum 1) app w))
  = [Spawn (Some "furmark") (Some "/tools")].
Proof.
  intros app w.
  exact (proj1 (proj2 (executable_without_picker app w (ChoiceNum 1)
                         {| id := 1; label := "FurMark";
                            kind := Executable (PathString "furmark") |}
                         (PathString "furmark") eq_refl eq_refl eq_refl))).
Defined.

(** X11. One selection calls [spawn] at most once, and only for an
    executable item: whatever is chosen and whatever the world, after
    [handleUserChoice] the calls of [spawn] are those made before, or
    those and one more, and then the chosen item is an executable one
    and the call is given the tool package directory as working
    directory. *)
Theorem only_executables_launch (choice : Choice) (app : ApplicationController)
    (w : World) :
  spawned (worldAfter (handleUserChoice choice app w)) = spawned w
  ∨ ∃ (item : MenuItem) (path : ToolPath) (command : option string),
      getMenuItem (menuController app) (getCurrentMenu (menuController app)) choice
      = Some item
      ∧ kind item = Executable path
      ∧ spawned (worldAfter (handleUserChoice choice app w)) =
          (spawned w ++
             [Spawn command
                (if (toolPackageDir app =? "")%string then None
                 else Some (toolPackageDir app))])%list.
Proof.
  destruct (getMenuItem (menuController app) (getCurrentMenu (menuController app))
              choice) as [item|] eqn:Hitem.
  2:{ left. rewrite (handleUserChoice_invalid choice app w Hitem).
      apply quiet_report. }
  destruct (kind item) as [submenu|path| | |type] eqn:Hkind.
  - left. rewrite (handleUserChoice_item choice app w item Hitem), Hkind.
    by rewrite onMenuController_run.
  - rewrite (handleUserChoice_executable choice app w item path Hitem Hkind).
    pose proof (quiet_pickerExit app (getSystemArchitecture (osArch w)) app w)
      as Hquiet.
    destruct (pickerExit app (getSystemArchitecture (osArch w)) app w)
      as [[[[arch|]|message| |] app'] w']; simpl in Hquiet;
      try (left; exact Hquiet).
    right. exists item, path.
    exists (resolvePath path
              (Js.orString (Some arch) (getSystemArchitecture (osArch w')))).
    split; [reflexivity|]. split; [exact Hkind|].
    rewrite executeTool_spawned, Hquiet. simpl.
    by destruct (toolPackageDir app =? "")%string.
  - left. rewrite (handleUserChoice_item choice app w item Hitem), Hkind.
    unfold bind at 1. rewrite onMenuController_run. reflexivity.
  - left. rewrite (handleUserChoice_item choice app w item Hitem), Hkind.
    by rewrite onMenuController_run.
  - left. rewrite (handleUserChoice_item choice app w item Hitem), Hkind.
    apply quiet_report.
Qed.

(** *** The architecture picker, further *)

Lemma lookup_map {A B} (f : A → B) (l : list A) (i : nat) :
  map f l !! i = f <$> (l !! i).
Proof.
  revert i. induction l as [|a l IH]; intros [|i]; simpl; done.
Qed.

Lemma find_option_first (options : list PickerOption) (o : PickerOption) :
  o ∈ options →
  ∃ first,
    List.find (λ o', idIs (option_id o') (ChoiceNum (option_id o))) options
    = Some first
    ∧ option_id first = option_id o
    ∧ (NoDup (map option_id options) → first = o).
Proof.
  induction options as [|a options IH]; intros Ho.
  { by apply elem_of_nil in Ho. }
  simpl. destruct (Z.eqb_spec (option_id a) (option_id o)) as [Hid|Hid].
  - exists a. split; [done|]. split; [done|]. intros Hdistinct.
    apply elem_of_cons in Ho as [->|Ho]; [done|].
    apply NoDup_cons in Hdistinct as [Hfresh _]. exfalso. apply Hfresh.
    rewrite Hid. apply list_elem_of_In, in_map, list_elem_of_In, Ho.
  - apply elem_of_cons in Ho as [->|Ho]; [done|].
    destruct (IH Ho) as (first & Hfind & Hfirst & Hsame).
    exists first. split; [done|]. split; [done|]. intros Hdistinct.
    apply Hsame. by apply NoDup_cons in Hdistinct as [_ ?].
Qed.

(** The arrow-key picker on keys that move the cursor or are ignored,
    then Enter on an option whose id is not 0. *)
Lemma architecturePicker_enter (sc : SettingsConfig) (app : ApplicationController)
    (w : World) (pickerConfig : PickerConfig) (moves : list string)
    (key : string) (rest : list string) (o first : PickerOption) :
  inputMethodOf (Some sc) = "arrow_input" →
  archPickerFile w = inr pickerConfig →
  rawModeAvailable w = true →
  forallb movesCursor moves = true →
  key = UIHandler.keyReturn ∨ key = UIHandler.keyNewline →
  keys w = (moves ++ key :: rest)%list →
  options pickerConfig
    !! Z.to_nat (cursorAfter (Z.of_nat (length (options pickerConfig))) moves 0)
  = Some o →
  option_id o ≠ 0 →
  List.find (λ o', idIs (option_id o') (ChoiceNum (option_id o)))
    (options pickerConfig) = Some first →
  ∃ events,
    noLaunch events
    ∧ UIHandler.architecturePicker sc app w =
        (Returned (value first), app,
         withKeys rest (withOutput (output w ++ events) w)).
Proof.
  intros Hmode Hfile Hraw Hmoves Hkey Hkeys Ho Hid Hfind.
  unfold UIHandler.architecturePicker. rewrite Hmode. simpl.
  unfold bind at 1. unfold getWorld at 1. simpl.
  unfold bind at 1. unfold getWorld at 1. rewrite Hfile.
  unfold bind at 1. unfold emit at 1. cbv beta iota.
  unfold bind at 1.
  match goal with
  | |- context [UIHandler.selectWithArrowKeys ?menuItems ?menuTitle app ?w1] =>
      destruct (selectWithArrowKeys_enter menuItems menuTitle app w1 moves key rest)
        as (events & Hquiet & Hselect);
        [by destruct w|exact Hmoves|exact Hkey|by destruct w|]
  end.
  rewrite Hselect, length_map, lookup_map, Ho. simpl.
  apply Z.eqb_neq in Hid. rewrite Hid. simpl. simpl in Hfind. rewrite Hfind.
  exists (StdoutWrite UIHandler.clearScreen :: events ++ [SetRawMode false])%list.
  split.
  { apply noLaunch_cons; [done|]. unfold noLaunch in *.
    by rewrite List.filter_app, Hquiet. }
  unfold ret. destruct w as [oa rm pf ls ks cs pk out].
  unfold withKeys, withOutput. simpl. by rewrite <- app_assoc.
Qed.

(** X12. In the arrow-key architecture picker, Enter selects the option
    under the cursor by its id: the picker returns the [value] of the
    first option of arch_picker.json that carries the id of the option
    under the cursor, which is that option itself when the ids are
    distinct.  It reads the keys up to Enter and launches nothing. *)
Theorem picker_enter_selects (sc : SettingsConfig) (app : ApplicationController)
    (w : World) (pickerConfig : PickerConfig) (moves : list string)
    (key : string) (rest : list string) (o : PickerOption) :
  inputMethodOf (Some sc) = "arrow_input" →
  archPickerFile w = inr pickerConfig →
  rawModeAvailable w = true →
  forallb movesCursor moves = true →
  key = UIHandler.keyReturn ∨ key = UIHandler.keyNewline →
  keys w = (moves ++ key :: rest)%list →
  options pickerConfig
    !! Z.to_nat (cursorAfter (Z.of_nat (length (options pickerConfig))) moves 0)
  = Some o →
  option_id o ≠ 0 →
  ∃ first,
    List.find (λ o', idIs (option_id o') (ChoiceNum (option_id o)))
      (options pickerConfig) = Some first
    ∧ (NoDup (map option_id (options pickerConfig)) → first = o)
    ∧ outcomeOf (UIHandler.architecturePicker sc app w) = Returned (value first)
    ∧ appAfter (UIHandler.architecturePicker sc app w) = app
    ∧ keys (worldAfter (UIHandler.architecturePicker sc app w)) = rest
    ∧ spawned (worldAfter (UIHandler.architecturePicker sc app w)) = spawned w.
Proof.
  intros Hmode Hfile Hraw Hmoves Hkey Hkeys Ho Hid.
  destruct (find_option_first (options pickerConfig) o) as (first & Hfind & _ & Hsame).
  { by eapply list_elem_of_lookup_2. }
  exists first. split; [exact Hfind|]. split; [exact Hsame|].
  destruct (architecturePicker_enter sc app w pickerConfig moves key rest o first
              Hmode Hfile Hraw Hmoves Hkey Hkeys Ho Hid Hfind)
    as (events & Hquiet & Hrun).
  pose proof (quiet_architecturePicker sc app w) as Hspawn.
  rewrite Hrun in *.
  split; [reflexivity|]. split; [reflexivity|]. split; [reflexivity|].
  exact Hspawn.
Qed.

Lemma picker_enter_selects_witness :
  let app := exampleApp gpuMenus (Some "arrow_input") true ["main"; "gpu"] in
  let w := exampleWorld [] [UIHandler.keyDown; UIHandler.keyReturn] [] in
  outcomeOf (UIHandler.architecturePicker (settingsConfig app) app w)
  = Returned (Some "ARM64").
Proof.
  intros app w.
  destruct (picker_enter_selects (settingsConfig app) app w
              {| picker_title := "Architecture";
                 options := [ {| option_id := 1; display := "x86_64";
                                 value := Some "X86_64" |};
                              {| option_id := 2; display := "arm64";
                                 value := Some "ARM64" |} ] |}
              [UIHandler.keyDown] UIHandler.keyReturn []
              {| option_id := 2; display := "arm64"; value := Some "ARM64" |})
    as (first & Hfind & _ & Hrun & _);
    [reflexivity|reflexivity|reflexivity|by vm_compute|by left|reflexivity
    |by vm_compute|discriminate|].
  rewrite Hrun. vm_compute in Hfind. by injection Hfind as <-.
Defined.

Lemma orString_orString (v : option string) (arch fallback : string) :
  Js.orString (Some (Js.orString v (getSystemArchitecture arch))) fallback
  = Js.orString v (getSystemArchitecture arch).
Proof.
  destruct v as [s|]; simpl.
  - destruct (String.eqb_spec s "") as [->|Hs]; simpl.
    + unfold getSystemArchitecture. by repeat case_match.
    + by apply String.eqb_neq in Hs as ->.
  - unfold getSystemArchitecture. by repeat case_match.
Qed.

(** X13. What the architecture picker returns overrides the
    architecture of the system, and a picker that returns nothing (or
    the empty string) falls back to it: the selection of an executable
    item is then one call of the executor for that architecture, and,
    the architecture being none of the names every object inherits,
    the one call of [spawn] is given the path resolved for it. *)
Theorem picker_choice_overrides (app : ApplicationController) (w : World)
    (choice : Choice) (item : MenuItem) (path : ToolPath)
    (v : option string) (app' : ApplicationController) (w' : World) :
  getMenuItem (menuController app) (getCurrentMenu (menuController app)) choice
  = Some item →
  kind item = Executable path →
  archPickerEnabled (settingsConfig app) = true →
  UIHandler.architecturePicker (settingsConfig app) app w = (Returned v, app', w') →
  ownKey (Js.orString v (getSystemArchitecture (osArch w))) →
  handleUserChoice choice app w
  = executeTool path (Some (Js.orString v (getSystemArchitecture (osArch w))))
      (Some (toolPackageDir app)) app' w'
  ∧ spawned (worldAfter (handleUserChoice choice app w)) =
      (spawned w ++
         [Spawn (resolvePath path (Js.orString v (getSystemArchitecture (osArch w))))
            (if (toolPackageDir app =? "")%string then None
             else Some (toolPackageDir app))])%list
  ∧ (Js.truthy v = false
     → Js.orString v (getSystemArchitecture (osArch w))
       = getSystemArchitecture (osArch w)).
Proof.
  intros Hitem Hkind Henabled Hpicker _.
  assert (handleUserChoice choice app w
          = executeTool path (Some (Js.orString v (getSystemArchitecture (osArch w))))
              (Some (toolPackageDir app)) app' w') as Hrun.
  { rewrite (handleUserChoice_executable choice app w item path Hitem Hkind).
    unfold pickerExit. rewrite Henabled. unfold tryCatch. unfold bind at 1.
    by rewrite Hpicker. }
  split; [exact Hrun|]. split.
  - rewrite Hrun, executeTool_spawned, orString_orString.
    pose proof (quiet_architecturePicker (settingsConfig app) app w) as Hquiet.
    rewrite Hpicker in Hquiet. simpl in Hquiet. rewrite Hquiet. simpl.
    by destruct (toolPackageDir app =? "")%string.
  - destruct v as [s|]; simpl; [|done].
    by destruct (s =? "")%string.
Qed.

Lemma picker_choice_overrides_witness :
  let furmark :=
    {| id := 1; label := "FurMark";
       kind := Executable (PathObject [("X86_64", "furmark"); ("ARM64", "furmark-arm")])
    |} in
  let archMenus :=
    {| menu :=
         {[ "main" :=
              {| title := "Main"; parent := None; items := Some [furmark] |} ]} |} in
  let app := exampleApp archMenus (Some "arrow_input") true ["main"] in
  let w :=
    exampleWorld [""] [UIHandler.keyDown; UIHandler.keyReturn] [ChildClose (Some 0)] in
  getSystemArchitecture (osArch w) = "X86_64"
  ∧ spawned (worldAfter (handleUserChoice (ChoiceNum 1) app w))
    = [Spawn (Some "furmark-arm") (Some "/tools")].
Proof.
  intros furmark archMenus app w. split; [reflexivity|].
  refine (proj1 (proj2 (picker_choice_overrides app w (ChoiceNum 1) furmark
                          (PathObject
                             [("X86_64", "furmark"); ("ARM64", "furmark-arm")])
                          (Some "ARM64") app
                          (worldAfter
                             (UIHandler.architecturePicker (settingsConfig app) app w))
                          _ eq_refl eq_refl _ eq_refl))).
  - by vm_compute.
  - by vm_compute.
Defined.

(** X14. When arch_picker.json cannot be read, the arrow-key picker
    writes its error and throws the error of the read; the dispatch
    lets it through (it is none of the two cancellations), so the
    selection of the executable item throws it in turn, with nothing
    launched, nothing read and the controller as it was. *)
Theorem missing_picker_config_throws (app : ApplicationController) (w : World)
    (choice : Choice) (item : MenuItem) (path : ToolPath) (message : string) :
  getMenuItem (menuController app) (getCurrentMenu (menuController app)) choice
  = Some item →
  kind item = Executable path →
  archPickerEnabled (settingsConfig app) = true →
  inputMethodOf (Some (settingsConfig app)) = "arrow_input" →
  archPickerFile w = inl message →
  message ≠ "BACK_TO_PARENT_MENU" →
  message ≠ "BACK_TO_MAIN_MENU" →
  handleUserChoice choice app w
  = (Thrown message, app,
     withOutput
       (output w ++ [ConsoleError (Js.red "配置文件不存在，请检查软件配置！")]) w).
Proof.
  intros Hitem Hkind Henabled Hmode Hfile Hparent Hmain.
  rewrite (handleUserChoice_executable choice app w item path Hitem Hkind).
  unfold pickerExit. rewrite Henabled. unfold tryCatch. unfold bind at 1.
  unfold UIHandler.architecturePicker. rewrite Hmode. simpl.
  unfold bind at 1. unfold getWorld at 1. simpl.
  unfold bind at 1. unfold getWorld at 1. rewrite Hfile.
  unfold bind at 1. unfold emit at 1. cbv beta iota. unfold throw at 1.
  apply String.eqb_neq in Hparent, Hmain. by rewrite Hparent, Hmain.
Qed.

Lemma missing_picker_config_throws_witness :
  let app := exampleApp gpuMenus (Some "arrow_input") true ["main"; "gpu"] in
  let w :=
    {| osArch := "x64"; rawModeAvailable := true;
       archPickerFile := inl "ENOENT: no such file or directory";
       lines := []; keys := []; children := [];
       packages := []; output := [] |} in
  outcomeOf (handleUserChoice (ChoiceNum 1) app w)
  = Thrown "ENOENT: no such file or directory".
Proof.
  intros app w.
  by rewrite (missing_picker_config_throws app w (ChoiceNum 1)
                {| id := 1; label := "FurMark";
                   kind := Executable (PathString "furmark") |}
                (PathString "furmark") "ENOENT: no such file or directory"
                eq_refl eq_refl eq_refl eq_refl eq_refl ltac:(discriminate)
                ltac:(discriminate)).
Defined.

Lemma onKeyPress_p (fuel : nat) (menuItems : list (Z * string))
    (menuTitle : string) (selectedIndex : Z) (app : ApplicationController)
    (w : World) (key : string) (rest : list string) :
  Js.toLowerCase key = "p" →
  keys w = key :: rest →
  UIHandler.onKeyPress (S fuel) menuItems menuTitle selectedIndex app w =
    (Returned (ChoiceStr "p"), app,
     withKeys rest (withOutput (output w ++ [SetRawMode false]) w)).
Proof.
  intros Hkey Hkeys. cbn [UIHandler.onKeyPress]. unfold bind at 1.
  erewrite readKey_run by exact Hkeys.
  assert (key = "p" ∨ key = "P") as Hp.
  { destruct key as [|c [|c' key]]; simpl in Hkey; [done| |done].
    injection Hkey as Hc.
    destruct c as [[] [] [] [] [] [] [] []]; try discriminate Hc; auto. }
  destruct Hp as [-> | ->]; simpl; unfold UIHandler.release, bind, emit, ret;
    by destruct w.
Qed.

(** X15. The key p does not leave the arrow-key architecture picker:
    the selection resolves p, no option carries that id, and the picker
    is shown again on the keys that follow; the branch that would throw
    BACK_TO_PARENT_MENU for p is never reached. *)
Theorem picker_ignores_p (fuel : nat) (app : ApplicationController) (w : World)
    (pickerConfig : PickerConfig) (moves : list string) (key : string)
    (rest : list string) :
  archPickerFile w = inr pickerConfig →
  rawModeAvailable w = true →
  forallb movesCursor moves = true →
  Js.toLowerCase key = "p" →
  keys w = (moves ++ key :: rest)%list →
  ∃ events : list Event,
    noLaunch events
    ∧ last events = Some (SetRawMode false)
    ∧ UIHandler.architecturePickerWithArrows (S fuel) app w
      = UIHandler.architecturePickerWithArrows fuel app
          (withKeys rest (withOutput (output w ++ events) w)).
Proof.
  intros Hfile Hraw Hmoves Hkey Hkeys.
  cbn [UIHandler.architecturePickerWithArrows].
  unfold bind at 1. unfold getWorld at 1. rewrite Hfile.
  unfold bind at 1. unfold emit at 1. cbv beta iota.
  unfold bind at 1.
  unfold UIHandler.selectWithArrowKeys. unfold bind at 1. unfold getWorld at 1.
  replace (rawModeAvailable
             (withOutput (output w ++ [StdoutWrite UIHandler.clearScreen]) w))
    with true by (by destruct w).
  cbn [negb].
  do 3 (unfold bind at 1; unfold emit at 1; cbv beta iota).
  match goal with
  | |- context [UIHandler.onKeyPress ?fuel0 ?menuItems ?menuTitle 0 app ?w3] =>
      assert (keys w3 = (moves ++ key :: rest)%list) as Hkeys3
        by (by destruct w);
      assert (length moves < fuel0)%nat as Hfuel
        by (replace fuel0 with (S (length (keys w))) by (by destruct w);
            rewrite Hkeys, length_app; simpl; lia);
      destruct (onKeyPress_cursor menuItems menuTitle app key rest moves Hmoves
                  fuel0 0 w3 Hkeys3 Hfuel)
        as (events & Hquiet & Hrun);
      replace fuel0 with (S (length (keys w))) in Hrun by (by destruct w)
  end.
  match goal with
  | |- context [UIHandler.onKeyPress ?fuel0 _ _ 0 app _] =>
      replace fuel0 with (S (length (keys w))) by (by destruct w)
  end.
  rewrite Hrun, Hkeys, length_app. cbn [length].
  replace (S (length moves + S (length rest)) - length moves)%nat
    with (S (S (length rest))) by lia.
  erewrite onKeyPress_p; [|exact Hkey|reflexivity].
  simpl.
  assert (∀ opts : list PickerOption,
            List.find (λ o, idIs (option_id o) (ChoiceStr "p")) opts = None)
    as Hnone.
  { induction opts as [|o opts IH]; [done|exact IH]. }
  rewrite Hnone.
  exists ([StdoutWrite UIHandler.clearScreen; SetRawMode true; SetRawMode true;
           RenderMenu (picker_title pickerConfig) 0] ++ events
          ++ [SetRawMode false])%list.
  split.
  { unfold noLaunch in *. simpl. by rewrite List.filter_app, Hquiet. }
  split.
  { by rewrite !app_assoc, last_snoc. }
  world_norm. by rewrite <- !app_assoc.
Qed.

Lemma picker_ignores_p_witness :
  let app := exampleApp gpuMenus (Some "arrow_input") true ["main"; "gpu"] in
  let w := exampleWorld [] ["P"; UIHandler.keyReturn] [] in
  outcomeOf (UIHandler.architecturePickerWithArrows 3 app w)
  = Returned (Some "X86_64").
Proof.
  intros app w.
  destruct (picker_ignores_p 2 app w
              {| picker_title := "Architecture";
                 options := [ {| option_id := 1; display := "x86_64";
                                 value := Some "X86_64" |};
                              {| option_id := 2; display := "arm64";
                                 value := Some "ARM64" |} ] |}
              [] "P" [UIHandler.keyReturn] eq_refl eq_refl eq_refl eq_refl eq_refl)
    as (events & _ & _ & ->).
  by vm_compute.
Defined.



(** ** The main loop, further *)

Lemma report_never_throws (text : string) :
  neverThrows (run consoleLog text; UIHandler.waitForEnter).
Proof.
  intros app w message.
  unfold UIHandler.waitForEnter, question, consoleLog, bind, emit, readLine, ret.
  simpl. by destruct (lines w).
Qed.

(** X16. No exception leaves the main loop: whatever a turn throws is
    caught at the loop, reported and followed by the wait for Enter,
    which does not throw.  A turn, and any number of turns, therefore
    ends by returning, by waiting for input, or with the process, and
    never by an exception thrown to the caller of [showCurrentMenu]. *)
Theorem loop_catches_everything :
  neverThrows showCurrentMenuTurn ∧ ∀ turns, neverThrows (showCurrentMenu turns).
Proof.
  assert (neverThrows showCurrentMenuTurn) as Hturn.
  { intros app w message. unfold showCurrentMenuTurn, tryCatch.
    match goal with
    | |- context [match ?body app w with _ => _ end] =>
        destruct (body app w) as [[[[]|thrown| |] app'] w']
    end; try done.
    apply report_never_throws. }
  split; [exact Hturn|].
  induction turns as [|turns IH]; intros app w message; [done|].
  cbn [showCurrentMenu]. unfold bind at 1.
  pose proof (Hturn app w) as Hnot.
  destruct (showCurrentMenuTurn app w) as [[[[]|thrown| |] app'] w'];
    simpl in *; [apply IH|by destruct (Hnot thrown)|done|done].
Qed.

(** X17. An item whose id is 0 cannot be selected with the arrow keys:
    Enter on it resolves 0, which the loop takes for an empty input; it
    reports that and waits for Enter, dispatching nothing, whatever the
    type of the item.  The numeric strategy, given the answer 0, does
    dispatch on it. *)
Theorem zero_id_unselectable_by_arrows (app : ApplicationController) (w : World)
    (m : Menu) (its : list MenuItem) (moves : list string) (key : string)
    (pending : list string) (item : MenuItem) (enter : string) (rest : list string) :
  inputMethodOf (Some (settingsConfig app)) ≠ "num_input" →
  lookupMenu (mc_config (menuController app)) (getCurrentMenu (menuController app))
  = Some m →
  items m = Some its →
  rawModeAvailable w = true →
  forallb movesCursor moves = true →
  key = UIHandler.keyReturn ∨ key = UIHandler.keyNewline →
  keys w = (moves ++ key :: pending)%list →
  its !! Z.to_nat (cursorAfter (Z.of_nat (length its)) moves 0) = Some item →
  id item = 0 →
  lines w = enter :: rest →
  outcomeOf (showCurrentMenuTurn app w) = Returned tt
  ∧ appAfter (showCurrentMenuTurn app w) = app
  ∧ spawned (worldAfter (showCurrentMenuTurn app w)) = spawned w
  ∧ (∃ before : list Event,
       output (worldAfter (showCurrentMenuTurn app w))
       = (before ++ [SetRawMode false; EmptyInput; pressEnter])%list)
  ∧ lines (worldAfter (showCurrentMenuTurn app w)) = rest
  ∧ keys (worldAfter (showCurrentMenuTurn app w)) = pending.
Proof.
  intros Hmode Hm Hits Hraw Hmoves Hkey Hkeys Hitem Hid Hlines.
  destruct (selectWithArrowKeys_enter (map (λ item, (id item, label item)) its)
              (title m) app w moves key pending Hraw Hmoves Hkey Hkeys)
    as (events & Hquiet & Hselect).
  rewrite length_map, lookup_map, Hitem in Hselect. simpl in Hselect.
  rewrite Hid in Hselect.
  rewrite <- (displayInteractiveCurrentMenu_select app w m its Hm Hits) in Hselect.
  rewrite (interactive_turn_dispatch app w _ (ChoiceNum 0) Hmode Hselect).
  simpl. unfold tryCatch.
  erewrite report_and_wait by (simpl; exact Hlines).
  split; [reflexivity|]. split; [reflexivity|]. split; [|split; [|by split]].
  - unfold spawned, worldAfter. simpl.
    rewrite !List.filter_app. simpl. unfold noLaunch in Hquiet.
    by rewrite Hquiet, !app_nil_r.
  - exists (output w ++ events)%list. unfold worldAfter. simpl.
    by rewrite <- !app_assoc.
Qed.

Lemma zero_id_unselectable_by_arrows_witness :
  let zeroMenu :=
    {| title := "Main"; parent := None;
       items := Some [ {| id := 0; label := "FurMark";
                          kind := Executable (PathString "furmark") |} ] |} in
  let app :=
    exampleApp {| menu := {[ "main" := zeroMenu ]} |} (Some "arrow_input") false
      ["main"] in
  let w := exampleWorld [""] [UIHandler.keyReturn] [ChildClose (Some 0)] in
  spawned (worldAfter (showCurrentMenuTurn app w)) = []
  ∧ spawned (worldAfter (handleUserChoice (ChoiceNum 0) app w))
    = [Spawn (Some "furmark") (Some "/tools")].
Proof.
  intros zeroMenu app w. split; [|by vm_compute].
  refine (proj1 (proj2 (proj2 (zero_id_unselectable_by_arrows app w zeroMenu
                   [ {| id := 0; label := "FurMark";
                        kind := Executable (PathString "furmark") |} ]
                   [] UIHandler.keyReturn []
                   {| id := 0; label := "FurMark";
                      kind := Executable (PathString "furmark") |} "" []
                   _ _ eq_refl eq_refl eq_refl _ eq_refl eq_refl eq_refl eq_refl)))).
  - discriminate.
  - by vm_compute.
  - by left.
Defined.

(** X18. Without raw mode the arrow-key selection falls back to one
    question, and the fallback knows no commands: it resolves the
    number typed (the Number that [parseInt] gives for it), t, or
    nothing, never q, m or p; it cannot end the process, whatever the
    menu; and it reads no key. *)
Theorem fallback_has_no_commands (menuItems : list (Z * string)) (menuTitle : string)
    (app : ApplicationController) (w : World) :
  rawModeAvailable w = false →
  (∀ c, outcomeOf (UIHandler.selectWithArrowKeys menuItems menuTitle app w)
        = Returned c →
        choiceIs c "q" = false ∧ choiceIs c "m" = false ∧ choiceIs c "p" = false)
  ∧ outcomeOf (UIHandler.selectWithArrowKeys menuItems menuTitle app w) ≠ Crashed
  ∧ keys (worldAfter (UIHandler.selectWithArrowKeys menuItems menuTitle app w))
    = keys w
  ∧ output (worldAfter (UIHandler.selectWithArrowKeys menuItems menuTitle app w))
    = (output w ++ [Question "请输入选项编号: "])%list
  ∧ (∀ line rest,
       lines w = line :: rest →
       outcomeOf (UIHandler.selectWithArrowKeys menuItems menuTitle app w)
       = Returned
           (match Js.parseInt line with
            | Some n => ChoiceNum n
            | None =>
                if (Js.toLowerCase line =? "t")%string then ChoiceStr "t"
                else ChoiceNull
            end)).
Proof.
  intros Hraw.
  unfold UIHandler.selectWithArrowKeys, question, bind, getWorld, emit, readLine, ret,
    outcomeOf, worldAfter.
  rewrite Hraw. destruct w as [oa rm pf ls ks cs pk out]. simpl.
  destruct ls as [|line rest]; simpl.
  { split; [done|]. split; [done|]. split; [done|]. split; [done|]. done. }
  split.
  { intros c. destruct (Js.parseInt line); [by intros [= <-]|].
    destruct (Js.toLowerCase line =? "t")%string; by intros [= <-]. }
  split.
  { destruct (Js.parseInt line); [done|].
    by destruct (Js.toLowerCase line =? "t")%string. }
  split.
  { destruct (Js.parseInt line); [done|].
    by destruct (Js.toLowerCase line =? "t")%string. }
  split.
  { destruct (Js.parseInt line); [done|].
    by destruct (Js.toLowerCase line =? "t")%string. }
  intros line' rest' [= <- <-].
  destruct (Js.parseInt line); [done|].
  by destruct (Js.toLowerCase line =? "t")%string.
Qed.

Lemma fallback_has_no_commands_witness :
  let w :=
    {| osArch := "x64"; rawModeAvailable := false;
       archPickerFile := inl "ENOENT"; lines := ["b"]; keys := [UIHandler.keyLeft];
       children := []; packages := []; output := [] |} in
  let app := exampleApp gpuMenus (Some "arrow_input") false ["main"; "gpu"] in
  outcomeOf (UIHandler.selectWithArrowKeys [(1, "FurMark")] "GPU" app w)
  = Returned ChoiceNull
  ∧ keys (worldAfter (UIHandler.selectWithArrowKeys [(1, "FurMark")] "GPU" app w))
    = [UIHandler.keyLeft].
Proof.
  intros w app.
  destruct (fallback_has_no_commands [(1, "FurMark")] "GPU" app w eq_refl)
    as (_ & _ & Hkeys & _ & Hline).
  split; [|exact Hkeys]. by rewrite (Hline "b" [] eq_refl).
Defined.

(** X19. In the arrow-key strategy a current menu that is missing from
    the menu tree, or has no list of items, is a trap: each turn
    reports the menu and an empty input and waits for Enter, without
    reading a key; so no back and no home can be given, and after any
    number of turns the controller is as it was, with nothing
    launched. *)
Theorem missing_menu_traps_arrows (app : ApplicationController) :
  inputMethodOf (Some (settingsConfig app)) ≠ "num_input" →
  (∀ m,
     lookupMenu (mc_config (menuController app)) (getCurrentMenu (menuController app))
     = Some m →
     items m = None) →
  ∀ turns w,
    appAfter (showCurrentMenu turns app w) = app
    ∧ keys (worldAfter (showCurrentMenu turns app w)) = keys w
    ∧ spawned (worldAfter (showCurrentMenu turns app w)) = spawned w
    ∧ ((turns ≤ length (lines w))%nat →
       outcomeOf (showCurrentMenu turns app w) = Returned tt
       ∧ length (output (worldAfter (showCurrentMenu turns app w)))
         = (length (output w) + 3 * turns)%nat).
Proof.
  intros Hmode Hmissing.
  assert (∃ text, ∀ w,
            displayInteractiveCurrentMenu app w
            = (Returned ChoiceNull, app,
               withOutput (output w ++ [ConsoleLog text]) w)) as [text Hshow].
  { destruct (lookupMenu (mc_config (menuController app))
                (getCurrentMenu (menuController app))) as [m|] eqn:Hm.
    - eexists. intros w.
      exact (displayInteractiveCurrentMenu_noItems app w m Hm (Hmissing m eq_refl)).
    - eexists. intros w. exact (displayInteractiveCurrentMenu_missing app w Hm). }
  induction turns as [|turns IH]; intros w.
  { simpl. split; [done|]. split; [done|]. split; [done|]. intros _.
    split; [done|]. unfold worldAfter. simpl. lia. }
  pose proof (interactive_turn_dispatch app w _ ChoiceNull Hmode (Hshow w)) as Hturn.
  simpl in Hturn. unfold tryCatch in Hturn.
  destruct (lines w) as [|enter rest] eqn:Hlines.
  - assert (showCurrentMenu (S turns) app w
            = (Blocked, app,
               withOutput
                 (output w ++ [ConsoleLog text; EmptyInput; pressEnter]) w)) as ->.
    { cbn [showCurrentMenu]. unfold bind at 1. rewrite Hturn.
      unfold UIHandler.waitForEnter, question, consoleLog, bind, emit, readLine, ret.
      simpl. rewrite Hlines. destruct w. unfold withOutput. simpl.
      by rewrite <- !app_assoc. }
    split; [done|]. split; [done|]. split; [|simpl; intros Hle; lia].
    unfold spawned, worldAfter. simpl. rewrite !List.filter_app. simpl.
    by rewrite !app_nil_r.
  - erewrite report_and_wait in Hturn by (simpl; exact Hlines).
    rewrite (showCurrentMenu_continues turns app app w _ Hturn).
    match goal with
    | |- context [showCurrentMenu turns app ?w1] =>
        destruct (IH w1) as (Happ & Hkeys & Hspawned & Hout)
    end.
    split; [exact Happ|]. split; [exact Hkeys|]. split.
    + rewrite Hspawned. unfold spawned. simpl. rewrite !List.filter_app. simpl.
      by rewrite !app_nil_r.
    + intros Hle. simpl in Hle. destruct Hout as [Hreturned Hlength]; [simpl; lia|].
      split; [exact Hreturned|]. rewrite Hlength. simpl.
      rewrite !length_app. simpl. lia.
Qed.

Lemma missing_menu_traps_arrows_witness :
  let app := exampleApp brokenMenus (Some "arrow_input") false ["main"; "gpu"] in
  let w := exampleWorld [""; ""] [UIHandler.keyLeft; UIHandler.keyRight] [] in
  stackOf (appAfter (showCurrentMenu 2 app w)) = ["main"; "gpu"]
  ∧ keys (worldAfter (showCurrentMenu 2 app w))
    = [UIHandler.keyLeft; UIHandler.keyRight].
Proof.
  intros app w.
  destruct (missing_menu_traps_arrows app ltac:(discriminate) ltac:(by vm_compute)
              2%nat w) as (Happ & Hkeys & _).
  split; [by rewrite Happ|exact Hkeys].
Defined.

(** ** The saved tool packages *)

Section FindIndex.

Context {A : Type} (f : A → bool).

Lemma findIndex_None (l : list A) :
  Packages.findIndex f l = None → Forall (λ x, f x = false) l.
Proof.
  induction l as [|x l IH]; simpl; [by constructor|].
  destruct (f x) eqn:Hx; [done|].
  destruct (Packages.findIndex f l); [done|]. intros _. by constructor; [|apply IH].
Qed.

Lemma findIndex_Some (l : list A) (i : nat) :
  Packages.findIndex f l = Some i →
  ∃ before x after,
    l = (before ++ x :: after)%list ∧ List.length before = i ∧ f x = true
    ∧ Forall (λ y, f y = false) before.
Proof.
  revert i. induction l as [|x l IH]; intros i; simpl; [done|].
  destruct (f x) eqn:Hx.
  - intros [= <-]. by exists [], x, l.
  - destruct (Packages.findIndex f l) as [j|]; [|done]. intros [= <-].
    destruct (IH j eq_refl) as (before & y & after & -> & <- & Hy & Hbefore).
    exists (x :: before), y, after. split; [done|]. split; [done|].
    split; [done|]. by constructor.
Qed.

Lemma findIndex_first (before after : list A) (x : A) :
  Forall (λ y, f y = false) before → f x = true →
  Packages.findIndex f (before ++ x :: after)%list = Some (List.length before).
Proof.
  intros Hbefore Hx. induction Hbefore as [|y before Hy _ IH]; simpl.
  - by rewrite Hx.
  - by rewrite Hy, IH.
Qed.

End FindIndex.

Lemma alter_middle {A} (g : A → A) (before after : list A) (x : A) :
  alter g (List.length before) (before ++ x :: after)%list
  = (before ++ g x :: after)%list.
Proof.
  rewrite <- (Nat.add_0_r (List.length before)) at 1. by rewrite alter_app_r.
Qed.

(** What [addToolPackage] does to the list, by whether a package of the
    same root is saved. *)
Lemma addToolPackage_cases (h : Packages.Host) (now : string)
    (packages : list Packages.ToolPackage) (packagePath : string)
    (packageName : option string) :
  let root := Packages.resolve h (Packages.getToolPackageRootPath h packagePath) in
  let newName := Js.orString packageName (Packages.basename h packagePath) in
  (Forall (λ p, packageRoot h p ≠ root) packages
   ∧ Packages.addToolPackage h now packages packagePath packageName
     = (packages ++ [ {| Packages.path := packagePath; Packages.name := newName;
                         Packages.added := now |} ])%list)
  ∨ (∃ before p after,
       packages = (before ++ p :: after)%list
       ∧ Forall (λ p, packageRoot h p ≠ root) before
       ∧ packageRoot h p = root
       ∧ Packages.addToolPackage h now packages packagePath packageName
         = (before ++ Packages.withName newName p :: after)%list).
Proof.
  intros root newName. unfold Packages.addToolPackage.
  fold root. fold newName.
  destruct (Packages.findIndex _ packages) as [i|] eqn:Hfind.
  - right. apply findIndex_Some in Hfind
      as (before & p & after & -> & <- & Hp & Hbefore).
    exists before, p, after. split; [done|]. split; [|split].
    + eapply Forall_impl; [exact Hbefore|]. intros q Hq.
      by apply String.eqb_neq in Hq.
    + by apply String.eqb_eq in Hp.
    + apply alter_middle.
  - left. split; [|done]. apply findIndex_None in Hfind.
    eapply Forall_impl; [exact Hfind|]. intros q Hq.
    by apply String.eqb_neq in Hq.
Qed.

Lemma packageRoot_withName (h : Packages.Host) (newName : string)
    (p : Packages.ToolPackage) :
  packageRoot h (Packages.withName newName p) = packageRoot h p.
Proof. reflexivity. Qed.

(** X20. [addToolPackage] keeps the saved list free of duplicates: when
    no two saved packages have the same normalised root, none have
    afterwards, and the package added is on the list.  It changes no
    saved path and no date, and adds at most one entry, at the end. *)
Theorem addToolPackage_keeps_roots_distinct (h : Packages.Host) (now : string)
    (packages : list Packages.ToolPackage) (packagePath : string)
    (packageName : option string) :
  NoDup (map (packageRoot h) packages) →
  NoDup (map (packageRoot h)
           (Packages.addToolPackage h now packages packagePath packageName))
  ∧ Packages.resolve h (Packages.getToolPackageRootPath h packagePath)
    ∈ map (packageRoot h)
        (Packages.addToolPackage h now packages packagePath packageName)
  ∧ (map Packages.path
       (Packages.addToolPackage h now packages packagePath packageName)
     = map Packages.path packages
     ∨ map Packages.path
         (Packages.addToolPackage h now packages packagePath packageName)
       = (map Packages.path packages ++ [packagePath])%list)
  ∧ take (length packages)
      (map Packages.added
         (Packages.addToolPackage h now packages packagePath packageName))
    = map Packages.added packages.
Proof.
  intros Hdistinct.
  destruct (addToolPackage_cases h now packages packagePath packageName)
    as [[Hfresh ->]|(before & p & after & -> & Hbefore & Hp & ->)].
  - rewrite !map_app. simpl. split; [|split; [|split]].
    + apply NoDup_app. split; [exact Hdistinct|]. split; [|apply NoDup_singleton].
      intros root Hroot Hnew. apply list_elem_of_singleton in Hnew. subst root.
      apply list_elem_of_In, in_map_iff in Hroot as (q & Hq & Hin).
      apply list_elem_of_In in Hin.
      by apply (proj1 (Forall_forall _ _) Hfresh q Hin).
    + apply elem_of_app. right. apply list_elem_of_singleton. reflexivity.
    + by right.
    + rewrite <- (length_map Packages.added packages). by rewrite take_app_length.
  - assert (∀ B (field : Packages.ToolPackage → B),
              (∀ q newName, field (Packages.withName newName q) = field q) →
              map field
                (before
                 ++ Packages.withName
                      (Js.orString packageName (Packages.basename h packagePath)) p
                 :: after)
              = map field (before ++ p :: after)) as Hsame.
    { intros B field Hfield. rewrite !map_app. simpl. by rewrite Hfield. }
    split; [|split; [|split]].
    + by rewrite (Hsame _ (packageRoot h)).
    + rewrite (Hsame _ (packageRoot h)) by done. rewrite <- Hp.
      apply list_elem_of_In, in_map, in_elt.
    + left. by apply Hsame.
    + rewrite (Hsame _ Packages.added) by done.
      rewrite <- (length_map Packages.added (before ++ p :: after)).
      apply firstn_all.
Qed.

Lemma addToolPackage_keeps_roots_distinct_witness :
  let h :=
    {| Packages.existsSync := λ _, false;
       Packages.readSettings := λ _, Packages.SettingsUnreadable "";
       Packages.join := λ a b, a +:+ "/" +:+ b;
       Packages.dirname := λ a, a; Packages.basename := λ a, a;
       Packages.resolve := λ a, a |} in
  let saved :=
    [ {| Packages.path := "/tools"; Packages.name := "old";
         Packages.added := "2024-01-01" |} ] in
  NoDup (map (packageRoot h)
           (Packages.addToolPackage h "2025-01-01" saved "/tools" (Some "new"))).
Proof.
  intros h saved.
  refine (proj1 (addToolPackage_keeps_roots_distinct h "2025-01-01" saved "/tools"
                   (Some "new") _)).
  apply NoDup_singleton.
Defined.

(** X21. Adding the same package again changes nothing: the second call
    of [addToolPackage] finds the entry that the first call found or
    made, and gives it the name it has; the date of the entry is that
    of the first call. *)
Theorem addToolPackage_twice (h : Packages.Host) (now later : string)
    (packages : list Packages.ToolPackage) (packagePath : string)
    (packageName : option string) :
  Packages.addToolPackage h later
    (Packages.addToolPackage h now packages packagePath packageName)
    packagePath packageName
  = Packages.addToolPackage h now packages packagePath packageName.
Proof.
  destruct (addToolPackage_cases h now packages packagePath packageName)
    as [[Hfresh ->]|(before & p & after & -> & Hbefore & Hp & ->)].
  - unfold Packages.addToolPackage at 1.
    rewrite (findIndex_first _ packages []).
    + by rewrite alter_middle.
    + eapply Forall_impl; [exact Hfresh|]. intros q Hq.
      by apply String.eqb_neq.
    + apply String.eqb_refl.
  - unfold Packages.addToolPackage at 1.
    rewrite (findIndex_first _ before after).
    + by rewrite alter_middle.
    + eapply Forall_impl; [exact Hbefore|]. intros q Hq.
      by apply String.eqb_neq.
    + apply String.eqb_eq. exact Hp.
Qed.

(** *** The numbered selection of a package *)

Lemma output_withLines (l : list string) (w : World) :
  output (withLines l w) = output w.
Proof. reflexivity. Qed.

Lemma lines_withOutput (o : list Event) (w : World) :
  lines (withOutput o w) = lines w.
Proof. reflexivity. Qed.

Lemma withOutput_withLines (o : list Event) (l : list string) (w : World) :
  withOutput o (withLines l w) = withLines l (withOutput o w).
Proof. reflexivity. Qed.

Lemma withOutput_nil (w : World) : withOutput (output w ++ []) w = w.
Proof. destruct w. unfold withOutput. simpl. by rewrite app_nil_r. Qed.

Lemma consoleLog_run (text : string) (app : ApplicationController) (w : World) :
  consoleLog text app w
  = (Returned tt, app, withOutput (output w ++ [ConsoleLog text]) w).
Proof. reflexivity. Qed.

Lemma getToolPackageInfo_run (h : Packages.Host) (packagePath : string)
    (app : ApplicationController) (w : World) :
  ∃ (info : string * string) (events : list Event),
    noLaunch events
    ∧ Packages.getToolPackageInfo h packagePath app w
      = (Returned info, app, withOutput (output w ++ events) w).
Proof.
  unfold Packages.getToolPackageInfo.
  destruct (Packages.existsSync h (Packages.join h _ "settings.json")).
  - destruct (Packages.readSettings h _) as [appName appVersion|message].
    + eexists _, []. split; [done|]. unfold ret. by rewrite withOutput_nil.
    + eexists _, [_]. split; [|reflexivity]. done.
  - eexists _, []. split; [done|]. unfold ret. by rewrite withOutput_nil.
Qed.

Lemma listPackages_run (h : Packages.Host) (packages : list Packages.ToolPackage) :
  ∀ (i : Z) (app : ApplicationController) (w : World),
    ∃ events : list Event,
      noLaunch events
      ∧ Packages.listPackages h i packages app w
        = (Returned tt, app, withOutput (output w ++ events) w).
Proof.
  induction packages as [|pkg packages IH]; intros i app w.
  - exists []. split; [done|]. simpl. unfold ret. by rewrite withOutput_nil.
  - cbn [Packages.listPackages]. unfold bind at 1.
    destruct (getToolPackageInfo_run h (Packages.path pkg) app w)
      as (info & events & Hquiet & ->).
    unfold bind at 1. rewrite consoleLog_run.
    match goal with
    | |- context [Packages.listPackages h (i + 1) packages app ?w1] =>
        destruct (IH (i + 1) app w1) as (more & Hmore & ->)
    end.
    eexists (events ++ [_] ++ more)%list. split; last first.
    + rewrite !output_withOutput, !withOutput_withOutput.
      by rewrite <- !app_assoc.
    + unfold noLaunch in *. rewrite !List.filter_app, Hquiet, Hmore. done.
Qed.

(** The selection up to the dispatch on the answer: the list is
    written, the prompt is written, a line is read. *)
Lemma selector_run (h : Packages.Host) (promptForConfigPath : M (option string))
    (packages : list Packages.ToolPackage) (app : ApplicationController)
    (w : World) (line : string) (rest : list string) :
  packages ≠ [] →
  lines w = line :: rest →
  ∃ events : list Event,
    noLaunch events
    ∧ Packages.showToolPackageSelectorWithNumbers h promptForConfigPath packages app w
      = match Js.parseInt (answerOf line) with
        | Some choice =>
            if choice =? Z.of_nat (length packages) + 1 then
              promptForConfigPath
            else if (0 <? choice) && (choice <=? Z.of_nat (length packages)) then
              ret (Packages.path <$> packages !! Z.to_nat (choice - 1))
            else
              run consoleLog (Js.red "无效的选择！");
              run UIHandler.waitForEnter;
              ret None
        | None =>
            run consoleLog (Js.red "无效的选择！");
            run UIHandler.waitForEnter;
            ret None
        end app (withLines rest (withOutput (output w ++ events) w)).
Proof.
  intros Hpackages Hlines.
  unfold Packages.showToolPackageSelectorWithNumbers.
  destruct packages as [|pkg packages]; [done|].
  cbn [length Nat.eqb].
  unfold bind at 1. rewrite consoleLog_run.
  unfold bind at 1.
  match goal with
  | |- context [Packages.listPackages h 0 ?l app ?w1] =>
      destruct (listPackages_run h l 0 app w1) as (events & Hquiet & ->)
  end.
  unfold bind at 1. rewrite consoleLog_run.
  unfold bind at 1. unfold question at 1. unfold bind at 1. unfold emit at 1.
  unfold readLine at 1. rewrite !lines_withOutput, Hlines.
  eexists ([_] ++ events ++ [_; _])%list. split; last first.
  { unfold answerOf.
    rewrite !output_withOutput, !withOutput_withOutput.
    by rewrite <- !app_assoc. }
  unfold noLaunch in *. rewrite !List.filter_app, Hquiet. done.
Qed.

(** X22. The numbered selection returns only paths of saved packages:
    unless the entry that adds a package is chosen, a path it returns
    is the path of the package whose number was typed, and a number in
    the range of the list returns that package's path; the selection
    then leaves the controller as it was and launches nothing.  With no
    saved package it asks nothing. *)
Theorem selector_returns_saved_paths (h : Packages.Host)
    (promptForConfigPath : M (option string))
    (packages : list Packages.ToolPackage) (app : ApplicationController)
    (w : World) (line : string) (rest : list string) :
  lines w = line :: rest →
  Js.parseInt (answerOf line) ≠ Some (Z.of_nat (length packages) + 1) →
  (∀ p,
     outcomeOf (Packages.showToolPackageSelectorWithNumbers h promptForConfigPath
                  packages app w) = Returned (Some p) →
     ∃ n pkg,
       Js.parseInt (answerOf line) = Some n
       ∧ 1 ≤ n ≤ Z.of_nat (length packages)
       ∧ packages !! Z.to_nat (n - 1) = Some pkg
       ∧ Packages.path pkg = p)
  ∧ (∀ n,
       Js.parseInt (answerOf line) = Some n →
       1 ≤ n ≤ Z.of_nat (length packages) →
       ∃ pkg,
         packages !! Z.to_nat (n - 1) = Some pkg
         ∧ outcomeOf (Packages.showToolPackageSelectorWithNumbers h
                        promptForConfigPath packages app w)
           = Returned (Some (Packages.path pkg))
         ∧ lines (worldAfter (Packages.showToolPackageSelectorWithNumbers h
                                promptForConfigPath packages app w)) = rest)
  ∧ appAfter (Packages.showToolPackageSelectorWithNumbers h promptForConfigPath
                packages app w) = app
  ∧ spawned (worldAfter (Packages.showToolPackageSelectorWithNumbers h
                           promptForConfigPath packages app w)) = spawned w
  ∧ (packages = [] →
     Packages.showToolPackageSelectorWithNumbers h promptForConfigPath packages app w
     = (Returned None, app,
        withOutput (output w ++ [ConsoleLog (Js.yellow "没有保存的工具包")]) w)).
Proof.
  intros Hlines Hadd.
  destruct packages as [|pkg0 packages0] eqn:Hpackages.
  { unfold Packages.showToolPackageSelectorWithNumbers. simpl.
    split; [done|]. split; [intros n _ Hn; simpl in Hn; lia|].
    split; [done|]. split; [|done].
    unfold spawned, worldAfter. simpl. rewrite List.filter_app. simpl.
    by rewrite app_nil_r. }
  rewrite <- Hpackages in *.
  assert (packages ≠ []) as Hne by (by rewrite Hpackages).
  clear Hpackages pkg0 packages0.
  destruct (selector_run h promptForConfigPath packages app w line rest Hne Hlines)
    as (events & Hquiet & ->).
  assert (spawned (withLines rest (withOutput (output w ++ events) w)) = spawned w)
    as Hspawned.
  { unfold spawned. simpl. rewrite List.filter_app. unfold noLaunch in Hquiet.
    by rewrite Hquiet, app_nil_r. }
  assert (∀ w1 : World,
            appAfter ((run consoleLog (Js.red "无效的选择！");
                       run UIHandler.waitForEnter; ret (@None string)) app w1) = app
            ∧ spawned (worldAfter
                         ((run consoleLog (Js.red "无效的选择！");
                           run UIHandler.waitForEnter; ret (@None string)) app w1))
              = spawned w1
            ∧ ∀ p, outcomeOf ((run consoleLog (Js.red "无效的选择！");
                               run UIHandler.waitForEnter; ret (@None string)) app w1)
                   ≠ Returned (Some p)) as Hinvalid.
  { intros w1.
    unfold UIHandler.waitForEnter, question, consoleLog, bind, emit, readLine, ret.
    simpl. destruct (lines w1); simpl;
      (split; [done|]; split; [|done]);
      unfold spawned; simpl; rewrite !List.filter_app; simpl;
      by rewrite !app_nil_r. }
  destruct (Js.parseInt (answerOf line)) as [n|] eqn:Hparse.
  2:{ destruct (Hinvalid (withLines rest (withOutput (output w ++ events) w)))
        as (Happ & Hlaunch & Hnone).
      split; [intros p Hp; by destruct (Hnone p)|]. split; [done|].
      split; [exact Happ|]. split; [by rewrite Hlaunch|done]. }
  destruct (Z.eqb_spec n (Z.of_nat (length packages) + 1)) as [->|_]; [done|].
  destruct (Z.ltb_spec 0 n) as [Hpos|Hpos];
    [destruct (Z.leb_spec n (Z.of_nat (length packages))) as [Hle|Hle]|]; simpl.
  - destruct (lookup_lt_is_Some_2 packages (Z.to_nat (n - 1))) as [pkg Hpkg]; [lia|].
    rewrite Hpkg. simpl. split.
    { intros p [= <-]. exists n, pkg. split; [done|]. split; [lia|]. by split. }
    split.
    { intros n' [= <-] _. exists pkg. by split. }
    split; [done|]. split; [exact Hspawned|done].
  - destruct (Hinvalid (withLines rest (withOutput (output w ++ events) w)))
      as (Happ & Hlaunch & Hnone).
    split; [intros p Hp; by destruct (Hnone p)|].
    split; [intros n' [= <-] Hrange; lia|].
    split; [exact Happ|]. split; [by rewrite Hlaunch|done].
  - destruct (Hinvalid (withLines rest (withOutput (output w ++ events) w)))
      as (Happ & Hlaunch & Hnone).
    split; [intros p Hp; by destruct (Hnone p)|].
    split; [intros n' [= <-] Hrange; lia|].
    split; [exact Happ|]. split; [by rewrite Hlaunch|done].
Qed.

Lemma selector_returns_saved_paths_witness :
  let h :=
    {| Packages.existsSync := λ _, false;
       Packages.readSettings := λ _, Packages.SettingsUnreadable "";
       Packages.join := λ a b, a +:+ "/" +:+ b;
       Packages.dirname := λ a, a; Packages.basename := λ a, a;
       Packages.resolve := λ a, a |} in
  let saved :=
    [ {| Packages.path := "/tools"; Packages.name := "tools";
         Packages.added := "2024-01-01" |};
      {| Packages.path := "/more"; Packages.name := "more";
         Packages.added := "2024-02-01" |} ] in
  let app := exampleApp gpuMenus (Some "num_input") false ["main"] in
  outcomeOf (Packages.showToolPackageSelectorWithNumbers h (ret None) saved app
               (exampleWorld [" 2 "] [] []))
  = Returned (Some "/more").
Proof.
  intros h saved app.
  destruct (selector_returns_saved_paths h (ret None) saved app
              (exampleWorld [" 2 "] [] []) " 2 " [] eq_refl)
    as (_ & Hselect & _).
  { by vm_compute. }
  destruct (Hselect 2) as (pkg & Hpkg & Hrun & _); [by vm_compute|simpl; lia|].
  rewrite Hrun. simpl in Hpkg. by injection Hpkg as <-.
Defined.

(** ** Loading the configuration *)

Lemma stripPrefix_append (p s : string) : Js.stripPrefix p (p +:+ s) = Some s.
Proof.
  induction p as [|c p IH]; simpl; [by destruct s|].
  by rewrite Ascii.eqb_refl.
Qed.

(** X23. [loadJson] removes one byte order mark and no more: a file
    that starts with the mark loads as what follows the mark parses
    to, so a file with and without the mark load alike.  It returns a
    configuration exactly when the file was read and its text without
    the mark parses; a missing file is reported by the path, whatever
    the message of the error. *)
Theorem loadJson_strips_one_mark {A : Type} (parse : string → string + A)
    (jsonPath data : string) :
  ConfigHandler.loadJson parse jsonPath
    (ConfigHandler.FileData (ConfigHandler.bom +:+ data))
  = match parse data with
    | inr jsonData => inr jsonData
    | inl message => inl ("JSON解析错误: " +:+ message)
    end
  ∧ (Js.stripPrefix ConfigHandler.bom data = None →
     ConfigHandler.loadJson parse jsonPath
       (ConfigHandler.FileData (ConfigHandler.bom +:+ data))
     = ConfigHandler.loadJson parse jsonPath (ConfigHandler.FileData data))
  ∧ (∀ file jsonData,
       ConfigHandler.loadJson parse jsonPath file = inr jsonData
       ↔ ∃ text, file = ConfigHandler.FileData text
                 ∧ parse (ConfigHandler.stripBom text) = inr jsonData)
  ∧ (∀ message,
       ConfigHandler.loadJson parse jsonPath
         (ConfigHandler.FileError (Some "ENOENT") message)
       = inl ("配置文件未找到: " +:+ jsonPath)).
Proof.
  assert (ConfigHandler.stripBom (ConfigHandler.bom +:+ data) = data) as Hmark.
  { unfold ConfigHandler.stripBom. by rewrite stripPrefix_append. }
  split; [|split; [|split]].
  - unfold ConfigHandler.loadJson. cbv zeta. by rewrite Hmark.
  - intros Hnone. unfold ConfigHandler.loadJson. cbv zeta. rewrite Hmark.
    unfold ConfigHandler.stripBom. by rewrite Hnone.
  - intros file jsonData. split.
    + destruct file as [text|code message]; simpl.
      * destruct (parse (ConfigHandler.stripBom text)) as [message|value] eqn:Hparse;
          [done|]. intros [= <-]. by exists text.
      * by destruct (bool_decide (code = Some "ENOENT")).
    + intros (text & -> & Hparse). simpl. by rewrite Hparse.
  - done.
Qed.

(** ** The switch of the tool package *)

(** [switchToToolPackage] by the way it ends: it returns false with the
    controller as it was; or it throws what [loadJson] throws, with
    the two directories assigned; or it returns true with everything
    assigned and a new menu controller. *)
Lemma switchToToolPackage_cases (h : Packages.Host) (f : Packages.Files)
    (packagePath : string) (app : ApplicationController) (w : World) :
  let selected :=
    if Packages.existsSync h (Packages.join h packagePath "menu.json") then packagePath
    else Packages.join h packagePath "config" in
  (∃ text,
     Packages.switchToToolPackage h f packagePath app w
     = (Returned false, app, withOutput (output w ++ [ConsoleLog text]) w))
  ∨ (∃ message,
       ConfigHandler.loadJson (Packages.parseMenu f)
         (Packages.resolve h (Packages.join h selected "menu.json"))
         (Packages.readFileSync f
            (Packages.resolve h (Packages.join h selected "menu.json")))
       = inl message
       ∧ Packages.switchToToolPackage h f packagePath app w
         = (Thrown message,
            {| config := config app; settingsConfig := settingsConfig app;
               menuController := menuController app; configDir := selected;
               toolPackageDir := Packages.dirname h selected |}, w))
  ∨ (∃ newConfig newSettings,
       Packages.existsSync h (Packages.join h selected "menu.json") = true
       ∧ Packages.isDirectory f selected = true
       ∧ Packages.switchToToolPackage h f packagePath app w
         = (Returned true,
            {| config := newConfig; settingsConfig := newSettings;
               menuController := newMenuController newConfig; configDir := selected;
               toolPackageDir := Packages.dirname h selected |}, w)).
Proof.
  intros selected. unfold Packages.switchToToolPackage. fold selected.
  destruct (Packages.existsSync h selected); simpl;
    [|left; by eexists].
  destruct (Packages.isDirectory f selected); simpl; [|left; by eexists].
  destruct (Packages.existsSync h (Packages.join h selected "menu.json")); simpl;
    [|left; by eexists].
  destruct (Packages.saveConfigPath f selected) as [message|]; [left; by eexists|].
  right. unfold bind at 1. unfold getApp at 1. unfold bind at 1. unfold putApp at 1.
  destruct (ConfigHandler.loadJson _ _ _) as [message|newConfig] eqn:Hload.
  - left. by exists message.
  - right. eexists newConfig, _. split; [done|]. split; [done|]. reflexivity.
Qed.



(** X25. A [switchToToolPackage] that does not succeed either rejects
    the path, writing one message and leaving the controller as it
    was, or fails on menu.json with the error of [loadJson]: then the
    configuration directory and the tool package directory are
    already those of the new package, while the configuration, the
    settings and the menu controller are still the old ones.  It never
    waits for input. *)
Theorem package_switch_failure (h : Packages.Host) (f : Packages.Files)
    (packagePath : string) (app : ApplicationController) (w : World) :
  (outcomeOf (Packages.switchToToolPackage h f packagePath app w) = Returned false →
   appAfter (Packages.switchToToolPackage h f packagePath app w) = app
   ∧ ∃ text,
       output (worldAfter (Packages.switchToToolPackage h f packagePath app w))
       = (output w ++ [ConsoleLog text])%list)
  ∧ (∀ message,
       outcomeOf (Packages.switchToToolPackage h f packagePath app w) = Thrown message →
       config (appAfter (Packages.switchToToolPackage h f packagePath app w))
       = config app
       ∧ settingsConfig (appAfter (Packages.switchToToolPackage h f packagePath app w))
         = settingsConfig app
       ∧ menuController (appAfter (Packages.switchToToolPackage h f packagePath app w))
         = menuController app
       ∧ toolPackageDir (appAfter (Packages.switchToToolPackage h f packagePath app w))
         = Packages.dirname h
             (configDir
                (appAfter (Packages.switchToToolPackage h f packagePath app w)))
       ∧ ConfigHandler.loadJson (Packages.parseMenu f)
           (Packages.resolve h
              (Packages.join h
                 (configDir
                    (appAfter (Packages.switchToToolPackage h f packagePath app w)))
                 "menu.json"))
           (Packages.readFileSync f
              (Packages.resolve h
                 (Packages.join h
                    (configDir
                       (appAfter (Packages.switchToToolPackage h f packagePath app w)))
                    "menu.json")))
         = inl message)
  ∧ outcomeOf (Packages.switchToToolPackage h f packagePath app w) ≠ Blocked
  ∧ outcomeOf (Packages.switchToToolPackage h f packagePath app w) ≠ Crashed.
Proof.
  destruct (switchToToolPackage_cases h f packagePath app w)
    as [[text Hrun]|[(thrown & Hload & Hrun)
                     |(newConfig & newSettings & _ & _ & Hrun)]];
    rewrite Hrun; simpl.
  - split; [intros _; split; [done|by exists text]|by repeat split].
  - split; [done|]. split; [|done]. intros message [= <-]. by repeat split.
  - split; [done|]. by repeat split.
Qed.
